(** * Dnote CLI: the synchronisation engine of [cmd/sync/sync.go]

    A shallow embedding of the sync command: the local store is the pair of
    SQL tables [books] and [notes] plus the key-value table [system]; the
    remote server is a state-passing oracle; the command runs inside one
    transaction over the store.

    Conventions.
    - Go [int] and [int64] values are [Z]; the only arithmetic the engine does
      on them is [lastMaxUSN+1], written with its 64-bit wrap-around.
    - A table is the list of its rows in rowid order.  The schema visible in
      [migrate/migrations.go] declares no uniqueness, so a table may hold
      several rows with one uuid; statements with a [WHERE] clause act on
      every matching row and [QueryRow] reads the first one.
    - A statement whose error the command checks always executes; the only
      store error it meets is [sql.ErrNoRows] out of [QueryRow(..).Scan].
      The two results the command does not check, the count of dirty rows in
      [sendChanges] and [tx.Commit()] in [newRun], may be failures: whether
      they are is an answer of the environment, like the server's. *)

From stdpp Require Import gmap strings list pretty.

Open Scope Z_scope.

(** ** Errors and results *)

Inductive error : Type :=
| ErrNoRows                               (* sql.ErrNoRows *)
| ErrRemote (op : string)                 (* a server call failed *)
| ErrDecrypt                              (* crypt.AesGcmDecrypt failed *)
| ErrNew (msg : string)                   (* errors.New *)
| Wrap (e : error) (ctx : string).        (* errors.Wrap / errors.Wrapf *)

(** The outcome of a computation: a value, a Go [error], or the model's
    budget of server round trips being exhausted. *)
Inductive res (A : Type) : Type :=
| Ok (a : A)
| Err (e : error)
| Fuel.
Arguments Ok {A} a.
Arguments Err {A} e.
Arguments Fuel {A}.

Definition is_err {A} (r : res A) : bool :=
  match r with Err _ => true | _ => false end.

(** ** Data model *)

(** [core.Book] *)
Record Book : Type := mkBook {
  b_UUID : string;
  b_Label : string;
  b_USN : Z;
  b_Dirty : bool;
  b_Deleted : bool
}.

(** [core.Note] *)
Record Note : Type := mkNote {
  n_UUID : string;
  n_BookUUID : string;
  n_Body : string;
  n_AddedOn : Z;
  n_EditedOn : Z;
  n_USN : Z;
  n_Public : bool;
  n_Deleted : bool;
  n_Dirty : bool
}.

(** [client.SyncFragNote], with the fields the engine reads. *)
Record SyncFragNote : Type := mkFragNote {
  fn_UUID : string;
  fn_BookUUID : string;
  fn_USN : Z;
  fn_AddedOn : Z;
  fn_EditedOn : Z;
  fn_Body : string;
  fn_Public : bool;
  fn_Deleted : bool
}.

(** [client.SyncFragBook] *)
Record SyncFragBook : Type := mkFragBook {
  fb_UUID : string;
  fb_USN : Z;
  fb_Label : string;
  fb_Deleted : bool
}.

(** [client.SyncFragment] *)
Record SyncFragment : Type := mkFragment {
  FragMaxUSN : Z;
  CurrentTime : Z;
  Notes : list SyncFragNote;
  Books : list SyncFragBook;
  ExpungedNotes : list string;
  ExpungedBooks : list string
}.

(** [client.GetSyncStateResp] *)
Record SyncState : Type := mkSyncState {
  ss_FullSyncBefore : Z;
  ss_MaxUSN : Z;
  ss_CurrentTime : Z
}.

(** The local store seen through a transaction handle [tx *infra.DB]. *)
Record DB : Type := mkDB {
  books : list Book;
  notes : list Note;
  system : gmap string Z
}.

Global Instance Book_eq_dec : EqDecision Book.
Proof. solve_decision. Defined.
Global Instance Note_eq_dec : EqDecision Note.
Proof. solve_decision. Defined.
Global Instance SyncFragNote_eq_dec : EqDecision SyncFragNote.
Proof. solve_decision. Defined.
Global Instance SyncFragBook_eq_dec : EqDecision SyncFragBook.
Proof. solve_decision. Defined.

Definition set_books (f : list Book -> list Book) (tx : DB) : DB :=
  mkDB (f (books tx)) (notes tx) (system tx).
Definition set_notes (f : list Note -> list Note) (tx : DB) : DB :=
  mkDB (books tx) (f (notes tx)) (system tx).
Definition set_system (f : gmap string Z -> gmap string Z) (tx : DB) : DB :=
  mkDB (books tx) (notes tx) (f (system tx)).

(** ** SQL primitives *)

(** [UPDATE t SET .. WHERE P]: every matching row is rewritten in place. *)
Definition sql_update {A} (P : A -> Prop) `{!forall x, Decision (P x)}
    (f : A -> A) (t : list A) : list A :=
  (fun r => if decide (P r) then f r else r) <$> t.

(** [DELETE FROM t WHERE P] *)
Definition sql_delete {A} (P : A -> Prop) `{!forall x, Decision (P x)}
    (t : list A) : list A :=
  filter (fun r => ~ P r) t.

(** [SELECT count( * ) FROM t WHERE P] *)
Definition sql_count {A} (P : A -> Prop) `{!forall x, Decision (P x)}
    (t : list A) : Z :=
  Z.of_nat (length (filter P t)).

(** [QueryRow("SELECT .. FROM t WHERE P").Scan(..)]: the first matching row,
    [sql.ErrNoRows] when there is none. *)
Definition sql_query_row {A} (P : A -> Prop) `{!forall x, Decision (P x)}
    (t : list A) : option A :=
  head (filter P t).

(** ** The system table *)

Definition SystemLastSyncAt : string := "last_sync_at".
Definition SystemLastMaxUSN : string := "last_max_usn".

(** Modelled from the spec: [core.GetSystem] is not among the sources; it
    reads the scalar stored under a key of the system table and fails when
    the key has no row. *)
Definition GetSystem (tx : DB) (key : string) : res Z :=
  match system tx !! key with
  | Some v => Ok v
  | None => Err ErrNoRows
  end.

(** Modelled from the spec: [core.UpdateSystem] is not among the sources; it
    writes the scalar stored under a key of the system table. *)
Definition UpdateSystem (tx : DB) (key : string) (val : Z) : DB :=
  set_system (fun s => <[key := val]> s) tx.

Definition getLastSyncAt (tx : DB) : res Z :=
  match GetSystem tx SystemLastSyncAt with
  | Ok v => Ok v
  | Err e => Err (Wrap e "querying last sync time")
  | Fuel => Fuel
  end.

Definition getLastMaxUSN (tx : DB) : res Z :=
  match GetSystem tx SystemLastMaxUSN with
  | Ok v => Ok v
  | Err e => Err (Wrap e "querying last user max_usn")
  | Fuel => Fuel
  end.

Definition updateLastMaxUSN (tx : DB) (val : Z) : DB :=
  UpdateSystem tx SystemLastMaxUSN val.

Definition updateLastSyncAt (tx : DB) (val : Z) : DB :=
  UpdateSystem tx SystemLastSyncAt val.

Definition saveSyncState (tx : DB) (serverTime serverMaxUSN : Z) : DB :=
  updateLastSyncAt (updateLastMaxUSN tx serverMaxUSN) serverTime.

(** ** Store access layer (package [core]) *)

(** Modelled from the spec: [core.NewBook] is not among the sources; it
    builds a book record from its arguments
    [(uuid, label, usn, deleted, dirty)]. *)
Definition NewBook (uuid label : string) (usn : Z) (deleted dirty : bool) : Book :=
  mkBook uuid label usn dirty deleted.

(** Modelled from the spec: [core.NewNote] is not among the sources; it
    builds a note record from its arguments
    [(uuid, bookUUID, body, addedOn, editedOn, usn, public, deleted, dirty)]. *)
Definition NewNote (uuid bookUUID body : string) (addedOn editedOn usn : Z)
    (public deleted dirty : bool) : Note :=
  mkNote uuid bookUUID body addedOn editedOn usn public deleted dirty.

(** Modelled from the spec: the methods [Insert], [Update], [UpdateUUID] and
    [Expunge] of [core.Book] and [core.Note] are not among the sources.
    [Insert] adds the record as a new row; [Update] writes the record's
    fields to the rows carrying its uuid; [UpdateUUID] replaces the uuid of
    those rows; [Expunge] hard-deletes them. *)
Definition Book_Insert (book : Book) (tx : DB) : DB :=
  set_books (fun t => t ++ [book]) tx.

Definition Note_Insert (note : Note) (tx : DB) : DB :=
  set_notes (fun t => t ++ [note]) tx.

Definition Book_Update (book : Book) (tx : DB) : DB :=
  set_books (sql_update (fun r => b_UUID r = b_UUID book) (fun _ => book)) tx.

Definition Note_Update (note : Note) (tx : DB) : DB :=
  set_notes (sql_update (fun r => n_UUID r = n_UUID note) (fun _ => note)) tx.

Definition Book_UpdateUUID (book : Book) (newUUID : string) (tx : DB) : DB :=
  set_books (sql_update (fun r => b_UUID r = b_UUID book)
    (fun r => mkBook newUUID (b_Label r) (b_USN r) (b_Dirty r) (b_Deleted r))) tx.

Definition Note_UpdateUUID (note : Note) (newUUID : string) (tx : DB) : DB :=
  set_notes (sql_update (fun r => n_UUID r = n_UUID note)
    (fun r => mkNote newUUID (n_BookUUID r) (n_Body r) (n_AddedOn r) (n_EditedOn r)
                (n_USN r) (n_Public r) (n_Deleted r) (n_Dirty r))) tx.

Definition Book_Expunge (book : Book) (tx : DB) : DB :=
  set_books (sql_delete (fun r => b_UUID r = b_UUID book)) tx.

Definition Note_Expunge (note : Note) (tx : DB) : DB :=
  set_notes (sql_delete (fun r => n_UUID r = n_UUID note)) tx.

(** ** Label collision resolution *)

(** [fmt.Sprintf("%s (%d)", label, i)] *)
Definition Sprintf_label (label : string) (i : nat) : string :=
  label +:+ " (" +:+ pretty i +:+ ")".

(** The loop of [resolveLabel], [for i := 2; ; i++], unrolled at most [n]
    times from counter [i]. *)
Fixpoint resolveLabel_loop (n : nat) (tx : DB) (label : string) (i : nat) : res string :=
  match n with
  | O => Fuel
  | S n' =>
      let ret := Sprintf_label label i in
      let cnt := sql_count (fun b => b_Label b = ret) (books tx) in
      if decide (cnt = 0) then Ok ret
      else resolveLabel_loop n' tx label (S i)
  end.

(** [resolveLabel]: a table of [k] books leaves one of the [k+1] first
    candidates free, so [k+1] rounds are enough (lemma [resolveLabel_total]
    below shows the budget is never exhausted). *)
Definition resolveLabel (tx : DB) (label : string) : res string :=
  resolveLabel_loop (S (length (books tx))) tx label 2.

Definition modeInsert : Z := 0.
Definition modeUpdate : Z := 1.

Definition mergeBook (tx : DB) (b : SyncFragBook) (mode : Z) : res DB :=
  let count := sql_count (fun r => b_Label r = fb_Label b) (books tx) in
  let renamed : res DB :=
    if decide (count > 0) then
      match resolveLabel tx (fb_Label b) with
      | Ok newLabel =>
          Ok (set_books (sql_update (fun r => b_Label r = fb_Label b)
                (fun r => mkBook (b_UUID r) newLabel (b_USN r) true (b_Deleted r))) tx)
      | Err e => Err (Wrap e "getting a new book label for conflict resolution")
      | Fuel => Fuel
      end
    else Ok tx in
  match renamed with
  | Ok tx1 =>
      if decide (mode = modeInsert) then
        let book := NewBook (fb_UUID b) (fb_Label b) (fb_USN b) false false in
        Ok (Book_Insert book tx1)
      else if decide (mode = modeUpdate) then
        Ok (set_books (sql_update (fun r => b_UUID r = fb_UUID b)
              (fun r => mkBook (fb_UUID b) (fb_Label b) (fb_USN b) (b_Dirty r) (fb_Deleted b))) tx1)
      else Ok tx1
  | Err e => Err e
  | Fuel => Fuel
  end.

Definition wrap_res {A} (r : res A) (ctx : string) : res A :=
  match r with
  | Ok a => Ok a
  | Err e => Err (Wrap e ctx)
  | Fuel => Fuel
  end.

Definition stepSyncBook (tx : DB) (b : SyncFragBook) : res DB :=
  match sql_query_row (fun r => b_UUID r = fb_UUID b) (books tx) with
  | None => wrap_res (mergeBook tx b modeInsert) "resolving book"
  | Some _ => wrap_res (mergeBook tx b modeUpdate) "resolving book"
  end.

Definition fullSyncBook (tx : DB) (b : SyncFragBook) : res DB :=
  match sql_query_row (fun r => b_UUID r = fb_UUID b) (books tx) with
  | None => wrap_res (mergeBook tx b modeInsert) "resolving book"
  | Some local =>
      if decide (fb_USN b > b_USN local) then
        wrap_res (mergeBook tx b modeUpdate) "resolving book"
      else Ok tx
  end.

(** ** Note merge *)

(** The two [UPDATE notes SET ..] statements of [mergeNote]. *)
Definition overwrite_note (s : SyncFragNote) (r : Note) : Note :=
  mkNote (n_UUID r) (fn_BookUUID s) (fn_Body s) (n_AddedOn r) (fn_EditedOn s)
         (fn_USN s) (fn_Public s) (fn_Deleted s) (n_Dirty r).

Definition overwrite_note_clean (s : SyncFragNote) (r : Note) : Note :=
  mkNote (n_UUID r) (fn_BookUUID s) (fn_Body s) (n_AddedOn r) (fn_EditedOn s)
         (fn_USN s) (fn_Public s) (fn_Deleted s) false.

Definition mergeNote (tx : DB) (serverNote : SyncFragNote) (localNote : Note) : res DB :=
  match sql_query_row (fun r => b_UUID r = n_BookUUID localNote) (books tx) with
  | None => Err (Wrap ErrNoRows "checking if local book is deleted")
  | Some book =>
      if b_Deleted book then Ok tx
      else if n_Deleted localNote then
        Ok (set_notes (sql_update (fun r => n_UUID r = fn_UUID serverNote)
              (overwrite_note_clean serverNote)) tx)
      else
        Ok (set_notes (sql_update (fun r => n_UUID r = fn_UUID serverNote)
              (overwrite_note serverNote)) tx)
  end.

(** [Scan(&localNote.USN, &localNote.BookUUID, &localNote.Dirty,
    &localNote.Deleted)] into a zero [core.Note]. *)
Definition scan_localNote (r : Note) : Note :=
  mkNote "" (n_BookUUID r) "" 0 0 (n_USN r) false (n_Deleted r) (n_Dirty r).

Definition note_of_frag (n : SyncFragNote) : Note :=
  NewNote (fn_UUID n) (fn_BookUUID n) (fn_Body n) (fn_AddedOn n) (fn_EditedOn n)
          (fn_USN n) (fn_Public n) (fn_Deleted n) false.

Definition stepSyncNote (tx : DB) (n : SyncFragNote) : res DB :=
  match sql_query_row (fun r => n_UUID r = fn_UUID n) (notes tx) with
  | None => Ok (Note_Insert (note_of_frag n) tx)
  | Some r => wrap_res (mergeNote tx n (scan_localNote r)) "merging local note"
  end.

Definition fullSyncNote (tx : DB) (n : SyncFragNote) : res DB :=
  match sql_query_row (fun r => n_UUID r = fn_UUID n) (notes tx) with
  | None => Ok (Note_Insert (note_of_frag n) tx)
  | Some r =>
      let localNote := scan_localNote r in
      if decide (fn_USN n > n_USN localNote) then
        wrap_res (mergeNote tx n localNote) "merging local note"
      else Ok tx
  end.

(** ** Applying server deletions *)

Definition syncDeleteNote (tx : DB) (noteUUID : string) : DB :=
  match sql_query_row (fun r => n_UUID r = noteUUID) (notes tx) with
  | None => tx
  | Some r =>
      if negb (n_Dirty r) then
        set_notes (sql_delete (fun r => n_UUID r = noteUUID)) tx
      else tx
  end.

Definition checkNotesPristine (tx : DB) (bookUUID : string) : bool :=
  let count := sql_count (fun r => n_BookUUID r = bookUUID /\ n_Dirty r = true) (notes tx) in
  if decide (count > 0) then false else true.

Definition syncDeleteBook (tx : DB) (bookUUID : string) : DB :=
  match sql_query_row (fun r => b_UUID r = bookUUID) (books tx) with
  | None => tx
  | Some r =>
      if b_Dirty r then tx
      else
        let ok := checkNotesPristine tx bookUUID in
        if negb ok then
          set_books (sql_update (fun r => b_UUID r = bookUUID)
            (fun r => mkBook (b_UUID r) (b_Label r) (b_USN r) true (b_Deleted r))) tx
        else
          let tx1 := set_notes (sql_delete (fun r => n_BookUUID r = bookUUID)) tx in
          set_books (sql_delete (fun r => b_UUID r = bookUUID)) tx1
  end.

(** ** The sync list *)

(** [syncList]: the Go maps are finite maps keyed by uuid; the two
    [map[string]bool] of expunged uuids only ever hold [true] and are read
    by key presence, so they are finite sets. *)
Record syncList : Type := mkSyncList {
  sl_Notes : gmap string SyncFragNote;
  sl_Books : gmap string SyncFragBook;
  sl_ExpungedNotes : gset string;
  sl_ExpungedBooks : gset string;
  sl_MaxUSN : Z;
  sl_MaxCurrentTime : Z
}.


Definition sl_empty : syncList := mkSyncList ∅ ∅ ∅ ∅ 0 0.

Definition checkNoteInList (uuid : string) (list : syncList) : bool :=
  if decide (is_Some (sl_Notes list !! uuid)) then true
  else if decide (uuid ∈ sl_ExpungedNotes list) then true
  else false.

Definition checkBookInList (uuid : string) (list : syncList) : bool :=
  if decide (is_Some (sl_Books list !! uuid)) then true
  else if decide (uuid ∈ sl_ExpungedBooks list) then true
  else false.

(** ** Local-state cleanup (full sync) *)

(** The row set of [SELECT uuid, usn, dirty FROM notes] is taken when the
    loop starts; each row is scanned into a zero [core.Note]. *)
Definition scan_cleanNote (r : Note) : Note :=
  mkNote (n_UUID r) "" "" 0 0 (n_USN r) false false (n_Dirty r).

Definition scan_cleanBook (r : Book) : Book :=
  mkBook (b_UUID r) "" (b_USN r) (b_Dirty r) false.

Definition cleanLocalNotes_body (fullList : syncList) (tx : DB) (r : Note) : DB :=
  let note := scan_cleanNote r in
  let ok := checkNoteInList (n_UUID note) fullList in
  if negb ok && (negb (n_Dirty note) || negb (bool_decide (n_USN note = 0)))
  then Note_Expunge note tx
  else tx.

Definition cleanLocalNotes (tx : DB) (fullList : syncList) : DB :=
  foldl (cleanLocalNotes_body fullList) tx (notes tx).

Definition cleanLocalBooks_body (fullList : syncList) (tx : DB) (r : Book) : DB :=
  let book := scan_cleanBook r in
  let ok := checkBookInList (b_UUID book) fullList in
  if negb ok && (negb (b_Dirty book) || negb (bool_decide (b_USN book = 0)))
  then Book_Expunge book tx
  else tx.

Definition cleanLocalBooks (tx : DB) (fullList : syncList) : DB :=
  foldl (cleanLocalBooks_body fullList) tx (books tx).

(** ** 64-bit arithmetic *)

Definition wrap64 (z : Z) : Z := (z + 2 ^ 63) mod 2 ^ 64 - 2 ^ 63.

(** Go's [a + b] on [int]. *)
Definition add64 (a b : Z) : Z := wrap64 (a + b).

(** ** The remote client and the command's context *)

(** Requests sent to the server, in the order they are issued. *)
Inductive Request : Type :=
| ReqGetSyncState
| ReqGetSyncFragment (afterUSN : Z)
| ReqCreateBook (label : string)
| ReqUpdateBook (label uuid : string)
| ReqDeleteBook (uuid : string)
| ReqCreateNote (bookUUID body : string)
| ReqUpdateNote (uuid bookUUID body : string) (public : bool)
| ReqDeleteNote (uuid : string).

Global Instance Request_eq_dec : EqDecision Request.
Proof. solve_decision. Defined.

(** Package [client], [crypt.AesGcmDecrypt], [migrate.Run] and the database
    engine are not among the sources: they are the parameters of the
    development.  A server call maps the server's state to a response
    ([None]: the call failed) and the server's next state.  [migrate_Run]
    stands for [migrate.Run(ctx, migrate.RemoteSequence, migrate.RemoteMode)]:
    it runs before the sync transaction is opened, in transactions of its
    own, and may change the committed store.  [dirtyCount_err] and
    [Commit_err] are the engine's answers to the two statements whose result
    the command does not check: the error, if any, of the [Scan] of the count
    of dirty rows in [sendChanges] and of [tx.Commit()] in [newRun], in the
    state the environment is in at that point. *)
Record Client (Srv : Type) : Type := mkClient {
  GetSyncState : Srv -> option SyncState * Srv;
  GetSyncFragment : Z -> Srv -> option SyncFragment * Srv;
  CreateBook : string -> Srv -> option (string * Z) * Srv;
  UpdateBook : string -> string -> Srv -> option Z * Srv;
  DeleteBook : string -> Srv -> option Z * Srv;
  CreateNote : string -> string -> Srv -> option (string * Z) * Srv;
  UpdateNote : string -> string -> string -> bool -> Srv -> option (string * Z) * Srv;
  DeleteNote : string -> Srv -> option Z * Srv;
  AesGcmDecrypt : string -> string -> option string;
  migrate_Run : Srv -> DB -> option error * (Srv * DB);
  dirtyCount_err : Srv -> option error;
  Commit_err : Srv -> option error
}.
Arguments GetSyncState {Srv} _ _.
Arguments GetSyncFragment {Srv} _ _ _.
Arguments CreateBook {Srv} _ _ _.
Arguments UpdateBook {Srv} _ _ _ _.
Arguments DeleteBook {Srv} _ _ _.
Arguments CreateNote {Srv} _ _ _ _.
Arguments UpdateNote {Srv} _ _ _ _ _ _.
Arguments DeleteNote {Srv} _ _ _.
Arguments AesGcmDecrypt {Srv} _ _ _.
Arguments migrate_Run {Srv} _ _ _.
Arguments dirtyCount_err {Srv} _ _.
Arguments Commit_err {Srv} _ _.

(** [infra.DnoteCtx], with the fields the command reads. *)
Record DnoteCtx : Type := mkCtx {
  SessionKey : string;
  CipherKey : option string
}.

(** The state the command runs in: the server, the requests sent so far,
    the store as committed and the working copy of the open transaction. *)
Record World (Srv : Type) : Type := mkWorld {
  w_srv : Srv;
  w_calls : list Request;
  w_db : DB;
  w_tx : DB
}.
Arguments mkWorld {Srv} _ _ _ _.
Arguments w_srv {Srv} _.
Arguments w_calls {Srv} _.
Arguments w_db {Srv} _.
Arguments w_tx {Srv} _.

(** Computations of the command: state passing over [World], with errors.
    An error leaves the state as it is at the point of failure. *)
Definition M (Srv A : Type) : Type := World Srv -> res A * World Srv.

Global Instance M_ret {Srv} : MRet (M Srv) := fun A a w => (Ok a, w).

Global Instance M_bind {Srv} : MBind (M Srv) := fun A B k m w =>
  match m w with
  | (Ok a, w') => k a w'
  | (Err e, w') => (Err e, w')
  | (Fuel, w') => (Fuel, w')
  end.

Definition fail {Srv A} (e : error) : M Srv A := fun w => (Err e, w).

(** [if err != nil { return errors.Wrap(err, ctx) }] *)
Definition wrapM {Srv A} (m : M Srv A) (ctx : string) : M Srv A :=
  fun w =>
    match m w with
    | (Err e, w') => (Err (Wrap e ctx), w')
    | r => r
    end.

(** Statements on the open transaction. *)
Definition tx_get {Srv} : M Srv DB := fun w => (Ok (w_tx w), w).

Definition tx_exec {Srv} (f : DB -> DB) : M Srv unit :=
  fun w => (Ok tt, mkWorld (w_srv w) (w_calls w) (w_db w) (f (w_tx w))).

Definition tx_try {Srv} (f : DB -> res DB) : M Srv unit :=
  fun w =>
    match f (w_tx w) with
    | Ok tx' => (Ok tt, mkWorld (w_srv w) (w_calls w) (w_db w) tx')
    | Err e => (Err e, w)
    | Fuel => (Fuel, w)
    end.

Definition tx_read {Srv A} (f : DB -> res A) : M Srv A :=
  fun w => (f (w_tx w), w).

(** [ctx.DB.Begin()] and [tx.Rollback()].  The command drops the result of
    [tx.Rollback()], on paths that already return an error; the working
    copy is discarded when the command returns, rolled back or not. *)
Definition Begin {Srv} : M Srv unit :=
  fun w => (Ok tt, mkWorld (w_srv w) (w_calls w) (w_db w) (w_db w)).

Definition Rollback {Srv} : M Srv unit :=
  fun w => (Ok tt, mkWorld (w_srv w) (w_calls w) (w_db w) (w_db w)).

(** A call used as a statement, [f(..)] with its error dropped: the call
    has its effects and the command goes on whatever the call returned. *)
Definition unchecked {Srv A} (m : M Srv A) : M Srv unit :=
  fun w => (Ok tt, (m w).2).

(** A server call: the request is logged, the server answers and moves on. *)
Definition call {Srv A} (req : Request) (op : string)
    (f : Srv -> option A * Srv) : M Srv A :=
  fun w =>
    let (r, s') := f (w_srv w) in
    let w' := mkWorld s' (w_calls w ++ [req]) (w_db w) (w_tx w) in
    match r with
    | Some a => (Ok a, w')
    | None => (Err (ErrRemote op), w')
    end.

(** [for _, x := range xs { if err := f(x); err != nil { return err } }] *)
Fixpoint forM_ {Srv A} (xs : list A) (f : A -> M Srv unit) : M Srv unit :=
  match xs with
  | [] => mret tt
  | x :: xs' => f x;; forM_ xs' f
  end.

(** A loop carrying an accumulator. *)
Fixpoint foldM {Srv A B} (f : B -> A -> M Srv B) (acc : B) (xs : list A) : M Srv B :=
  match xs with
  | [] => mret acc
  | x :: xs' => acc' ← f acc x; foldM f acc' xs'
  end.

(** ** The engine *)

Section Engine.
Context {Srv : Type} (cl : Client Srv) (ctx : DnoteCtx).

(** [ctx.CipherKey] as passed to [crypt.AesGcmDecrypt]; a nil slice is
    the empty key. *)
Definition cipherKey : string := default "" (CipherKey ctx).

(** *** Sync-list assembler *)

(** [for _, note := range fragment.Notes] of [processFragments] *)
Fixpoint processNotes (ns : list SyncFragNote) (notes : gmap string SyncFragNote)
    : res (gmap string SyncFragNote) :=
  match ns with
  | [] => Ok notes
  | note :: rest =>
      match AesGcmDecrypt cl cipherKey (fn_Body note) with
      | None => Err (Wrap ErrDecrypt ("decrypting body for note " +:+ fn_UUID note))
      | Some bodyDec =>
          let note' := mkFragNote (fn_UUID note) (fn_BookUUID note) (fn_USN note)
                         (fn_AddedOn note) (fn_EditedOn note) bodyDec
                         (fn_Public note) (fn_Deleted note) in
          processNotes rest (<[fn_UUID note := note']> notes)
      end
  end.

(** [for _, book := range fragment.Books] of [processFragments] *)
Fixpoint processBooks (bs : list SyncFragBook) (books : gmap string SyncFragBook)
    : res (gmap string SyncFragBook) :=
  match bs with
  | [] => Ok books
  | book :: rest =>
      match AesGcmDecrypt cl cipherKey (fb_Label book) with
      | None => Err (Wrap ErrDecrypt ("decrypting label for book " +:+ fb_UUID book))
      | Some labelDec =>
          let book' := mkFragBook (fb_UUID book) (fb_USN book) labelDec (fb_Deleted book) in
          processBooks rest (<[fb_UUID book := book']> books)
      end
  end.

(** [for _, uuid := range .. { expunged[uuid] = true }] *)
Definition processExpunged (uuids : list string) (expunged : gset string) : gset string :=
  foldl (fun acc uuid => {[uuid]} ∪ acc) expunged uuids.

(** The outer loop of [processFragments], from the accumulators [acc]. *)
Fixpoint processFragments_from (fragments : list SyncFragment) (acc : syncList)
    : res syncList :=
  match fragments with
  | [] => Ok acc
  | fragment :: rest =>
      match processNotes (Notes fragment) (sl_Notes acc) with
      | Ok notes =>
          match processBooks (Books fragment) (sl_Books acc) with
          | Ok books =>
              let expungedBooks := processExpunged (ExpungedBooks fragment) (sl_ExpungedBooks acc) in
              let expungedNotes := processExpunged (ExpungedNotes fragment) (sl_ExpungedNotes acc) in
              let maxUSN :=
                if decide (FragMaxUSN fragment > sl_MaxUSN acc)
                then FragMaxUSN fragment else sl_MaxUSN acc in
              let maxCurrentTime :=
                if decide (CurrentTime fragment > sl_MaxCurrentTime acc)
                then CurrentTime fragment else sl_MaxCurrentTime acc in
              processFragments_from rest
                (mkSyncList notes books expungedNotes expungedBooks maxUSN maxCurrentTime)
          | Err e => Err e
          | Fuel => Fuel
          end
      | Err e => Err e
      | Fuel => Fuel
      end
  end.

Definition processFragments (fragments : list SyncFragment) : res syncList :=
  processFragments_from fragments sl_empty.

(** The loop of [getSyncFragments], with at most [fuel] round trips. *)
Fixpoint getSyncFragments_loop (fuel : nat) (buf : list SyncFragment) (nextAfterUSN : Z)
    : M Srv (list SyncFragment) :=
  match fuel with
  | O => fun w => (Fuel, w)
  | S fuel' =>
      frag ← wrapM (call (ReqGetSyncFragment nextAfterUSN) "GetSyncFragment"
                      (GetSyncFragment cl nextAfterUSN)) "getting sync fragment";
      let buf' := buf ++ [frag] in
      let nextAfterUSN' := FragMaxUSN frag in
      if decide (nextAfterUSN' = 0) then mret buf'
      else getSyncFragments_loop fuel' buf' nextAfterUSN'
  end.

Definition getSyncFragments (fuel : nat) (afterUSN : Z) : M Srv (list SyncFragment) :=
  getSyncFragments_loop fuel [] afterUSN.

Definition getSyncList (fuel : nat) (afterUSN : Z) : M Srv syncList :=
  fragments ← wrapM (getSyncFragments fuel afterUSN) "getting sync fragments";
  wrapM (fun w => (processFragments fragments, w)) "making sync list".

(** *** Pull: full and incremental sync *)

(** The four merge loops shared by [fullSync] and [stepSync]; a Go map is
    ranged over in the order of [map_to_list] and [elements]. *)
Definition fullSync (fuel : nat) : M Srv unit :=
  list ← wrapM (getSyncList fuel 0) "getting sync list";
  tx_exec (fun tx => cleanLocalNotes tx list);;
  tx_exec (fun tx => cleanLocalBooks tx list);;
  forM_ (map_to_list (sl_Notes list)).*2
    (fun note => wrapM (tx_try (fun tx => fullSyncNote tx note)) "merging note");;
  forM_ (map_to_list (sl_Books list)).*2
    (fun book => wrapM (tx_try (fun tx => fullSyncBook tx book)) "merging book");;
  forM_ (elements (sl_ExpungedNotes list))
    (fun noteUUID => tx_exec (fun tx => syncDeleteNote tx noteUUID));;
  forM_ (elements (sl_ExpungedBooks list))
    (fun bookUUID => tx_exec (fun tx => syncDeleteBook tx bookUUID));;
  tx_exec (fun tx => saveSyncState tx (sl_MaxCurrentTime list) (sl_MaxUSN list)).

Definition stepSync (fuel : nat) (afterUSN : Z) : M Srv unit :=
  list ← wrapM (getSyncList fuel afterUSN) "getting sync list";
  forM_ (map_to_list (sl_Notes list)).*2
    (fun note => wrapM (tx_try (fun tx => stepSyncNote tx note)) "merging note");;
  forM_ (map_to_list (sl_Books list)).*2
    (fun book => wrapM (tx_try (fun tx => stepSyncBook tx book)) "merging book");;
  forM_ (elements (sl_ExpungedNotes list))
    (fun noteUUID => tx_exec (fun tx => syncDeleteNote tx noteUUID));;
  forM_ (elements (sl_ExpungedBooks list))
    (fun bookUUID => tx_exec (fun tx => syncDeleteBook tx bookUUID));;
  tx_exec (fun tx => saveSyncState tx (sl_MaxCurrentTime list) (sl_MaxUSN list)).

(** *** Push *)

(** The tail of the loop bodies of [sendBooks] and [sendNotes]: read
    [last_max_usn], advance it when the response carries the next USN,
    otherwise raise [isBehind]. *)
Definition ackUSN (respUSN : Z) (isBehind : bool) : M Srv bool :=
  lastMaxUSN ← wrapM (tx_read getLastMaxUSN) "getting last max usn";
  if decide (respUSN = add64 lastMaxUSN 1) then
    tx_exec (fun tx => updateLastMaxUSN tx (add64 lastMaxUSN 1));;
    mret isBehind
  else mret true.

(** [rows.Scan(&book.UUID, &book.Label, &book.USN, &book.Deleted)] *)
Definition scan_sendBook (r : Book) : Book :=
  mkBook (b_UUID r) (b_Label r) (b_USN r) false (b_Deleted r).

(** The body of the loop of [sendBooks] on the row [r]. *)
Definition sendBooks_body (isBehind : bool) (r : Book) : M Srv bool :=
  let book := scan_sendBook r in
  if decide (b_USN book = 0) then
    if b_Deleted book then
      tx_exec (Book_Expunge book);;
      mret isBehind
    else
      resp ← wrapM (call (ReqCreateBook (b_Label book)) "CreateBook"
                      (CreateBook cl (b_Label book))) "creating a book";
      tx_exec (set_notes (sql_update (fun n => n_BookUUID n = b_UUID book)
        (fun n => mkNote (n_UUID n) resp.1 (n_Body n) (n_AddedOn n) (n_EditedOn n)
                    (n_USN n) (n_Public n) (n_Deleted n) (n_Dirty n))));;
      let book' := mkBook (b_UUID book) (b_Label book) resp.2 false (b_Deleted book) in
      tx_exec (Book_Update book');;
      tx_exec (Book_UpdateUUID book' resp.1);;
      ackUSN resp.2 isBehind
  else
    if b_Deleted book then
      respUSN ← wrapM (call (ReqDeleteBook (b_UUID book)) "DeleteBook"
                         (DeleteBook cl (b_UUID book))) "deleting a book";
      tx_exec (Book_Expunge book);;
      ackUSN respUSN isBehind
    else
      respUSN ← wrapM (call (ReqUpdateBook (b_Label book) (b_UUID book)) "UpdateBook"
                         (UpdateBook cl (b_Label book) (b_UUID book))) "updating a book";
      let book' := mkBook (b_UUID book) (b_Label book) respUSN false (b_Deleted book) in
      tx_exec (Book_Update book');;
      ackUSN respUSN isBehind.

(** [sendBooks]: the rows of [SELECT .. FROM books WHERE dirty] are taken
    when the loop starts. *)
Definition sendBooks : M Srv bool :=
  tx ← tx_get;
  foldM sendBooks_body false (filter (fun r => b_Dirty r = true) (books tx)).

(** [rows.Scan(&note.UUID, &note.BookUUID, &note.Body, &note.Public,
    &note.Deleted, &note.USN, &note.AddedOn)] *)
Definition scan_sendNote (r : Note) : Note :=
  mkNote (n_UUID r) (n_BookUUID r) (n_Body r) (n_AddedOn r) 0 (n_USN r)
         (n_Public r) (n_Deleted r) false.

Definition with_usn_clean (note : Note) (usn : Z) : Note :=
  mkNote (n_UUID note) (n_BookUUID note) (n_Body note) (n_AddedOn note)
         (n_EditedOn note) usn (n_Public note) (n_Deleted note) false.

(** The body of the loop of [sendNotes] on the row [r]. *)
Definition sendNotes_body (isBehind : bool) (r : Note) : M Srv bool :=
  let note := scan_sendNote r in
  if decide (n_USN note = 0) then
    if n_Deleted note then
      tx_exec (Note_Expunge note);;
      mret isBehind
    else
      resp ← wrapM (call (ReqCreateNote (n_BookUUID note) (n_Body note)) "CreateNote"
                      (CreateNote cl (n_BookUUID note) (n_Body note))) "creating a note";
      let note' := with_usn_clean note resp.2 in
      tx_exec (Note_Update note');;
      tx_exec (Note_UpdateUUID note' resp.1);;
      ackUSN resp.2 isBehind
  else
    if n_Deleted note then
      respUSN ← wrapM (call (ReqDeleteNote (n_UUID note)) "DeleteNote"
                         (DeleteNote cl (n_UUID note))) "deleting a note";
      tx_exec (Note_Expunge note);;
      ackUSN respUSN isBehind
    else
      resp ← wrapM (call (ReqUpdateNote (n_UUID note) (n_BookUUID note) (n_Body note)
                            (n_Public note)) "UpdateNote"
                      (UpdateNote cl (n_UUID note) (n_BookUUID note) (n_Body note)
                         (n_Public note))) "updating a note";
      let note' := with_usn_clean note resp.2 in
      tx_exec (Note_Update note');;
      ackUSN resp.2 isBehind.

Definition sendNotes : M Srv bool :=
  tx ← tx_get;
  foldM sendNotes_body false (filter (fun r => n_Dirty r = true) (notes tx)).

(** [tx.QueryRow("SELECT (SELECT count(*) FROM notes WHERE dirty) +
    (SELECT count(*) FROM books WHERE dirty)").Scan(&delta)] *)
Definition countDirty : M Srv Z :=
  fun w =>
    match dirtyCount_err cl (w_srv w) with
    | Some e => (Err e, w)
    | None =>
        (Ok (sql_count (fun n => n_Dirty n = true) (notes (w_tx w)) +
             sql_count (fun b => b_Dirty b = true) (books (w_tx w))), w)
    end.

(** [sendChanges]; the error of the count is overwritten by the next
    assignment to [err] without being read, and [delta] is only printed. *)
Definition sendChanges : M Srv bool :=
  unchecked countDirty;;
  behind1 ← wrapM sendBooks "sending books";
  behind2 ← wrapM sendNotes "sending notes";
  mret (behind1 || behind2).

(** *** The orchestrator *)

(** [migrate.Run(ctx, migrate.RemoteSequence, migrate.RemoteMode)], on the
    committed store. *)
Definition runRemoteMigrations : M Srv unit :=
  fun w =>
    let '(e, (s', db')) := migrate_Run cl (w_srv w) (w_db w) in
    let w' := mkWorld s' (w_calls w) db' (w_tx w) in
    match e with
    | None => (Ok tt, w')
    | Some e => (Err e, w')
    end.

(** [if err != nil { tx.Rollback(); return errors.Wrap(err, ctx) }] *)
Definition orRollback {A} (m : M Srv A) (ctx : string) : M Srv A :=
  fun w =>
    match m w with
    | (Err e, w') => (Err (Wrap e ctx), (Rollback w').2)
    | r => r
    end.

(** The pull decision of [newRun]: the chain of [if] that selects
    [fullSync], [stepSync] or neither. *)
Definition pullPhase (isFullSync : bool) (fuel : nat) (syncState : SyncState)
    (lastSyncAt lastMaxUSN : Z) : M Srv unit :=
  if isFullSync || bool_decide (lastSyncAt < ss_FullSyncBefore syncState) then
    fullSync fuel
  else if bool_decide (lastMaxUSN ≠ ss_MaxUSN syncState) then
    stepSync fuel lastMaxUSN
  else
    tx_exec (fun tx => updateLastSyncAt tx (ss_CurrentTime syncState)).

(** The follow-up step sync of [newRun], run when the push found the
    client behind. *)
Definition followUp (fuel : nat) (isBehind : bool) : M Srv unit :=
  if isBehind then
    updatedLastMaxUSN ← orRollback (tx_read getLastMaxUSN) "getting the new last max_usn";
    orRollback (stepSync fuel updatedLastMaxUSN) "performing the follow-up step sync"
  else mret tt.

(** [tx.Commit()]: the working copy becomes the committed store, unless
    the engine reports a failure, which leaves the committed store as it
    was. *)
Definition Commit : M Srv unit :=
  fun w =>
    match Commit_err cl (w_srv w) with
    | Some e => (Err e, mkWorld (w_srv w) (w_calls w) (w_db w) (w_db w))
    | None => (Ok tt, mkWorld (w_srv w) (w_calls w) (w_tx w) (w_tx w))
    end.

(** The part of [newRun] between [ctx.DB.Begin()] and [tx.Commit()],
    both included.  The last statement is [tx.Commit()] with its result
    dropped. *)
Definition syncTransaction (isFullSync : bool) (fuel : nat) : M Srv unit :=
  Begin;;
  syncState ← wrapM (call ReqGetSyncState "GetSyncState" (GetSyncState cl))
                "getting the sync state from the server";
  lastSyncAt ← wrapM (tx_read getLastSyncAt) "getting the last sync time";
  lastMaxUSN ← wrapM (tx_read getLastMaxUSN) "getting the last max_usn";
  orRollback (pullPhase isFullSync fuel syncState lastSyncAt lastMaxUSN)
    "syncing changes from the server";;
  isBehind ← orRollback sendChanges "sending changes";
  followUp fuel isBehind;;
  unchecked Commit.

(** [newRun]; [isFullSync] is the [--full] flag.  The update check that
    follows the commit only logs and is left out. *)
Definition newRun (isFullSync : bool) (fuel : nat) : M Srv unit :=
  if bool_decide (SessionKey ctx = "") || bool_decide (CipherKey ctx = None) then
    fail (ErrNew "not logged in")
  else
    wrapM runRemoteMigrations "running remote migrations";;
    syncTransaction isFullSync fuel.

End Engine.

(** ** Concrete stores and server answers used by the examples *)

Definition ex_book_js : Book := mkBook "B1" "js" 5 false false.
Definition ex_note_local : Note := mkNote "N1" "B1" "local body" 3 4 7 false false true.
Definition ex_note_server : SyncFragNote :=
  mkFragNote "N1" "B1" 9 5 6 "server body" true false.
Definition ex_tx_merge : DB := mkDB [ex_book_js] [ex_note_local] ∅.

(** The reading of "all of its fields are overwritten from the server":
    every field of the local row that the server note carries holds the
    server's value. *)
Definition all_fields_from_server (s : SyncFragNote) (r : Note) : Prop :=
  n_UUID r = fn_UUID s /\ n_BookUUID r = fn_BookUUID s /\ n_Body r = fn_Body s /\
  n_AddedOn r = fn_AddedOn s /\ n_EditedOn r = fn_EditedOn s /\ n_USN r = fn_USN s /\
  n_Public r = fn_Public s /\ n_Deleted r = fn_Deleted s.

(** Scenario S3: a clean book holding a dirty note. *)
Definition ex_tx_s3 : DB :=
  mkDB [mkBook "B1" "js" 5 false false]
       [mkNote "N1" "B1" "draft" 1 0 0 false false true] ∅.

(** Stores for label collisions: three live books, and a live book next to
    a tombstone. *)
Definition ex_tx_labels : DB :=
  mkDB [mkBook "L1" "X" 0 true false; mkBook "L2" "X (2)" 3 false false;
        mkBook "L3" "X (3)" 4 false false] [] ∅.

Definition ex_tx_tombstone : DB :=
  mkDB [mkBook "L1" "X" 0 true false; mkBook "L2" "X (2)" 3 true true] [] ∅.

(** The claim's words: the number of live (non-deleted) books that hold a
    label. *)
Definition live_holders (tx : DB) (label : string) : Z :=
  sql_count (fun b => b_Label b = label /\ b_Deleted b = false) (books tx).

(** A candidate is taken when some book row, deleted or not, holds it. *)
Definition taken (tx : DB) (label : string) (k : nat) : Prop :=
  exists b, b ∈ books tx /\ b_Label b = Sprintf_label label k.

(** ** A scripted server for the examples

    The server's state is a script: the answer to [GetSyncState], the
    answers to the successive [GetSyncFragment] calls, and the USNs it hands
    out to the successive writes.  Decryption is the identity, failing on
    the payload "corrupt"; the remote migrations do nothing and the database
    engine reports no failure. *)
Record Script : Type := mkScript {
  sc_state : option SyncState;
  sc_frags : list (option SyncFragment);
  sc_usns : list Z
}.

Definition script_fragment (s : Script) : option SyncFragment * Script :=
  match sc_frags s with
  | [] => (None, s)
  | f :: rest => (f, mkScript (sc_state s) rest (sc_usns s))
  end.

Definition script_usn (s : Script) : option Z * Script :=
  match sc_usns s with
  | [] => (None, s)
  | u :: rest => (Some u, mkScript (sc_state s) (sc_frags s) rest)
  end.

Definition script_create (uuid : string) (s : Script) : option (string * Z) * Script :=
  match script_usn s with
  | (Some u, s') => (Some (uuid, u), s')
  | (None, s') => (None, s')
  end.

Definition ex_client : Client Script :=
  mkClient Script
    (fun s => (sc_state s, s))
    (fun _ s => script_fragment s)
    (fun label s => script_create ("S-" +:+ label) s)
    (fun _ _ s => script_usn s)
    (fun _ s => script_usn s)
    (fun _ _ s => script_create "S-note" s)
    (fun uuid _ _ _ s => script_create uuid s)
    (fun _ s => script_usn s)
    (fun _ data => if decide (data = "corrupt") then None else Some data)
    (fun s db => (None, (s, db)))
    (fun _ => None)
    (fun _ => None).

Definition ex_ctx : DnoteCtx := mkCtx "session" (Some "key").

Definition ex_world (s : Script) (db : DB) : World Script := mkWorld s [] db db.


(** An empty final fragment. *)
Definition ex_frag_end : SyncFragment := mkFragment 0 100 [] [] [] [].


(** The [afterUSN] of the call that follows the fragments [frags], the
    first call being made with [a]. *)
Definition nextAfterUSN (a : Z) (frags : list SyncFragment) : Z :=
  foldl (fun _ f => FragMaxUSN f) a frags.

(** The world after a [GetSyncFragment] round trip answered in state [s']. *)
Definition after_call {Srv} (w : World Srv) (a : Z) (s' : Srv) : World Srv :=
  mkWorld s' (w_calls w ++ [ReqGetSyncFragment a]) (w_db w) (w_tx w).

(** Scenarios S1 and S2: a new local book, [last_max_usn] at 41. *)
Definition ex_tx_push : DB :=
  mkDB [mkBook "L1" "js" 0 true false] []
       (<[SystemLastMaxUSN := 41]> (<[SystemLastSyncAt := 1000]> ∅)).

(** What the loop tail of the push leaves in [last_max_usn] and reports as
    [isBehind], for a stored value [v] and a response [respUSN]. *)
Definition acked_usn (v respUSN : Z) : Z :=
  if decide (respUSN = add64 v 1) then add64 v 1 else v.

Definition acked_behind (v respUSN : Z) (isBehind : bool) : bool :=
  if decide (respUSN = add64 v 1) then isBehind else true.

(** ** Frames of a computation *)

(** [w'] comes after [w] with the committed store untouched: requests may
    have been sent, and only the transaction's working copy may differ. *)
Definition extends {Srv} (w w' : World Srv) : Prop :=
  w_db w' = w_db w /\ exists l, w_calls w' = w_calls w ++ l.

(** A computation that writes to the store only through the open
    transaction, whatever its outcome. *)
Definition tx_only {Srv A} (m : M Srv A) : Prop :=
  forall w r w', m w = (r, w') -> extends w w'.

(** A computation whose first request to the server is [req]. *)
Definition starts_with {Srv A} (req : Request) (m : M Srv A) : Prop :=
  forall w r w', m w = (r, w') ->
    w_db w' = w_db w /\ exists l, w_calls w' = w_calls w ++ req :: l.

(** The pull decision in the words of the specification. *)
Inductive PullDecision : Type :=
| FullSync
| IncrementalSync (afterUSN : Z)
| NoPull (newLastSyncAt : Z).

Definition spec_pull_decision (fullFlag : bool) (last_sync_at last_max_usn : Z)
    (st : SyncState) : PullDecision :=
  if fullFlag then FullSync
  else if decide (last_sync_at < ss_FullSyncBefore st) then FullSync
  else if decide (last_max_usn <> ss_MaxUSN st) then IncrementalSync last_max_usn
  else NoPull (ss_CurrentTime st).

(** A store whose sync state matches the server's: nothing to pull. *)
Definition ex_state_same : SyncState := mkSyncState 500 41 2000.

(** The outcome of a transaction: when it returns an error the committed
    store is as it was; when it returns normally the committed store is the
    working copy if the engine accepted the commit, and as it was if the
    engine refused it. *)
Definition atomic {Srv A} (cl : Client Srv) (m : M Srv A) : Prop :=
  forall w r w', m w = (r, w') ->
    match r with
    | Ok _ =>
        match Commit_err cl (w_srv w') with
        | None => w_db w' = w_tx w'
        | Some _ => w_db w' = w_db w
        end
    | Err _ => w_db w' = w_db w
    | Fuel => w_db w' = w_db w
    end.

(** The committed store when the sync transaction is opened: the store the
    remote migrations leave when the command gets that far. *)
Definition store_at_begin {Srv} (cl : Client Srv) (ctx : DnoteCtx) (w : World Srv) : DB :=
  if bool_decide (SessionKey ctx = "") || bool_decide (CipherKey ctx = None)
  then w_db w
  else (migrate_Run cl (w_srv w) (w_db w)).2.2.

(** Scenario S5: the server sends a book and a note whose body does not
    decrypt; the pull is a step sync from USN 41. *)
Definition ex_frag_corrupt : SyncFragment :=
  mkFragment 0 100
    [mkFragNote "N7" "B1" 43 5 6 "corrupt" false false]
    [] [] [].

Definition ex_script_s5 : Script :=
  mkScript (Some (mkSyncState 500 43 2000)) [Some ex_frag_corrupt] [].

(** A server that lets the local book through with USN 44 while
    [last_max_usn] is 41, then answers the follow-up pull with a failure. *)
Definition ex_script_behind : Script :=
  mkScript (Some (mkSyncState 500 41 2000)) [None] [44].

(** The largest [FragMaxUSN] among fragments, 0 when none is positive. *)
Definition max_FragMaxUSN (fragments : list SyncFragment) : Z :=
  foldl Z.max 0 (FragMaxUSN <$> fragments).

(** A clean store that has synced up to USN 41. *)
Definition ex_tx_synced : DB :=
  mkDB [mkBook "B1" "js" 40 false false] []
       (<[SystemLastMaxUSN := 41]> (<[SystemLastSyncAt := 1000]> ∅)).

(** A server whose list is empty: a full sync receives one final, empty
    fragment. *)
Definition ex_script_empty : Script :=
  mkScript (Some (mkSyncState 500 41 2000)) [Some ex_frag_end] [].

(** A local row is accounted for by a sync list when its uuid is in the
    list, live or expunged, or when the row is new: dirty with usn 0. *)
Definition note_accounted (list : syncList) (n : Note) : Prop :=
  checkNoteInList (n_UUID n) list = true \/ (n_Dirty n = true /\ n_USN n = 0).

Definition book_accounted (list : syncList) (b : Book) : Prop :=
  checkBookInList (b_UUID b) list = true \/ (b_Dirty b = true /\ b_USN b = 0).

(** Every row of the working copy is accounted for. *)
Definition all_accounted (list : syncList) (tx : DB) : Prop :=
  (forall n, n ∈ notes tx -> note_accounted list n) /\
  (forall b, b ∈ books tx -> book_accounted list b).

(** The keys of a sync list are the uuids of the entries they map to. *)
Definition keyed (list : syncList) : Prop :=
  (forall k v, sl_Notes list !! k = Some v -> fn_UUID v = k) /\
  (forall k v, sl_Books list !! k = Some v -> fb_UUID v = k).

(** A store with an orphan, a new local note and a note the server knows,
    and the list of a server that knows note "N1" only. *)
Definition ex_tx_orphans : DB :=
  mkDB [mkBook "B1" "js" 5 false false]
       [mkNote "N1" "B1" "known" 1 0 7 false false false;
        mkNote "N2" "B1" "orphan" 1 0 8 false false false;
        mkNote "N3" "B1" "new" 1 0 0 false false true] ∅.

Definition ex_list_n1 : syncList :=
  mkSyncList (<["N1" := ex_note_server]> ∅) ∅ ∅ ∅ 9 100.

(** A database engine that refuses every commit, next to the scripted
    server. *)
Definition ex_client_locked : Client Script :=
  mkClient Script
    (GetSyncState ex_client) (GetSyncFragment ex_client) (CreateBook ex_client)
    (UpdateBook ex_client) (DeleteBook ex_client) (CreateNote ex_client)
    (UpdateNote ex_client) (DeleteNote ex_client) (AesGcmDecrypt ex_client)
    (migrate_Run ex_client)
    (fun _ => Some (ErrNew "database is locked"))
    (fun _ => Some (ErrNew "database is locked")).

(** A server at USN 41 that hands out USN 42 to the next write. *)
Definition ex_script_s1 : Script :=
  mkScript (Some (mkSyncState 500 41 2000)) [] [42].

(** ** Migrations of [migrate/migrations.go] over the book and note tables *)

(** The loop of [migrateBook] in migration [lm7],
    [for i := 2; ; i++], unrolled at most [n] times from counter [i]: the
    first candidate no book holds is given to the rows with the uuid. *)
Fixpoint migrateBook_loop (n : nat) (tx : DB) (name uuid : string) (i : nat) : res DB :=
  match n with
  | O => Fuel
  | S n' =>
      let candidate := Sprintf_label name i in
      let count := sql_count (fun b => b_Label b = candidate) (books tx) in
      if decide (count = 0) then
        Ok (set_books (sql_update (fun r => b_UUID r = uuid)
              (fun r => mkBook (b_UUID r) candidate (b_USN r) true (b_Deleted r))) tx)
      else migrateBook_loop n' tx name uuid (S i)
  end.

(** [migrateBook] of [lm7]; as for [resolveLabel], one round more than
    there are books is enough. *)
Definition migrateBook (tx : DB) (name : string) : res DB :=
  match sql_query_row (fun b => b_Label b = name) (books tx) with
  | None => Ok tx
  | Some r => migrateBook_loop (S (length (books tx))) tx name (b_UUID r) 2
  end.

(** Migration [lm7], "resolve-conflicts-with-reserved-book-names". *)
Definition lm7_run (tx : DB) : res DB :=
  match migrateBook tx "trash" with
  | Ok tx1 => wrap_res (migrateBook tx1 "conflicts") "migrating conflicts book"
  | Err e => Err (Wrap e "migrating trash book")
  | Fuel => Fuel
  end.

(** An entry of the answer of [client.GetBooks]. *)
Record GetBooksRespItem : Type := mkBookResp {
  gb_UUID : string;
  gb_Label : string
}.

(** The body of the second loop of migration [rm1] on the server book
    [book]. *)
Definition rm1_body (tx : DB) (book : GetBooksRespItem) : res DB :=
  let count := sql_count (fun b => b_Label b = gb_Label book) (books tx) in
  if decide (count = 0) then Ok tx
  else
    match sql_query_row (fun b => b_Label b = gb_Label book) (books tx) with
    | None => Err (Wrap ErrNoRows "scanning the orignal uuid of the book")
    | Some r =>
        let originalUUID := b_UUID r in
        let tx1 := set_books (sql_update (fun b => b_Label b = gb_Label book)
                     (fun b => mkBook (gb_UUID book) (b_Label b) (b_USN b)
                                 (b_Dirty b) (b_Deleted b))) tx in
        Ok (set_notes (sql_update (fun n => n_BookUUID n = originalUUID)
              (fun n => mkNote (n_UUID n) (gb_UUID book) (n_Body n) (n_AddedOn n)
                          (n_EditedOn n) (n_USN n) (n_Public n) (n_Deleted n)
                          (n_Dirty n))) tx1)
    end.

Fixpoint rm1_loop (tx : DB) (resp : list GetBooksRespItem) : res DB :=
  match resp with
  | [] => Ok tx
  | book :: rest =>
      match rm1_body tx book with
      | Ok tx' => rm1_loop tx' rest
      | Err e => Err e
      | Fuel => Fuel
      end
  end.

(** Migration [rm1], "sync-book-uuids-from-server"; [getBooks] stands for
    [client.GetBooks(ctx, sessionKey)], [None] when the call fails.  The
    map [UUIDMap] the source builds is never read. *)
Definition rm1_run (ctx : DnoteCtx) (getBooks : string -> option (list GetBooksRespItem))
    (tx : DB) : res DB :=
  let sessionKey := SessionKey ctx in
  if decide (sessionKey = "") then Err (ErrNew "not logged in")
  else
    match getBooks sessionKey with
    | None => Err (Wrap (ErrRemote "GetBooks") "getting books from the server")
    | Some resp => rm1_loop tx resp
    end.

(** ** Well-formed stores *)

(** Every book uuid, and every book label, is held by one row only. *)
Definition books_unique (tx : DB) : Prop :=
  NoDup (b_UUID <$> books tx) /\ NoDup (b_Label <$> books tx).

(** Every note belongs to a book of the store. *)
Definition notes_owned (tx : DB) : Prop :=
  forall n, n ∈ notes tx -> exists b, b ∈ books tx /\ b_UUID b = n_BookUUID n.

(** ** Reading a sync list back *)

(** A note of a fragment as [processFragments] stores it: the body
    decrypted, [None] when decryption fails. *)
Definition decrypted_note {Srv} (cl : Client Srv) (ctx : DnoteCtx) (n : SyncFragNote)
    : option SyncFragNote :=
  (fun body => mkFragNote (fn_UUID n) (fn_BookUUID n) (fn_USN n) (fn_AddedOn n)
                 (fn_EditedOn n) body (fn_Public n) (fn_Deleted n))
    <$> AesGcmDecrypt cl (cipherKey ctx) (fn_Body n).

Definition decrypted_book {Srv} (cl : Client Srv) (ctx : DnoteCtx) (b : SyncFragBook)
    : option SyncFragBook :=
  (fun label => mkFragBook (fb_UUID b) (fb_USN b) label (fb_Deleted b))
    <$> AesGcmDecrypt cl (cipherKey ctx) (fb_Label b).

(** The last entry of a list that satisfies a predicate. *)
Definition last_with {A} (P : A -> Prop) `{!forall x, Decision (P x)} (l : list A)
    : option A :=
  last (filter P l).

(** ** Further stores for the examples *)

(** A book and a note created and deleted before any push. *)
Definition ex_tx_unsent : DB :=
  mkDB [mkBook "L1" "tmp" 0 true true; mkBook "B1" "js" 5 false false]
       [mkNote "M1" "L1" "" 1 0 0 false true true]
       (<[SystemLastMaxUSN := 41]> (<[SystemLastSyncAt := 1000]> ∅)).

(** A new local book with a note in it. *)
Definition ex_tx_newbook : DB :=
  mkDB [mkBook "L1" "js" 0 true false]
       [mkNote "N1" "L1" "hello" 1 0 7 false false false]
       (<[SystemLastMaxUSN := 41]> (<[SystemLastSyncAt := 1000]> ∅)).

(** Two fragments that both carry note "N1"; the second is final. *)
Definition ex_frag_first : SyncFragment :=
  mkFragment 9 90 [mkFragNote "N1" "B1" 8 5 5 "old body" false false] [] ["N9"] [].

Definition ex_frag_second : SyncFragment :=
  mkFragment 0 100 [ex_note_server] [] [] ["B9"].

(** A store with both reserved labels taken, and "trash (2)" as well. *)
Definition ex_tx_reserved : DB :=
  mkDB [mkBook "T1" "trash" 3 false false; mkBook "T2" "trash (2)" 4 false false;
        mkBook "C1" "conflicts" 0 true false] [] ∅.

(** The uuid [rm1] leaves on a book row: the uuid of the last server book
    with the row's label, the row's own uuid when there is none. *)
Definition rm1_book (resp : list GetBooksRespItem) (r : Book) : Book :=
  match last_with (fun sb => gb_Label sb = b_Label r) resp with
  | Some sb => mkBook (gb_UUID sb) (b_Label r) (b_USN r) (b_Dirty r) (b_Deleted r)
  | None => r
  end.

(** A local book "js" with one note, before its uuid is known to match the
    server's. *)
Definition ex_tx_rm1 : DB :=
  mkDB [mkBook "old-js" "js" 0 false false; mkBook "old-go" "go" 0 false false]
       [mkNote "N1" "old-js" "hello" 1 0 0 false false false] ∅.

(** The largest [CurrentTime] among fragments, 0 when none is positive. *)
Definition max_CurrentTime (fragments : list SyncFragment) : Z :=
  foldl Z.max 0 (CurrentTime <$> fragments).

(** The scripted server with migration [rm1] as the remote sequence; the
    server knows the book "js" under the uuid "srv-js". *)
Definition ex_client_rm1 : Client Script :=
  mkClient Script
    (GetSyncState ex_client) (GetSyncFragment ex_client) (CreateBook ex_client)
    (UpdateBook ex_client) (DeleteBook ex_client) (CreateNote ex_client)
    (UpdateNote ex_client) (DeleteNote ex_client) (AesGcmDecrypt ex_client)
    (fun s db =>
       match rm1_run ex_ctx (fun _ => Some [mkBookResp "srv-js" "js"]) db with
       | Ok db' => (None, (s, db'))
       | Err e => (Some e, (s, db))
       | Fuel => (None, (s, db))
       end)
    (dirtyCount_err ex_client)
    (Commit_err ex_client).

(** * Properties *)

(** ** SQL primitives *)

Section SqlLemmas.
Context {A : Type} (P : A -> Prop) `{Pdec : !forall x, Decision (P x)}.

Lemma sql_update_lookup (f : A -> A) (t : list A) (i : nat) :
  sql_update P f t !! i = (fun r => if decide (P r) then f r else r) <$> (t !! i).
Proof. unfold sql_update. apply list_lookup_fmap. Qed.

Lemma sql_update_length (f : A -> A) (t : list A) :
  length (sql_update P f t) = length t.
Proof. unfold sql_update. apply length_fmap. Qed.

Lemma sql_update_elem (f : A -> A) (t : list A) (r' : A) :
  r' ∈ sql_update P f t <-> exists r, r ∈ t /\ r' = (if decide (P r) then f r else r).
Proof.
  unfold sql_update. rewrite list_elem_of_fmap.
  split; intros (r & H1 & H2); exists r; auto.
Qed.

Lemma sql_delete_elem (t : list A) (r : A) :
  r ∈ sql_delete P t <-> r ∈ t /\ ~ P r.
Proof. unfold sql_delete. rewrite list_elem_of_filter. tauto. Qed.

Lemma sql_count_zero (t : list A) :
  sql_count P t = 0 <-> forall r, r ∈ t -> ~ P r.
Proof.
  unfold sql_count. split.
  - intros Hc r Hr HP.
    assert (Hin : r ∈ filter P t) by (apply list_elem_of_filter; auto).
    destruct (filter P t); [inversion Hin | simpl in Hc; lia].
  - intros Hc. destruct (filter P t) as [|x l] eqn:E; [reflexivity|].
    exfalso. assert (Hin : x ∈ filter P t) by (rewrite E; left).
    apply list_elem_of_filter in Hin as [HP Hx]. exact (Hc x Hx HP).
Qed.

Lemma sql_count_nonneg (t : list A) : 0 <= sql_count P t.
Proof. unfold sql_count. lia. Qed.

Lemma sql_query_row_Some (t : list A) (r : A) :
  sql_query_row P t = Some r -> r ∈ t /\ P r.
Proof.
  unfold sql_query_row. intros Hc.
  assert (Hin : r ∈ filter P t).
  { destruct (filter P t); simpl in Hc; [discriminate|]. inversion Hc; subst. left. }
  apply list_elem_of_filter in Hin. tauto.
Qed.

Lemma sql_query_row_None (t : list A) :
  sql_query_row P t = None <-> forall r, r ∈ t -> ~ P r.
Proof.
  unfold sql_query_row. split.
  - intros Hc r Hr HP.
    assert (Hin : r ∈ filter P t) by (apply list_elem_of_filter; auto).
    destruct (filter P t); [inversion Hin | discriminate].
  - intros Hc. destruct (filter P t) as [|x l] eqn:E; [reflexivity|].
    exfalso. assert (Hin : x ∈ filter P t) by (rewrite E; left).
    apply list_elem_of_filter in Hin as [HP Hx]. exact (Hc x Hx HP).
Qed.
End SqlLemmas.

(** ** Note merge *)

(** C10. In the ordinary path of [mergeNote] (the first book row with the
    local note's book uuid is not deleted, and the local note is not
    deleted) the merge succeeds and touches only the note table: a row with
    the server note's uuid takes usn, book_uuid, body, edited_on, deleted
    and public from the server and keeps its dirty flag, added_on and uuid;
    every other row is untouched.  A dirty note therefore stays dirty. *)
Theorem mergeNote_ordinary_frame (tx : DB) (s : SyncFragNote) (l : Note) (book : Book) :
  sql_query_row (fun r => b_UUID r = n_BookUUID l) (books tx) = Some book ->
  b_Deleted book = false ->
  n_Deleted l = false ->
  exists tx',
    mergeNote tx s l = Ok tx' /\
    books tx' = books tx /\ system tx' = system tx /\
    length (notes tx') = length (notes tx) /\
    forall (i : nat) (r : Note), notes tx !! i = Some r ->
      exists r', notes tx' !! i = Some r' /\
        n_Dirty r' = n_Dirty r /\ n_AddedOn r' = n_AddedOn r /\ n_UUID r' = n_UUID r /\
        (n_UUID r = fn_UUID s ->
           n_USN r' = fn_USN s /\ n_BookUUID r' = fn_BookUUID s /\
           n_Body r' = fn_Body s /\ n_EditedOn r' = fn_EditedOn s /\
           n_Deleted r' = fn_Deleted s /\ n_Public r' = fn_Public s) /\
        (n_UUID r <> fn_UUID s -> r' = r).
Proof.
  intros Hq Hb Hl. unfold mergeNote. rewrite Hq, Hb, Hl.
  eexists. split; [reflexivity|]. simpl.
  split; [reflexivity|]. split; [reflexivity|].
  split; [apply sql_update_length|].
  intros i r Hi. rewrite sql_update_lookup, Hi. simpl.
  destruct (decide (n_UUID r = fn_UUID s)) as [E|E].
  - eexists. split; [reflexivity|]. simpl.
    repeat split; try reflexivity. intros; contradiction.
  - exists r. repeat split; try reflexivity; intros; contradiction.
Qed.

Lemma mergeNote_ordinary_frame_witness :
  exists tx',
    mergeNote ex_tx_merge ex_note_server (scan_localNote ex_note_local) = Ok tx' /\
    exists r', notes tx' !! 0%nat = Some r' /\ n_Dirty r' = true /\ n_AddedOn r' = 3.
Proof.
  destruct (mergeNote_ordinary_frame ex_tx_merge ex_note_server
              (scan_localNote ex_note_local) ex_book_js)
    as (tx' & Hm & _ & _ & _ & Hrows); [reflexivity | reflexivity | reflexivity |].
  exists tx'. split; [exact Hm|].
  destruct (Hrows 0%nat ex_note_local eq_refl) as (r' & Hr' & Hd & Ha & _).
  exists r'. repeat split; assumption.
Defined.

(** C5, as stated, fails: merging the server note [ex_note_server]
    (added_on 5) over the live local note [ex_note_local] (added_on 3) in a
    live book leaves added_on at 3, so not all fields come from the server. *)
Lemma mergeNote_all_fields_counterexample :
  mergeNote ex_tx_merge ex_note_server (scan_localNote ex_note_local)
    = Ok (mkDB [ex_book_js]
               [mkNote "N1" "B1" "server body" 3 6 9 true false true] ∅) /\
  ~ all_fields_from_server ex_note_server
      (mkNote "N1" "B1" "server body" 3 6 9 true false true).
Proof.
  split; [reflexivity|].
  unfold all_fields_from_server. simpl. intros (_ & _ & _ & Hadded & _). discriminate.
Qed.

(** C5, amended. When the first book row with the local note's book uuid
    exists, [mergeNote] succeeds and leaves books and system alone.  If that
    book is deleted the store is unchanged.  Otherwise every note row with
    the server note's uuid takes usn, book_uuid, body, edited_on, deleted and
    public from the server, keeps its added_on and uuid, and has dirty
    cleared when the local note is deleted and kept when it is not; all
    other note rows are unchanged. *)
Theorem mergeNote_cases (tx : DB) (s : SyncFragNote) (l : Note) (book : Book) :
  sql_query_row (fun r => b_UUID r = n_BookUUID l) (books tx) = Some book ->
  exists tx',
    mergeNote tx s l = Ok tx' /\
    books tx' = books tx /\ system tx' = system tx /\
    (b_Deleted book = true -> tx' = tx) /\
    (b_Deleted book = false ->
     forall (i : nat) (r : Note), notes tx !! i = Some r ->
       (n_UUID r <> fn_UUID s -> notes tx' !! i = Some r) /\
       (n_UUID r = fn_UUID s ->
        exists r', notes tx' !! i = Some r' /\
          n_USN r' = fn_USN s /\ n_BookUUID r' = fn_BookUUID s /\
          n_Body r' = fn_Body s /\ n_EditedOn r' = fn_EditedOn s /\
          n_Deleted r' = fn_Deleted s /\ n_Public r' = fn_Public s /\
          n_AddedOn r' = n_AddedOn r /\ n_UUID r' = n_UUID r /\
          n_Dirty r' = (if n_Deleted l then false else n_Dirty r))).
Proof.
  intros Hq. unfold mergeNote. rewrite Hq.
  destruct (b_Deleted book) eqn:Hb.
  - exists tx. repeat split; try reflexivity; discriminate.
  - destruct (n_Deleted l) eqn:Hl; eexists; (split; [reflexivity|]); simpl;
      (split; [reflexivity|]); (split; [reflexivity|]); (split; [discriminate|]);
      intros _ i r Hi; rewrite sql_update_lookup, Hi; simpl;
      destruct (decide (n_UUID r = fn_UUID s)) as [E|E];
      (split; [intros; try contradiction; reflexivity|]);
      intros; try contradiction;
      eexists; (split; [reflexivity|]); simpl; repeat split; reflexivity.
Qed.

Lemma mergeNote_cases_witness :
  exists tx',
    mergeNote ex_tx_merge ex_note_server (scan_localNote ex_note_local) = Ok tx' /\
    books tx' = [ex_book_js].
Proof.
  destruct (mergeNote_cases ex_tx_merge ex_note_server
              (scan_localNote ex_note_local) ex_book_js eq_refl)
    as (tx' & Hm & Hb & _).
  exists tx'. split; [exact Hm | exact Hb].
Defined.

(** ** Server deletions *)

Lemma checkNotesPristine_false (tx : DB) (bookUUID : string) :
  checkNotesPristine tx bookUUID = false <->
  exists n, n ∈ notes tx /\ n_BookUUID n = bookUUID /\ n_Dirty n = true.
Proof.
  unfold checkNotesPristine.
  pose proof (sql_count_nonneg
    (fun r => n_BookUUID r = bookUUID /\ n_Dirty r = true) (notes tx)) as Hnn.
  pose proof (sql_count_zero
    (fun r => n_BookUUID r = bookUUID /\ n_Dirty r = true) (notes tx)) as Hz.
  destruct (decide (_ > 0)) as [Hpos|Hnpos]; split; try discriminate; try reflexivity.
  - intros _.
    destruct (filter (fun r => n_BookUUID r = bookUUID /\ n_Dirty r = true) (notes tx))
      as [|n rest] eqn:E.
    + unfold sql_count in Hpos. rewrite E in Hpos. simpl in Hpos. lia.
    + assert (Hin : n ∈ filter (fun r => n_BookUUID r = bookUUID /\ n_Dirty r = true)
                          (notes tx)) by (rewrite E; left).
      apply list_elem_of_filter in Hin as [[H1 H2] H3]. eauto.
  - intros (n & Hn & Hb & Hd). exfalso.
    refine (proj1 Hz _ n Hn (conj Hb Hd)). lia.
Qed.

(** C6. Applying a server-side book deletion: the system table is never
    touched; with no local row of that uuid the store is unchanged; when the
    first such row is dirty the store is unchanged; when it is clean and some
    note of the book is dirty, the notes are unchanged and every book row of
    that uuid stays in place with dirty set and its deleted flag (and label,
    usn) as before; when no note of the book is dirty, exactly the notes of
    the book and the book rows of that uuid are removed. *)
Theorem syncDeleteBook_cases (tx : DB) (bookUUID : string) :
  system (syncDeleteBook tx bookUUID) = system tx /\
  ((forall b, b ∈ books tx -> b_UUID b <> bookUUID) -> syncDeleteBook tx bookUUID = tx) /\
  (forall b, sql_query_row (fun r => b_UUID r = bookUUID) (books tx) = Some b ->
     (b_Dirty b = true -> syncDeleteBook tx bookUUID = tx) /\
     (b_Dirty b = false ->
        ((exists n, n ∈ notes tx /\ n_BookUUID n = bookUUID /\ n_Dirty n = true) ->
           notes (syncDeleteBook tx bookUUID) = notes tx /\
           forall (i : nat) (r : Book), books tx !! i = Some r ->
             books (syncDeleteBook tx bookUUID) !! i =
               Some (if decide (b_UUID r = bookUUID)
                     then mkBook (b_UUID r) (b_Label r) (b_USN r) true (b_Deleted r)
                     else r)) /\
        ((forall n, n ∈ notes tx -> n_BookUUID n = bookUUID -> n_Dirty n = false) ->
           (forall n, n ∈ notes (syncDeleteBook tx bookUUID) <->
                      n ∈ notes tx /\ n_BookUUID n <> bookUUID) /\
           (forall r, r ∈ books (syncDeleteBook tx bookUUID) <->
                      r ∈ books tx /\ b_UUID r <> bookUUID)))).
Proof.
  split; [|split].
  - unfold syncDeleteBook. destruct (sql_query_row _ _) as [r|]; [|reflexivity].
    destruct (b_Dirty r); [reflexivity|].
    destruct (negb _); reflexivity.
  - intros Habs. unfold syncDeleteBook.
    assert (Hn : sql_query_row (fun r => b_UUID r = bookUUID) (books tx) = None)
      by (apply sql_query_row_None; exact Habs).
    rewrite Hn. reflexivity.
  - intros b Hq. unfold syncDeleteBook. rewrite Hq. split.
    + intros Hd. rewrite Hd. reflexivity.
    + intros Hd. rewrite Hd. split.
      * intros Hex. apply checkNotesPristine_false in Hex. rewrite Hex. simpl.
        split; [reflexivity|]. intros i r Hi.
        rewrite sql_update_lookup, Hi. reflexivity.
      * intros Hall.
        assert (Hp : checkNotesPristine tx bookUUID = true).
        { destruct (checkNotesPristine tx bookUUID) eqn:E; [reflexivity|].
          apply checkNotesPristine_false in E as (n & Hn & Hb & Hdn).
          rewrite (Hall n Hn Hb) in Hdn. discriminate. }
        rewrite Hp. simpl. split; intros x.
        -- apply (sql_delete_elem (fun r => n_BookUUID r = bookUUID)).
        -- apply (sql_delete_elem (fun r => b_UUID r = bookUUID)).
Qed.

Lemma syncDeleteBook_cases_witness :
  notes (syncDeleteBook ex_tx_s3 "B1") = notes ex_tx_s3 /\
  books (syncDeleteBook ex_tx_s3 "B1") !! 0%nat = Some (mkBook "B1" "js" 5 true false).
Proof.
  destruct (syncDeleteBook_cases ex_tx_s3 "B1") as (_ & _ & H).
  destruct (H (mkBook "B1" "js" 5 false false) eq_refl) as (_ & Hclean).
  destruct (Hclean eq_refl) as (Hdirty & _).
  destruct Hdirty as (Hn & Hb).
  { exists (mkNote "N1" "B1" "draft" 1 0 0 false false true).
    split; [left | split; reflexivity]. }
  split; [exact Hn|]. exact (Hb 0%nat _ eq_refl).
Defined.

(** ** Label collision resolution *)

Lemma string_app_inv_tail (c : Ascii.ascii) (s1 s2 : string) :
  s1 +:+ String c "" = s2 +:+ String c "" -> s1 = s2.
Proof.
  revert s2. induction s1 as [|a s1 IH]; intros [|b s2] Heq; simpl in Heq.
  - reflexivity.
  - inversion Heq as [[Ha Hs]]. destruct s2; discriminate.
  - inversion Heq as [[Ha Hs]]. destruct s1; discriminate.
  - inversion Heq as [[Ha Hs]]. f_equal. apply IH. exact Hs.
Qed.

Lemma Sprintf_label_inj (label : string) : Inj (=) (=) (Sprintf_label label).
Proof.
  intros i j Heq. unfold Sprintf_label in Heq.
  apply (inj (String.app label)) in Heq.
  apply (inj (String.app " (")) in Heq.
  apply string_app_inv_tail in Heq.
  apply (inj pretty) in Heq. exact Heq.
Qed.

Lemma count_label_zero (tx : DB) (label : string) (k : nat) :
  sql_count (fun b => b_Label b = Sprintf_label label k) (books tx) = 0 <->
  ~ taken tx label k.
Proof.
  rewrite sql_count_zero. unfold taken. split.
  - intros Hall (b & Hb & Hl). exact (Hall b Hb Hl).
  - intros Hn b Hb Hl. apply Hn. eauto.
Qed.

Lemma taken_dec (tx : DB) (label : string) (k : nat) : Decision (taken tx label k).
Proof.
  destruct (decide (sql_count (fun b => b_Label b = Sprintf_label label k) (books tx) = 0))
    as [Hz|Hnz].
  - right. apply count_label_zero. exact Hz.
  - left. unfold taken.
    destruct (decide (Exists (fun b => b_Label b = Sprintf_label label k) (books tx)))
      as [Hex|Hnex].
    + apply Exists_exists in Hex. exact Hex.
    + exfalso. apply Hnz. apply sql_count_zero. intros r Hr Hl.
      apply Hnex. apply Exists_exists. eauto.
Qed.

(** Among [length (books tx) + 1] consecutive candidates one is free. *)
Lemma some_candidate_free (tx : DB) (label : string) (i : nat) :
  exists k, (i <= k < i + S (length (books tx)))%nat /\ ~ taken tx label k.
Proof.
  pose proof (Sprintf_label_inj label) as Hinj.
  destruct (decide (Forall
      (fun k => sql_count (fun b => b_Label b = Sprintf_label label k) (books tx) <> 0)
      (seq i (S (length (books tx)))))) as [Hall|Hnot].
  - exfalso.
    assert (Hsub : (Sprintf_label label <$> seq i (S (length (books tx))))
                     ⊆+ (b_Label <$> books tx)).
    { apply NoDup_submseteq.
      - apply NoDup_fmap_2; [exact Hinj | apply NoDup_seq].
      - intros x Hx. apply list_elem_of_fmap in Hx as (k & -> & Hk).
        rewrite Forall_forall in Hall. specialize (Hall k Hk).
        destruct (taken_dec tx label k) as [(b & Hb & Hl)|Hnt].
        + apply list_elem_of_fmap. exists b. split; [symmetry; exact Hl | exact Hb].
        + apply count_label_zero in Hnt. contradiction. }
    apply submseteq_length in Hsub.
    rewrite !length_fmap, length_seq in Hsub. lia.
  - apply not_Forall_Exists in Hnot; [|apply _].
    apply Exists_exists in Hnot as (k & Hk & Hfree).
    apply elem_of_seq in Hk. exists k. split; [lia|].
    apply count_label_zero. apply dec_stable in Hfree. exact Hfree.
Qed.

Lemma resolveLabel_loop_first_free (tx : DB) (label : string) (n i : nat) :
  (exists k, (i <= k < i + n)%nat /\ ~ taken tx label k) ->
  exists k, resolveLabel_loop n tx label i = Ok (Sprintf_label label k) /\
            (i <= k < i + n)%nat /\ ~ taken tx label k /\
            forall j, (i <= j < k)%nat -> taken tx label j.
Proof.
  revert i. induction n as [|n IH]; intros i (k & Hk & Hfree); [lia|].
  simpl. destruct (decide (sql_count _ _ = 0)) as [Hz|Hnz].
  - exists i. split; [reflexivity|]. split; [lia|].
    split; [apply count_label_zero; exact Hz | intros j Hj; lia].
  - assert (Hti : taken tx label i).
    { destruct (taken_dec tx label i) as [Ht|Hnt]; [exact Ht|].
      apply count_label_zero in Hnt. contradiction. }
    assert (Hne : k <> i) by (intros ->; contradiction).
    destruct (IH (S i)) as (k' & Hloop & Hk' & Hfree' & Hbelow).
    { exists k. split; [lia | exact Hfree]. }
    exists k'. split; [exact Hloop|]. split; [lia|]. split; [exact Hfree'|].
    intros j Hj. destruct (decide (j = i)) as [->|Hji]; [exact Hti|].
    apply Hbelow. lia.
Qed.

(** [resolveLabel] always returns: the budget of rounds is never exhausted. *)
Lemma resolveLabel_total (tx : DB) (label : string) :
  exists k, resolveLabel tx label = Ok (Sprintf_label label k) /\
            (2 <= k <= length (books tx) + 2)%nat /\ ~ taken tx label k /\
            forall j, (2 <= j < k)%nat -> taken tx label j.
Proof.
  unfold resolveLabel.
  destruct (resolveLabel_loop_first_free tx label (S (length (books tx))) 2
              (some_candidate_free tx label 2)) as (k & Hl & Hk & Hfree & Hbelow).
  exists k. repeat split; try assumption; lia.
Qed.

Lemma sql_count_pos {A} (P : A -> Prop) `{Pdec : !forall x, Decision (P x)}
    (t : list A) (r : A) :
  r ∈ t -> P r -> sql_count P t > 0.
Proof.
  intros Hr HP. pose proof (sql_count_nonneg P t) as Hnn.
  destruct (decide (sql_count P t = 0)) as [Hz|Hnz]; [|lia].
  exfalso. exact (proj1 (sql_count_zero P t) Hz r Hr HP).
Qed.

(** The rows of [mergeBook]'s result: every row is first renamed when it
    holds the server book's label, then, in update mode, overwritten when it
    carries the server book's uuid. *)
Lemma mergeBook_rows (tx : DB) (b : SyncFragBook) (mode : Z) :
  exists newLabel tx',
    resolveLabel tx (fb_Label b) = Ok newLabel /\
    mergeBook tx b mode = Ok tx' /\
    forall (i : nat) (r : Book), books tx !! i = Some r ->
      books tx' !! i =
        Some (let r1 := if decide (b_Label r = fb_Label b)
                        then mkBook (b_UUID r) newLabel (b_USN r) true (b_Deleted r)
                        else r in
              if decide (mode = modeUpdate /\ b_UUID r1 = fb_UUID b)
              then mkBook (fb_UUID b) (fb_Label b) (fb_USN b) (b_Dirty r1) (fb_Deleted b)
              else r1).
Proof.
  destruct (resolveLabel_total tx (fb_Label b)) as (k & Hres & _).
  exists (Sprintf_label (fb_Label b) k).
  assert (Hsame : forall r : Book,
            r ∈ books tx ->
            ~ sql_count (fun x => b_Label x = fb_Label b) (books tx) > 0 ->
            (if decide (b_Label r = fb_Label b)
             then mkBook (b_UUID r) (Sprintf_label (fb_Label b) k) (b_USN r) true
                    (b_Deleted r)
             else r) = r).
  { intros r Hr Hc. destruct (decide (b_Label r = fb_Label b)) as [Hl|]; [|reflexivity].
    exfalso. apply Hc. exact (sql_count_pos _ _ r Hr Hl). }
  unfold mergeBook. rewrite Hres.
  destruct (decide (sql_count (fun r => b_Label r = fb_Label b) (books tx) > 0))
    as [Hc|Hc];
    (destruct (decide (mode = modeInsert)) as [Hi|Hi];
      [|destruct (decide (mode = modeUpdate)) as [Hu|Hu]]);
    eexists; (split; [reflexivity|]); (split; [reflexivity|]);
    intros i r Hl; unfold Book_Insert, set_books; cbn [books];
    assert (Hr : r ∈ books tx) by (apply list_elem_of_lookup; eauto).
  - rewrite lookup_app_l
      by (rewrite sql_update_length; apply lookup_lt_Some in Hl; exact Hl).
    rewrite sql_update_lookup, Hl. cbn [fmap option_fmap option_map].
    destruct (decide (mode = modeUpdate /\ _)) as [[Hu _]|_]; [|reflexivity].
    rewrite Hi in Hu. discriminate.
  - rewrite !sql_update_lookup, Hl. cbn [fmap option_fmap option_map].
    match goal with |- Some (if decide (b_UUID ?x = _) then _ else _) = _ =>
      destruct (decide (b_UUID x = fb_UUID b)) as [Hx|Hx] end;
    match goal with |- _ = Some (if decide ?P then _ else _) =>
      destruct (decide P) as [Hy|Hy] end;
    try reflexivity.
    + exfalso. apply Hy. split; [exact Hu | exact Hx].
    + exfalso. apply Hx. exact (proj2 Hy).
  - rewrite sql_update_lookup, Hl. cbn [fmap option_fmap option_map].
    destruct (decide (mode = modeUpdate /\ _)) as [[Hu' _]|_]; [|reflexivity].
    contradiction.
  - rewrite lookup_app_l by (apply lookup_lt_Some in Hl; exact Hl).
    rewrite Hl, (Hsame r Hr Hc).
    destruct (decide (mode = modeUpdate /\ _)) as [[Hu _]|_]; [|reflexivity].
    rewrite Hi in Hu. discriminate.
  - rewrite sql_update_lookup, Hl, (Hsame r Hr Hc). cbn [fmap option_fmap option_map].
    destruct (decide (b_UUID r = fb_UUID b)) as [Hx|Hx];
    match goal with |- _ = Some (if decide ?P then _ else _) =>
      destruct (decide P) as [Hy|Hy] end;
    try reflexivity.
    + exfalso. apply Hy. split; [exact Hu | exact Hx].
    + exfalso. apply Hx. exact (proj2 Hy).
  - rewrite Hl, (Hsame r Hr Hc).
    destruct (decide (mode = modeUpdate /\ _)) as [[Hu' _]|_]; [|reflexivity].
    contradiction.
Qed.

(** C4, as stated, fails: next to the live book "X" the store holds a
    deleted book "X (2)".  No live book holds "X (2)", so the claim selects
    it, but [resolveLabel] counts the tombstone too and returns "X (3)". *)
Lemma resolveLabel_live_counterexample :
  live_holders ex_tx_tombstone (Sprintf_label "X" 2) = 0 /\
  resolveLabel ex_tx_tombstone "X" = Ok "X (3)" /\
  resolveLabel ex_tx_tombstone "X" <> Ok (Sprintf_label "X" 2).
Proof.
  split; [reflexivity|]. split; [reflexivity|]. discriminate.
Qed.

(** The store of that example is one the merge itself writes: a live book
    "X (2)" that the server then reports deleted, under the same label,
    becomes the tombstone. *)
Lemma stepSyncBook_writes_tombstone :
  stepSyncBook
    (mkDB [mkBook "L1" "X" 0 true false; mkBook "L2" "X (2)" 1 false false] [] ∅)
    (mkFragBook "L2" 3 "X (2)" true)
  = Ok ex_tx_tombstone.
Proof. vm_compute. reflexivity. Qed.

(** C4, amended.  (1) [resolveLabel] always returns, and its result is the
    first label among "L (2)", "L (3)", ... that no book row holds, deleted
    rows included.  (2) [mergeBook] always returns, and row by row its
    result is: a row holding the server book's label gets the resolved
    label and is marked dirty, any other row is left alone; then, in update
    mode only, the row carrying the server book's uuid is overwritten with
    the server's usn, label and deleted flag, its dirty flag as the rename
    left it.  (3) So a row that held the label ends dirty in every mode,
    with the resolved label, unless the merge is an update and the row is
    the server book's own, which ends with the server's label.  (4) Against
    "X", "X (2)", "X (3)" the result is "X (4)". *)
Theorem resolveLabel_first_unused :
  (forall (tx : DB) (label : string),
     exists k, resolveLabel tx label = Ok (Sprintf_label label k) /\
       (2 <= k)%nat /\
       (forall b, b ∈ books tx -> b_Label b <> Sprintf_label label k) /\
       (forall j, (2 <= j < k)%nat ->
          exists b, b ∈ books tx /\ b_Label b = Sprintf_label label j)) /\
  (forall (tx : DB) (b : SyncFragBook) (mode : Z),
     exists newLabel tx',
       resolveLabel tx (fb_Label b) = Ok newLabel /\
       mergeBook tx b mode = Ok tx' /\
       forall (i : nat) (r : Book), books tx !! i = Some r ->
         books tx' !! i =
           Some (let r1 := if decide (b_Label r = fb_Label b)
                           then mkBook (b_UUID r) newLabel (b_USN r) true (b_Deleted r)
                           else r in
                 if decide (mode = modeUpdate /\ b_UUID r1 = fb_UUID b)
                 then mkBook (fb_UUID b) (fb_Label b) (fb_USN b) (b_Dirty r1)
                        (fb_Deleted b)
                 else r1)) /\
  (forall (tx : DB) (b : SyncFragBook) (mode : Z) (i : nat) (r : Book),
     books tx !! i = Some r -> b_Label r = fb_Label b ->
     exists newLabel tx',
       resolveLabel tx (fb_Label b) = Ok newLabel /\
       mergeBook tx b mode = Ok tx' /\
       books tx' !! i =
         Some (if decide (mode = modeUpdate /\ b_UUID r = fb_UUID b)
               then mkBook (fb_UUID b) (fb_Label b) (fb_USN b) true (fb_Deleted b)
               else mkBook (b_UUID r) newLabel (b_USN r) true (b_Deleted r))) /\
  resolveLabel ex_tx_labels "X" = Ok "X (4)".
Proof.
  split; [|split; [|split]].
  - intros tx label.
    destruct (resolveLabel_total tx label) as (k & Hres & Hk & Hfree & Hbelow).
    exists k. split; [exact Hres|]. split; [lia|]. split.
    + intros b Hb Hl. apply Hfree. exists b. auto.
    + exact Hbelow.
  - exact mergeBook_rows.
  - intros tx b mode i r Hi Hl.
    destruct (mergeBook_rows tx b mode) as (newLabel & tx' & Hres & Hm & Hrows).
    exists newLabel, tx'. split; [exact Hres|]. split; [exact Hm|].
    rewrite (Hrows i r Hi). cbv zeta.
    destruct (decide (b_Label r = fb_Label b)); [|contradiction]. reflexivity.
  - reflexivity.
Qed.

Lemma resolveLabel_first_unused_witness :
  exists newLabel tx',
    resolveLabel ex_tx_labels "X" = Ok newLabel /\
    mergeBook ex_tx_labels (mkFragBook "L2" 7 "X" false) modeUpdate = Ok tx' /\
    books tx' !! 0%nat =
      Some (if decide (modeUpdate = modeUpdate /\ "L1" = "L2")
            then mkBook "L2" "X" 7 true false
            else mkBook "L1" newLabel 0 true false).
Proof.
  destruct resolveLabel_first_unused as (_ & _ & Hmerge & _).
  exact (Hmerge ex_tx_labels (mkFragBook "L2" 7 "X" false) modeUpdate 0%nat
           (mkBook "L1" "X" 0 true false) eq_refl eq_refl).
Defined.

(** ** Sync-list assembler *)

Section Assembler.
Context {Srv : Type} (cl : Client Srv) (ctx : DnoteCtx).

Lemma getSyncFragments_loop_S (fuel : nat) (buf : list SyncFragment) (a : Z)
    (w : World Srv) :
  getSyncFragments_loop cl (S fuel) buf a w =
    match GetSyncFragment cl a (w_srv w) with
    | (None, s') =>
        (Err (Wrap (ErrRemote "GetSyncFragment") "getting sync fragment"),
         after_call w a s')
    | (Some frag, s') =>
        if decide (FragMaxUSN frag = 0) then (Ok (buf ++ [frag]), after_call w a s')
        else getSyncFragments_loop cl fuel (buf ++ [frag]) (FragMaxUSN frag)
               (after_call w a s')
    end.
Proof.
  simpl. unfold mbind, M_bind, wrapM, call, after_call.
  destruct (GetSyncFragment cl a (w_srv w)) as [[frag|] s']; simpl; [|reflexivity].
  destruct (decide (FragMaxUSN frag = 0)); reflexivity.
Qed.





End Assembler.

Section AssemblerClaims.
Context {Srv : Type} (cl : Client Srv) (ctx : DnoteCtx).



End AssemblerClaims.



(** ** Inversion of successful computations *)

Section MonadInversion.
Context {Srv : Type}.

Lemma bind_ok_inv {A B} (m : M Srv A) (k : A -> M Srv B) (w w' : World Srv) (b : B) :
  (m ≫= k) w = (Ok b, w') ->
  exists a w1, m w = (Ok a, w1) /\ k a w1 = (Ok b, w').
Proof.
  unfold mbind, M_bind. destruct (m w) as [[a|e|] w1]; try discriminate.
  intros Hk. exists a, w1. split; [reflexivity | exact Hk].
Qed.

Lemma wrapM_ok_inv {A} (m : M Srv A) (c : string) (w w' : World Srv) (a : A) :
  wrapM m c w = (Ok a, w') -> m w = (Ok a, w').
Proof.
  unfold wrapM. destruct (m w) as [[a0|e|] w1]; try discriminate.
  intros Heq. exact Heq.
Qed.

End MonadInversion.

(** ** Results the command does not check *)

Section Unchecked.
Context {Srv : Type} (cl : Client Srv).

(** The count of dirty rows has no effect, whether it fails or not. *)
Lemma unchecked_countDirty (w : World Srv) :
  unchecked (countDirty cl) w = (Ok tt, w).
Proof.
  unfold unchecked, countDirty.
  destruct (dirtyCount_err cl (w_srv w)); reflexivity.
Qed.

Lemma sendChanges_count (w : World Srv) :
  sendChanges cl w =
    (wrapM (sendBooks cl) "sending books" ≫= (fun behind1 =>
     wrapM (sendNotes cl) "sending notes" ≫= (fun behind2 =>
     mret (behind1 || behind2)))) w.
Proof.
  unfold sendChanges. unfold mbind at 1, M_bind at 1.
  rewrite unchecked_countDirty. reflexivity.
Qed.

Lemma unchecked_Commit (w : World Srv) :
  unchecked (Commit cl) w =
    (Ok tt,
     match Commit_err cl (w_srv w) with
     | None => mkWorld (w_srv w) (w_calls w) (w_tx w) (w_tx w)
     | Some _ => mkWorld (w_srv w) (w_calls w) (w_db w) (w_db w)
     end).
Proof.
  unfold unchecked, Commit. destruct (Commit_err cl (w_srv w)); reflexivity.
Qed.

End Unchecked.

(** ** Push *)

Lemma add64_succ (v : Z) : - 2 ^ 63 <= v < 2 ^ 63 - 1 -> add64 v 1 = v + 1.
Proof.
  intros Hv. unfold add64, wrap64.
  rewrite Z.mod_small; lia.
Qed.

Section PushClaims.
Context {Srv : Type} (cl : Client Srv) (ctx : DnoteCtx).

Lemma ackUSN_spec (respUSN : Z) (isBehind : bool) (w : World Srv) (v : Z) :
  system (w_tx w) !! SystemLastMaxUSN = Some v ->
  ackUSN respUSN isBehind w =
    if decide (respUSN = add64 v 1)
    then (Ok isBehind,
          mkWorld (w_srv w) (w_calls w) (w_db w) (updateLastMaxUSN (w_tx w) (add64 v 1)))
    else (Ok true, w).
Proof.
  intros Hv. unfold ackUSN, mbind, M_bind, wrapM, tx_read, getLastMaxUSN, GetSystem.
  rewrite Hv. destruct (decide (respUSN = add64 v 1)); reflexivity.
Qed.

Lemma ackUSN_result (respUSN : Z) (isBehind : bool) (w : World Srv) (v : Z) :
  system (w_tx w) !! SystemLastMaxUSN = Some v ->
  exists w',
    ackUSN respUSN isBehind w = (Ok (acked_behind v respUSN isBehind), w') /\
    system (w_tx w') !! SystemLastMaxUSN = Some (acked_usn v respUSN) /\
    w_db w' = w_db w /\ w_srv w' = w_srv w /\ w_calls w' = w_calls w.
Proof.
  intros Hv. rewrite (ackUSN_spec _ _ _ v Hv). unfold acked_behind, acked_usn.
  destruct (decide (respUSN = add64 v 1)); eexists; (split; [reflexivity|]); simpl.
  - split; [apply lookup_insert_eq|]. auto.
  - auto.
Qed.






End PushClaims.


(** ** Frames *)

Section Frames.
Context {Srv : Type}.

Lemma extends_refl (w : World Srv) : extends w w.
Proof. split; [reflexivity|]. exists []. rewrite app_nil_r. reflexivity. Qed.

Lemma extends_trans (w1 w2 w3 : World Srv) :
  extends w1 w2 -> extends w2 w3 -> extends w1 w3.
Proof.
  intros [Hd1 [l1 Hc1]] [Hd2 [l2 Hc2]]. split; [congruence|].
  exists (l1 ++ l2). rewrite Hc2, Hc1, app_assoc. reflexivity.
Qed.

Lemma tx_only_ret {A} (a : A) : tx_only (mret a : M Srv A).
Proof. intros w r w' Heq. inversion Heq. apply extends_refl. Qed.

Lemma tx_only_bind {A B} (m : M Srv A) (k : A -> M Srv B) :
  tx_only m -> (forall a, tx_only (k a)) -> tx_only (m ≫= k).
Proof.
  intros Hm Hk w r w'. unfold mbind, M_bind.
  destruct (m w) as [[a|e|] w1] eqn:Hmw; intros Heq.
  - eapply extends_trans; [exact (Hm _ _ _ Hmw) | exact (Hk _ _ _ _ Heq)].
  - inversion Heq; subst. exact (Hm _ _ _ Hmw).
  - inversion Heq; subst. exact (Hm _ _ _ Hmw).
Qed.

Lemma tx_only_wrapM {A} (m : M Srv A) (c : string) : tx_only m -> tx_only (wrapM m c).
Proof.
  intros Hm w r w'. unfold wrapM.
  destruct (m w) as [[a|e|] w1] eqn:Hmw; intros Heq; inversion Heq; subst;
    exact (Hm _ _ _ Hmw).
Qed.

Lemma tx_only_exec (f : DB -> DB) : tx_only (tx_exec f : M Srv unit).
Proof.
  intros w r w' Heq. inversion Heq. split; [reflexivity|].
  exists []. simpl. rewrite app_nil_r. reflexivity.
Qed.

Lemma tx_only_try (f : DB -> res DB) : tx_only (tx_try f : M Srv unit).
Proof.
  intros w r w'. unfold tx_try. destruct (f (w_tx w)); intros Heq; inversion Heq.
  - split; [reflexivity|]. exists []. simpl. rewrite app_nil_r. reflexivity.
  - apply extends_refl.
  - apply extends_refl.
Qed.

Lemma tx_only_read {A} (f : DB -> res A) : tx_only (tx_read f : M Srv A).
Proof. intros w r w' Heq. inversion Heq. apply extends_refl. Qed.

Lemma tx_only_get : tx_only (tx_get : M Srv DB).
Proof. intros w r w' Heq. inversion Heq. apply extends_refl. Qed.

Lemma tx_only_pure {A} (r0 : res A) : tx_only (fun w : World Srv => (r0, w)).
Proof. intros w r w' Heq. inversion Heq. apply extends_refl. Qed.

Lemma tx_only_call {A} (req : Request) (op : string) (f : Srv -> option A * Srv) :
  tx_only (call req op f).
Proof.
  intros w r w'. unfold call. destruct (f (w_srv w)) as [[a|] s'];
    intros Heq; inversion Heq; (split; [reflexivity|]); exists [req]; reflexivity.
Qed.

Lemma tx_only_forM {A} (xs : list A) (f : A -> M Srv unit) :
  (forall x, tx_only (f x)) -> tx_only (forM_ xs f).
Proof.
  intros Hf. induction xs as [|x xs IH]; simpl.
  - apply tx_only_ret.
  - apply tx_only_bind; [apply Hf | intros _; exact IH].
Qed.

Lemma tx_only_foldM {A B} (f : B -> A -> M Srv B) (xs : list A) :
  (forall b x, tx_only (f b x)) -> forall acc, tx_only (foldM f acc xs).
Proof.
  intros Hf. induction xs as [|x xs IH]; intros acc; simpl.
  - apply tx_only_ret.
  - apply tx_only_bind; [apply Hf | intros b; apply IH].
Qed.

Lemma tx_only_if {A} (c : bool) (m1 m2 : M Srv A) :
  tx_only m1 -> tx_only m2 -> tx_only (if c then m1 else m2).
Proof. destruct c; auto. Qed.

Lemma starts_with_bind {A B} (req : Request) (m : M Srv A) (k : A -> M Srv B) :
  starts_with req m -> (forall a, tx_only (k a)) -> starts_with req (m ≫= k).
Proof.
  intros Hm Hk w r w'. unfold mbind, M_bind.
  destruct (m w) as [[a|e|] w1] eqn:Hmw; intros Heq.
  - destruct (Hm _ _ _ Hmw) as (Hd & l & Hc).
    destruct (Hk _ _ _ _ Heq) as (Hd' & l' & Hc').
    split; [congruence|]. exists (l ++ l').
    rewrite Hc', Hc, <- app_assoc. reflexivity.
  - inversion Heq; subst. exact (Hm _ _ _ Hmw).
  - inversion Heq; subst. exact (Hm _ _ _ Hmw).
Qed.

Lemma starts_with_wrapM {A} (req : Request) (m : M Srv A) (c : string) :
  starts_with req m -> starts_with req (wrapM m c).
Proof.
  intros Hm w r w'. unfold wrapM.
  destruct (m w) as [[a|e|] w1] eqn:Hmw; intros Heq; inversion Heq; subst;
    exact (Hm _ _ _ Hmw).
Qed.

End Frames.

Ltac frame :=
  repeat first
    [ apply tx_only_ret | apply tx_only_exec | apply tx_only_try | apply tx_only_read
    | apply tx_only_get | apply tx_only_call | apply tx_only_pure
    | match goal with |- tx_only (fun w => (?r, w)) => apply (tx_only_pure r) end
    | apply tx_only_wrapM
    | apply tx_only_forM; intros ?
    | apply tx_only_bind; [|intros ?]
    | apply tx_only_if
    | match goal with |- tx_only (if ?c then _ else _) => destruct c end
    | assumption ].

Section EngineFrames.
Context {Srv : Type} (cl : Client Srv) (ctx : DnoteCtx).

Lemma starts_with_call {A} (req : Request) (op : string) (f : Srv -> option A * Srv) :
  starts_with req (call req op f).
Proof.
  intros w r w'. unfold call. destruct (f (w_srv w)) as [[a|] s'];
    intros Heq; inversion Heq; (split; [reflexivity|]); exists []; reflexivity.
Qed.

Lemma tx_only_getSyncFragments_loop (fuel : nat) :
  forall buf a, tx_only (getSyncFragments_loop cl fuel buf a).
Proof.
  induction fuel as [|fuel IH]; intros buf a; simpl.
  - apply tx_only_pure.
  - frame. apply IH.
Qed.

Lemma starts_with_getSyncFragments_loop (fuel : nat) (buf : list SyncFragment) (a : Z) :
  starts_with (ReqGetSyncFragment a) (getSyncFragments_loop cl (S fuel) buf a).
Proof.
  simpl. apply starts_with_bind.
  - apply starts_with_wrapM, starts_with_call.
  - intros frag. frame. exact (tx_only_getSyncFragments_loop _ _ _).
Qed.

Lemma tx_only_getSyncList (fuel : nat) (a : Z) : tx_only (getSyncList cl ctx fuel a).
Proof.
  unfold getSyncList, getSyncFragments. frame. exact (tx_only_getSyncFragments_loop _ _ _).
Qed.

Lemma starts_with_getSyncList (fuel : nat) (a : Z) :
  starts_with (ReqGetSyncFragment a) (getSyncList cl ctx (S fuel) a).
Proof.
  unfold getSyncList, getSyncFragments. apply starts_with_bind.
  - apply starts_with_wrapM, starts_with_getSyncFragments_loop.
  - intros frags. frame.
Qed.

Lemma tx_only_fullSync (fuel : nat) : tx_only (fullSync cl ctx fuel).
Proof. unfold fullSync. frame. exact (tx_only_getSyncFragments_loop _ _ _). Qed.

Lemma tx_only_stepSync (fuel : nat) (a : Z) : tx_only (stepSync cl ctx fuel a).
Proof. unfold stepSync. frame. exact (tx_only_getSyncFragments_loop _ _ _). Qed.

Lemma starts_with_fullSync (fuel : nat) :
  starts_with (ReqGetSyncFragment 0) (fullSync cl ctx (S fuel)).
Proof.
  unfold fullSync. apply starts_with_bind.
  - apply starts_with_wrapM, starts_with_getSyncList.
  - intros l. frame.
Qed.

Lemma starts_with_stepSync (fuel : nat) (a : Z) :
  starts_with (ReqGetSyncFragment a) (stepSync cl ctx (S fuel) a).
Proof.
  unfold stepSync. apply starts_with_bind.
  - apply starts_with_wrapM, starts_with_getSyncList.
  - intros l. frame.
Qed.

Lemma tx_only_ackUSN (respUSN : Z) (isBehind : bool) : tx_only (ackUSN respUSN isBehind : M Srv bool).
Proof. unfold ackUSN. frame. Qed.

Lemma tx_only_sendBooks_body (isBehind : bool) (r : Book) :
  tx_only (sendBooks_body cl isBehind r).
Proof. unfold sendBooks_body. frame; exact (tx_only_ackUSN _ _). Qed.

Lemma tx_only_sendNotes_body (isBehind : bool) (r : Note) :
  tx_only (sendNotes_body cl isBehind r).
Proof. unfold sendNotes_body. frame; exact (tx_only_ackUSN _ _). Qed.

Lemma tx_only_sendChanges : tx_only (sendChanges cl).
Proof.
  intros w r w'. rewrite sendChanges_count. revert w r w'.
  change (tx_only (wrapM (sendBooks cl) "sending books" ≫= (fun behind1 =>
                   wrapM (sendNotes cl) "sending notes" ≫= (fun behind2 =>
                   mret (behind1 || behind2))))).
  unfold sendBooks, sendNotes. frame.
  - apply tx_only_foldM. intros b x. exact (tx_only_sendBooks_body b x).
  - apply tx_only_foldM. intros b x. exact (tx_only_sendNotes_body b x).
Qed.

End EngineFrames.

(** ** The pull decision *)

Section PullClaims.
Context {Srv : Type} (cl : Client Srv) (ctx : DnoteCtx).

Lemma syncTransaction_reads (full : bool) (fuel : nat) (w : World Srv)
    (st : SyncState) (s' : Srv) (a u : Z) :
  GetSyncState cl (w_srv w) = (Some st, s') ->
  system (w_db w) !! SystemLastSyncAt = Some a ->
  system (w_db w) !! SystemLastMaxUSN = Some u ->
  syncTransaction cl ctx full fuel w =
    (orRollback (pullPhase cl ctx full fuel st a u) "syncing changes from the server" ≫=
       (fun _ => orRollback (sendChanges cl) "sending changes" ≫=
          (fun isBehind => followUp cl ctx fuel isBehind ≫=
             (fun _ => unchecked (Commit cl)))))
    (mkWorld s' (w_calls w ++ [ReqGetSyncState]) (w_db w) (w_db w)).
Proof.
  intros Hst Ha Hu.
  unfold syncTransaction, Begin.
  unfold mbind at 1, M_bind at 1. cbv beta iota.
  unfold mbind at 1, M_bind at 1, wrapM at 1, call. simpl. rewrite Hst.
  unfold mbind at 1, M_bind at 1, wrapM at 1, tx_read, getLastSyncAt, GetSystem.
  simpl. rewrite Ha.
  unfold mbind at 1, M_bind at 1, wrapM at 1, getLastMaxUSN, GetSystem.
  simpl. rewrite Hu. reflexivity.
Qed.

(** C2. The pull phase of [newRun] follows the decision of the
    specification: a full sync when the flag is set or
    [last_sync_at < FullSyncBefore]; otherwise a step sync from
    [last_max_usn] when it differs from the server's [MaxUSN]; otherwise no
    pull, and only [last_sync_at] is written, with the server's
    [CurrentTime].  A full sync first asks for the fragment after USN 0, a
    step sync for the fragment after [last_max_usn].  The transaction reaches
    this decision with the answer of [GetSyncState] and the two values read
    from the system table. *)
Theorem pull_decision :
  (forall (full : bool) (fuel : nat) (st : SyncState) (a u : Z) (w : World Srv),
     pullPhase cl ctx full fuel st a u w =
       match spec_pull_decision full a u st with
       | FullSync => fullSync cl ctx fuel w
       | IncrementalSync after => stepSync cl ctx fuel after w
       | NoPull t =>
           (Ok tt, mkWorld (w_srv w) (w_calls w) (w_db w) (updateLastSyncAt (w_tx w) t))
       end) /\
  (forall (full : bool) (st : SyncState) (a u : Z),
     (full = true \/ a < ss_FullSyncBefore st ->
        spec_pull_decision full a u st = FullSync) /\
     (full = false -> ss_FullSyncBefore st <= a -> u <> ss_MaxUSN st ->
        spec_pull_decision full a u st = IncrementalSync u) /\
     (full = false -> ss_FullSyncBefore st <= a -> u = ss_MaxUSN st ->
        spec_pull_decision full a u st = NoPull (ss_CurrentTime st))) /\
  (forall (fuel : nat) (after : Z),
     starts_with (ReqGetSyncFragment 0) (fullSync cl ctx (S fuel)) /\
     starts_with (ReqGetSyncFragment after) (stepSync cl ctx (S fuel) after)) /\
  (forall (tx : DB) (t : Z),
     system (updateLastSyncAt tx t) !! SystemLastSyncAt = Some t /\
     system (updateLastSyncAt tx t) !! SystemLastMaxUSN = system tx !! SystemLastMaxUSN /\
     books (updateLastSyncAt tx t) = books tx /\
     notes (updateLastSyncAt tx t) = notes tx) /\
  (forall (full : bool) (fuel : nat) (w : World Srv) (st : SyncState) (s' : Srv) (a u : Z),
     GetSyncState cl (w_srv w) = (Some st, s') ->
     system (w_db w) !! SystemLastSyncAt = Some a ->
     system (w_db w) !! SystemLastMaxUSN = Some u ->
     syncTransaction cl ctx full fuel w =
       (orRollback (pullPhase cl ctx full fuel st a u) "syncing changes from the server" ≫=
          (fun _ => orRollback (sendChanges cl) "sending changes" ≫=
             (fun isBehind => followUp cl ctx fuel isBehind ≫=
             (fun _ => unchecked (Commit cl)))))
       (mkWorld s' (w_calls w ++ [ReqGetSyncState]) (w_db w) (w_db w))).
Proof.
  repeat apply conj.
  - intros full fuel st a u w. unfold pullPhase, spec_pull_decision.
    destruct full; simpl; [reflexivity|].
    destruct (decide (a < ss_FullSyncBefore st)) as [Hlt|Hge].
    + rewrite bool_decide_eq_true_2 by exact Hlt. reflexivity.
    + rewrite bool_decide_eq_false_2 by exact Hge.
      destruct (decide (u <> ss_MaxUSN st)) as [Hne|Heq].
      * rewrite bool_decide_eq_true_2 by exact Hne. reflexivity.
      * rewrite bool_decide_eq_false_2 by exact Heq. reflexivity.
  - intros full st a u. repeat apply conj.
    + intros [Hf|Hlt]; unfold spec_pull_decision.
      * rewrite Hf. reflexivity.
      * destruct full; [reflexivity|].
        destruct (decide (a < ss_FullSyncBefore st)); [reflexivity | contradiction].
    + intros Hf Hge Hne. unfold spec_pull_decision. rewrite Hf.
      destruct (decide (a < ss_FullSyncBefore st)); [lia|].
      destruct (decide (u <> ss_MaxUSN st)); [reflexivity | contradiction].
    + intros Hf Hge Heq. unfold spec_pull_decision. rewrite Hf.
      destruct (decide (a < ss_FullSyncBefore st)); [lia|].
      destruct (decide (u <> ss_MaxUSN st)); [contradiction | reflexivity].
  - intros fuel after. split.
    + exact (starts_with_fullSync cl ctx fuel).
    + exact (starts_with_stepSync cl ctx fuel after).
  - intros tx t. repeat apply conj.
    + unfold updateLastSyncAt, UpdateSystem. simpl. apply lookup_insert_eq.
    + unfold updateLastSyncAt, UpdateSystem. simpl. apply lookup_insert_ne. discriminate.
    + reflexivity.
    + reflexivity.
  - intros full fuel w st s' a u Hst Ha Hu.
    exact (syncTransaction_reads full fuel w st s' a u Hst Ha Hu).
Qed.

End PullClaims.

Lemma pull_decision_witness :
  spec_pull_decision false 1000 41 ex_state_same = NoPull 2000.
Proof.
  destruct (pull_decision ex_client ex_ctx) as (_ & Hdec & _).
  destruct (Hdec false ex_state_same 1000 41) as (_ & _ & Hno).
  apply Hno; [reflexivity | simpl; lia | reflexivity].
Defined.

(** ** The transaction *)

Section TransactionClaims.
Context {Srv : Type} (cl : Client Srv) (ctx : DnoteCtx).

Lemma tx_only_orRollback {A} (m : M Srv A) (c : string) :
  tx_only m -> tx_only (orRollback m c).
Proof.
  intros Hm w r w'. unfold orRollback.
  destruct (m w) as [[a|e|] w1] eqn:Hmw; intros Heq; inversion Heq; subst;
    exact (Hm _ _ _ Hmw).
Qed.

Lemma orRollback_err {A} (m : M Srv A) (c : string) (w w1 : World Srv) (e : error) :
  m w = (Err e, w1) ->
  orRollback m c w =
    (Err (Wrap e c), mkWorld (w_srv w1) (w_calls w1) (w_db w1) (w_db w1)).
Proof. intros Hm. unfold orRollback. rewrite Hm. reflexivity. Qed.

Lemma orRollback_ok {A} (m : M Srv A) (c : string) (w w1 : World Srv) (a : A) :
  m w = (Ok a, w1) -> orRollback m c w = (Ok a, w1).
Proof. intros Hm. unfold orRollback. rewrite Hm. reflexivity. Qed.

Lemma tx_only_pullPhase (full : bool) (fuel : nat) (st : SyncState) (a u : Z) :
  tx_only (pullPhase cl ctx full fuel st a u).
Proof.
  unfold pullPhase.
  destruct (full || bool_decide (a < ss_FullSyncBefore st));
    [exact (tx_only_fullSync cl ctx fuel)|].
  destruct (bool_decide (u ≠ ss_MaxUSN st));
    [exact (tx_only_stepSync cl ctx fuel u) | apply tx_only_exec].
Qed.

Lemma tx_only_followUp (fuel : nat) (isBehind : bool) :
  tx_only (followUp cl ctx fuel isBehind).
Proof.
  unfold followUp. destruct isBehind; [|apply tx_only_ret].
  apply tx_only_bind.
  - apply tx_only_orRollback, tx_only_read.
  - intros v. apply tx_only_orRollback. exact (tx_only_stepSync cl ctx fuel v).
Qed.

Lemma atomic_Commit : atomic cl (unchecked (Commit cl)).
Proof.
  intros w r w'. rewrite unchecked_Commit.
  destruct (Commit_err cl (w_srv w)) as [e|] eqn:E;
    intros Heq; inversion Heq; subst; simpl; rewrite E; reflexivity.
Qed.

Lemma atomic_bind {A B} (m : M Srv A) (k : A -> M Srv B) :
  tx_only m -> (forall a, atomic cl (k a)) -> atomic cl (m ≫= k).
Proof.
  intros Hm Hk w r w'. unfold mbind, M_bind.
  destruct (m w) as [[a|e|] w1] eqn:Hmw; intros Heq.
  - destruct (Hm _ _ _ Hmw) as (Hd & _).
    pose proof (Hk a w1 r w' Heq) as Hat.
    destruct r; [|congruence|congruence].
    destruct (Commit_err cl (w_srv w')); congruence.
  - inversion Heq; subst. exact (proj1 (Hm _ _ _ Hmw)).
  - inversion Heq; subst. exact (proj1 (Hm _ _ _ Hmw)).
Qed.

Lemma tx_only_Begin : tx_only (Begin : M Srv unit).
Proof.
  intros w r w' Heq. inversion Heq. split; [reflexivity|].
  exists []. simpl. rewrite app_nil_r. reflexivity.
Qed.

Lemma atomic_syncTransaction (full : bool) (fuel : nat) :
  atomic cl (syncTransaction cl ctx full fuel).
Proof.
  unfold syncTransaction.
  apply atomic_bind; [apply tx_only_Begin|intros _].
  apply atomic_bind; [apply tx_only_wrapM, tx_only_call|intros st].
  apply atomic_bind; [apply tx_only_wrapM, tx_only_read|intros a].
  apply atomic_bind; [apply tx_only_wrapM, tx_only_read|intros u].
  apply atomic_bind; [apply tx_only_orRollback, tx_only_pullPhase|intros _].
  apply atomic_bind;
    [apply tx_only_orRollback; exact (tx_only_sendChanges cl)|intros b].
  apply atomic_bind; [apply tx_only_followUp|intros _].
  apply atomic_Commit.
Qed.

Lemma logged_in_test :
  SessionKey ctx <> "" -> CipherKey ctx <> None ->
  bool_decide (SessionKey ctx = "") || bool_decide (CipherKey ctx = None) = false.
Proof.
  intros Hs Hc. rewrite !bool_decide_eq_false_2 by assumption. reflexivity.
Qed.

Lemma newRun_logged_out (full : bool) (fuel : nat) (w : World Srv) :
  SessionKey ctx = "" \/ CipherKey ctx = None ->
  newRun cl ctx full fuel w = (Err (ErrNew "not logged in"), w).
Proof.
  intros Hout. unfold newRun.
  assert (Ht : bool_decide (SessionKey ctx = "") || bool_decide (CipherKey ctx = None)
               = true).
  { destruct Hout as [Hs|Hc].
    - rewrite (bool_decide_eq_true_2 _ Hs). reflexivity.
    - rewrite (bool_decide_eq_true_2 _ Hc). apply orb_true_r. }
  rewrite Ht. reflexivity.
Qed.

Lemma newRun_migration_fails (full : bool) (fuel : nat) (w : World Srv)
    (e : error) (s1 : Srv) (db1 : DB) :
  SessionKey ctx <> "" -> CipherKey ctx <> None ->
  migrate_Run cl (w_srv w) (w_db w) = (Some e, (s1, db1)) ->
  newRun cl ctx full fuel w =
    (Err (Wrap e "running remote migrations"), mkWorld s1 (w_calls w) db1 (w_tx w)).
Proof.
  intros Hs Hc Hm. unfold newRun. rewrite (logged_in_test Hs Hc).
  unfold mbind, M_bind, wrapM, runRemoteMigrations. rewrite Hm. reflexivity.
Qed.

Lemma newRun_migration_done (full : bool) (fuel : nat) (w : World Srv)
    (s1 : Srv) (db1 : DB) :
  SessionKey ctx <> "" -> CipherKey ctx <> None ->
  migrate_Run cl (w_srv w) (w_db w) = (None, (s1, db1)) ->
  newRun cl ctx full fuel w =
    syncTransaction cl ctx full fuel (mkWorld s1 (w_calls w) db1 (w_tx w)).
Proof.
  intros Hs Hc Hm. unfold newRun. rewrite (logged_in_test Hs Hc).
  unfold mbind at 1, M_bind at 1, wrapM, runRemoteMigrations. rewrite Hm. reflexivity.
Qed.

Lemma newRun_keeps_store (full : bool) (fuel : nat) (w w' : World Srv) (r : res unit) :
  newRun cl ctx full fuel w = (r, w') ->
  (is_err r = true -> w_db w' = store_at_begin cl ctx w) /\
  (forall e, r = Ok tt -> Commit_err cl (w_srv w') = Some e ->
             w_db w' = store_at_begin cl ctx w).
Proof.
  unfold newRun, store_at_begin.
  destruct (bool_decide (SessionKey ctx = "") || bool_decide (CipherKey ctx = None)).
  - intros Heq. inversion Heq; subst. split; [reflexivity | discriminate].
  - unfold mbind, M_bind, wrapM, runRemoteMigrations.
    destruct (migrate_Run cl (w_srv w) (w_db w)) as [[e|] [s1 db1]]; simpl.
    + intros Heq. inversion Heq; subst. split; [reflexivity | discriminate].
    + intros Heq.
      pose proof (atomic_syncTransaction full fuel _ _ _ Heq) as Hat.
      split.
      * intros Herr. destruct r; [discriminate | exact Hat | discriminate].
      * intros e -> He. rewrite He in Hat. exact Hat.
Qed.

Lemma syncTransaction_no_state (full : bool) (fuel : nat) (w : World Srv) (s' : Srv) :
  GetSyncState cl (w_srv w) = (None, s') ->
  syncTransaction cl ctx full fuel w =
    (Err (Wrap (ErrRemote "GetSyncState") "getting the sync state from the server"),
     mkWorld s' (w_calls w ++ [ReqGetSyncState]) (w_db w) (w_db w)).
Proof.
  intros Hst. unfold syncTransaction, Begin.
  unfold mbind at 1, M_bind at 1. cbv beta iota.
  unfold mbind at 1, M_bind at 1, wrapM at 1, call. simpl. rewrite Hst. reflexivity.
Qed.

Lemma syncTransaction_no_key (full : bool) (fuel : nat) (w : World Srv)
    (st : SyncState) (s' : Srv) :
  GetSyncState cl (w_srv w) = (Some st, s') ->
  (system (w_db w) !! SystemLastSyncAt = None ->
   syncTransaction cl ctx full fuel w =
     (Err (Wrap (Wrap ErrNoRows "querying last sync time") "getting the last sync time"),
      mkWorld s' (w_calls w ++ [ReqGetSyncState]) (w_db w) (w_db w))) /\
  (forall a, system (w_db w) !! SystemLastSyncAt = Some a ->
   system (w_db w) !! SystemLastMaxUSN = None ->
   syncTransaction cl ctx full fuel w =
     (Err (Wrap (Wrap ErrNoRows "querying last user max_usn") "getting the last max_usn"),
      mkWorld s' (w_calls w ++ [ReqGetSyncState]) (w_db w) (w_db w))).
Proof.
  intros Hst. split.
  - intros Ha. unfold syncTransaction, Begin.
    unfold mbind at 1, M_bind at 1. cbv beta iota.
    unfold mbind at 1, M_bind at 1, wrapM at 1, call. simpl. rewrite Hst.
    unfold mbind at 1, M_bind at 1, wrapM at 1, tx_read, getLastSyncAt, GetSystem.
    simpl. rewrite Ha. reflexivity.
  - intros a Ha Hu. unfold syncTransaction, Begin.
    unfold mbind at 1, M_bind at 1. cbv beta iota.
    unfold mbind at 1, M_bind at 1, wrapM at 1, call. simpl. rewrite Hst.
    unfold mbind at 1, M_bind at 1, wrapM at 1, tx_read, getLastSyncAt, GetSystem.
    simpl. rewrite Ha.
    unfold mbind at 1, M_bind at 1, wrapM at 1, getLastMaxUSN, GetSystem.
    simpl. rewrite Hu. reflexivity.
Qed.

End TransactionClaims.

Section TransactionTheorem.
Context {Srv : Type} (cl : Client Srv) (ctx : DnoteCtx).

(** C1, amended.  (1) The pull phase, the push phase and the follow-up pull
    write to the store only through the working copy of the one transaction
    that [newRun] opens: none of them changes the committed store, whatever
    their outcome.  (2) Before that transaction, [newRun] fails when not
    logged in, leaving the store alone, and runs the remote migrations,
    which may change the store: when they fail their error is returned and
    the store is as they left it, otherwise the transaction starts from the
    store they left.  (3) Whenever [newRun] returns an error, the committed
    store is the store the transaction was opened on; so it is when
    [newRun] returns normally after a commit that failed.  (4) A failure of
    [GetSyncState] or of a read of the system table is returned, wrapped,
    with nothing written.  (5) An error of the pull phase, of the push phase
    or of the follow-up step sync is returned, wrapped, after a rollback.
    (6) When these steps succeed [newRun] returns normally, and the source
    does not look at what [tx.Commit()] answers: the committed store is the
    working copy when the commit takes effect, and the store the
    transaction was opened on when it fails.  (7) Nor does the source look
    at the result of the count of dirty rows, which has no effect. *)
Theorem sync_transaction_atomic :
  ((forall (full : bool) (fuel : nat) (st : SyncState) (a u : Z),
      tx_only (pullPhase cl ctx full fuel st a u)) /\
   tx_only (sendChanges cl) /\
   (forall (fuel : nat) (isBehind : bool), tx_only (followUp cl ctx fuel isBehind)) /\
   (forall (full : bool) (fuel : nat), atomic cl (syncTransaction cl ctx full fuel))) /\
  ((forall (full : bool) (fuel : nat) (w : World Srv),
      SessionKey ctx = "" \/ CipherKey ctx = None ->
      newRun cl ctx full fuel w = (Err (ErrNew "not logged in"), w)) /\
   (forall (full : bool) (fuel : nat) (w : World Srv) (e : error) (s1 : Srv) (db1 : DB),
      SessionKey ctx <> "" -> CipherKey ctx <> None ->
      migrate_Run cl (w_srv w) (w_db w) = (Some e, (s1, db1)) ->
      newRun cl ctx full fuel w =
        (Err (Wrap e "running remote migrations"),
         mkWorld s1 (w_calls w) db1 (w_tx w))) /\
   (forall (full : bool) (fuel : nat) (w : World Srv) (s1 : Srv) (db1 : DB),
      SessionKey ctx <> "" -> CipherKey ctx <> None ->
      migrate_Run cl (w_srv w) (w_db w) = (None, (s1, db1)) ->
      newRun cl ctx full fuel w =
        syncTransaction cl ctx full fuel (mkWorld s1 (w_calls w) db1 (w_tx w)))) /\
  (forall (full : bool) (fuel : nat) (w w' : World Srv) (r : res unit),
     newRun cl ctx full fuel w = (r, w') ->
     (is_err r = true -> w_db w' = store_at_begin cl ctx w) /\
     (forall e, r = Ok tt -> Commit_err cl (w_srv w') = Some e ->
                w_db w' = store_at_begin cl ctx w)) /\
  ((forall (full : bool) (fuel : nat) (w : World Srv) (s' : Srv),
      GetSyncState cl (w_srv w) = (None, s') ->
      syncTransaction cl ctx full fuel w =
        (Err (Wrap (ErrRemote "GetSyncState") "getting the sync state from the server"),
         mkWorld s' (w_calls w ++ [ReqGetSyncState]) (w_db w) (w_db w))) /\
   (forall (full : bool) (fuel : nat) (w : World Srv) (st : SyncState) (s' : Srv),
      GetSyncState cl (w_srv w) = (Some st, s') ->
      system (w_db w) !! SystemLastSyncAt = None ->
      syncTransaction cl ctx full fuel w =
        (Err (Wrap (Wrap ErrNoRows "querying last sync time") "getting the last sync time"),
         mkWorld s' (w_calls w ++ [ReqGetSyncState]) (w_db w) (w_db w))) /\
   (forall (full : bool) (fuel : nat) (w : World Srv) (st : SyncState) (s' : Srv) (a : Z),
      GetSyncState cl (w_srv w) = (Some st, s') ->
      system (w_db w) !! SystemLastSyncAt = Some a ->
      system (w_db w) !! SystemLastMaxUSN = None ->
      syncTransaction cl ctx full fuel w =
        (Err (Wrap (Wrap ErrNoRows "querying last user max_usn")
                "getting the last max_usn"),
         mkWorld s' (w_calls w ++ [ReqGetSyncState]) (w_db w) (w_db w)))) /\
  (forall (full : bool) (fuel : nat) (w : World Srv) (st : SyncState) (s' : Srv) (a u : Z),
     GetSyncState cl (w_srv w) = (Some st, s') ->
     system (w_db w) !! SystemLastSyncAt = Some a ->
     system (w_db w) !! SystemLastMaxUSN = Some u ->
     let w1 := mkWorld s' (w_calls w ++ [ReqGetSyncState]) (w_db w) (w_db w) in
     (forall e w2,
        pullPhase cl ctx full fuel st a u w1 = (Err e, w2) ->
        syncTransaction cl ctx full fuel w =
          (Err (Wrap e "syncing changes from the server"),
           mkWorld (w_srv w2) (w_calls w2) (w_db w) (w_db w))) /\
     (forall e w2 w3,
        pullPhase cl ctx full fuel st a u w1 = (Ok tt, w2) ->
        sendChanges cl w2 = (Err e, w3) ->
        syncTransaction cl ctx full fuel w =
          (Err (Wrap e "sending changes"),
           mkWorld (w_srv w3) (w_calls w3) (w_db w) (w_db w))) /\
     (forall e v w2 w3 w4,
        pullPhase cl ctx full fuel st a u w1 = (Ok tt, w2) ->
        sendChanges cl w2 = (Ok true, w3) ->
        system (w_tx w3) !! SystemLastMaxUSN = Some v ->
        stepSync cl ctx fuel v w3 = (Err e, w4) ->
        syncTransaction cl ctx full fuel w =
          (Err (Wrap e "performing the follow-up step sync"),
           mkWorld (w_srv w4) (w_calls w4) (w_db w) (w_db w))) /\
     (forall w2 w3,
        pullPhase cl ctx full fuel st a u w1 = (Ok tt, w2) ->
        sendChanges cl w2 = (Ok false, w3) ->
        syncTransaction cl ctx full fuel w =
          (Ok tt,
           match Commit_err cl (w_srv w3) with
           | None => mkWorld (w_srv w3) (w_calls w3) (w_tx w3) (w_tx w3)
           | Some _ => mkWorld (w_srv w3) (w_calls w3) (w_db w) (w_db w)
           end)) /\
     (forall v w2 w3 w4,
        pullPhase cl ctx full fuel st a u w1 = (Ok tt, w2) ->
        sendChanges cl w2 = (Ok true, w3) ->
        system (w_tx w3) !! SystemLastMaxUSN = Some v ->
        stepSync cl ctx fuel v w3 = (Ok tt, w4) ->
        syncTransaction cl ctx full fuel w =
          (Ok tt,
           match Commit_err cl (w_srv w4) with
           | None => mkWorld (w_srv w4) (w_calls w4) (w_tx w4) (w_tx w4)
           | Some _ => mkWorld (w_srv w4) (w_calls w4) (w_db w) (w_db w)
           end))) /\
  (forall (w : World Srv), unchecked (countDirty cl) w = (Ok tt, w)).
Proof.
  split.
  { split; [exact (tx_only_pullPhase cl ctx)|].
    split; [exact (tx_only_sendChanges cl)|].
    split; [exact (tx_only_followUp cl ctx)|].
    exact (atomic_syncTransaction cl ctx). }
  split.
  { split; [exact (newRun_logged_out cl ctx)|].
    split; [exact (newRun_migration_fails cl ctx)|].
    exact (newRun_migration_done cl ctx). }
  split; [exact (newRun_keeps_store cl ctx)|].
  split.
  { split; [exact (syncTransaction_no_state cl ctx)|]. split.
    - intros full fuel w st s' Hst.
      exact (proj1 (syncTransaction_no_key cl ctx full fuel w st s' Hst)).
    - intros full fuel w st s' a Hst.
      exact (proj2 (syncTransaction_no_key cl ctx full fuel w st s' Hst) a). }
  split; [|exact (unchecked_countDirty cl)].
  intros full fuel w st s' a u Hst Ha Hu w1.
  pose proof (syncTransaction_reads cl ctx full fuel w st s' a u Hst Ha Hu) as Hrun.
  fold w1 in Hrun.
  split; [|split; [|split; [|split]]].
  - intros e w2 Hpull. rewrite Hrun.
    unfold mbind at 1, M_bind at 1.
    rewrite (orRollback_err _ _ _ _ _ Hpull).
    destruct (tx_only_pullPhase cl ctx _ _ _ _ _ _ _ _ Hpull) as (Hd & _).
    simpl in Hd. rewrite Hd. reflexivity.
  - intros e w2 w3 Hpull Hsend. rewrite Hrun.
    unfold mbind at 1, M_bind at 1.
    rewrite (orRollback_ok _ _ _ _ _ Hpull).
    unfold mbind at 1, M_bind at 1.
    rewrite (orRollback_err _ _ _ _ _ Hsend).
    destruct (tx_only_pullPhase cl ctx _ _ _ _ _ _ _ _ Hpull) as (Hd & _).
    destruct (tx_only_sendChanges cl _ _ _ Hsend) as (Hd' & _).
    simpl in Hd. rewrite Hd', Hd. reflexivity.
  - intros e v w2 w3 w4 Hpull Hsend Hv Hstep. rewrite Hrun.
    unfold mbind at 1, M_bind at 1.
    rewrite (orRollback_ok _ _ _ _ _ Hpull).
    unfold mbind at 1, M_bind at 1.
    rewrite (orRollback_ok _ _ _ _ _ Hsend).
    unfold mbind at 1, M_bind at 1, followUp.
    unfold mbind at 1, M_bind at 1, orRollback at 1, tx_read, getLastMaxUSN, GetSystem.
    rewrite Hv. rewrite (orRollback_err _ _ _ _ _ Hstep).
    destruct (tx_only_pullPhase cl ctx _ _ _ _ _ _ _ _ Hpull) as (Hd & _).
    destruct (tx_only_sendChanges cl _ _ _ Hsend) as (Hd' & _).
    destruct (tx_only_stepSync cl ctx _ _ _ _ _ Hstep) as (Hd'' & _).
    simpl in Hd. rewrite Hd'', Hd', Hd. reflexivity.
  - intros w2 w3 Hpull Hsend. rewrite Hrun.
    unfold mbind at 1, M_bind at 1.
    rewrite (orRollback_ok _ _ _ _ _ Hpull).
    unfold mbind at 1, M_bind at 1.
    rewrite (orRollback_ok _ _ _ _ _ Hsend).
    unfold mbind at 1, M_bind at 1, followUp, mret, M_ret.
    rewrite unchecked_Commit.
    destruct (tx_only_pullPhase cl ctx _ _ _ _ _ _ _ _ Hpull) as (Hd & _).
    destruct (tx_only_sendChanges cl _ _ _ Hsend) as (Hd' & _).
    simpl in Hd. rewrite Hd', Hd. reflexivity.
  - intros v w2 w3 w4 Hpull Hsend Hv Hstep. rewrite Hrun.
    unfold mbind at 1, M_bind at 1.
    rewrite (orRollback_ok _ _ _ _ _ Hpull).
    unfold mbind at 1, M_bind at 1.
    rewrite (orRollback_ok _ _ _ _ _ Hsend).
    unfold mbind at 1, M_bind at 1, followUp.
    unfold mbind at 1, M_bind at 1, orRollback at 1, tx_read, getLastMaxUSN, GetSystem.
    rewrite Hv. rewrite (orRollback_ok _ _ _ _ _ Hstep).
    rewrite unchecked_Commit.
    destruct (tx_only_pullPhase cl ctx _ _ _ _ _ _ _ _ Hpull) as (Hd & _).
    destruct (tx_only_sendChanges cl _ _ _ Hsend) as (Hd' & _).
    destruct (tx_only_stepSync cl ctx _ _ _ _ _ Hstep) as (Hd'' & _).
    simpl in Hd. rewrite Hd'', Hd', Hd. reflexivity.
Qed.

End TransactionTheorem.

Lemma sync_transaction_atomic_witness :
  is_err (newRun ex_client ex_ctx false 3 (ex_world ex_script_s5 ex_tx_push)).1 = true /\
  w_db (newRun ex_client ex_ctx false 3 (ex_world ex_script_s5 ex_tx_push)).2 = ex_tx_push.
Proof.
  assert (Herr : is_err (newRun ex_client ex_ctx false 3
                           (ex_world ex_script_s5 ex_tx_push)).1 = true)
    by (vm_compute; reflexivity).
  split; [exact Herr|].
  destruct (sync_transaction_atomic ex_client ex_ctx) as (_ & _ & Hkeep & _).
  exact (proj1 (Hkeep false 3%nat (ex_world ex_script_s5 ex_tx_push) _ _
                  (surjective_pairing _)) Herr).
Defined.

(** C1, as stated, fails.  The remote migrations of the command run before
    its transaction and commit on their own: here migration [rm1] gives the
    book "js" the server's uuid, then [GetSyncState] fails; [newRun] returns
    the error, and the committed store is not the store the command started
    with.  Besides, the command does not check the result of [tx.Commit()]:
    here the engine refuses the commit after [newRun] has created the local
    book "js" on the server; the commit returns an error and [newRun]
    returns normally, the store as it was, the book still unsent. *)
Lemma newRun_store_counterexample :
  (is_err (newRun ex_client_rm1 ex_ctx false 3
             (ex_world (mkScript None [] []) ex_tx_rm1)).1 = true /\
   books (w_db (newRun ex_client_rm1 ex_ctx false 3
                  (ex_world (mkScript None [] []) ex_tx_rm1)).2) =
     [mkBook "srv-js" "js" 0 false false; mkBook "old-go" "go" 0 false false] /\
   w_db (newRun ex_client_rm1 ex_ctx false 3
           (ex_world (mkScript None [] []) ex_tx_rm1)).2 <> ex_tx_rm1) /\
  ((Commit ex_client_locked
      (mkWorld (mkScript (Some (mkSyncState 500 41 2000)) [] [])
         [ReqGetSyncState; ReqCreateBook "js"] ex_tx_push ex_tx_push)).1
     = Err (ErrNew "database is locked") /\
   newRun ex_client_locked ex_ctx false 3 (ex_world ex_script_s1 ex_tx_push) =
     (Ok tt,
      mkWorld (mkScript (Some (mkSyncState 500 41 2000)) [] [])
        [ReqGetSyncState; ReqCreateBook "js"] ex_tx_push ex_tx_push)).
Proof.
  split.
  - split; [vm_compute; reflexivity|]. split; [vm_compute; reflexivity|].
    intros Heq. apply (f_equal books) in Heq. vm_compute in Heq. discriminate.
  - split; [reflexivity | vm_compute; reflexivity].
Qed.

(** ** The stored [last_max_usn] *)


Section UsnClaims.
Context {Srv : Type} (cl : Client Srv) (ctx : DnoteCtx).

Lemma processFragments_from_MaxUSN (fragments : list SyncFragment) (acc sl : syncList) :
  processFragments_from cl ctx fragments acc = Ok sl ->
  sl_MaxUSN sl = foldl Z.max (sl_MaxUSN acc) (FragMaxUSN <$> fragments).
Proof.
  revert acc. induction fragments as [|f rest IH]; intros acc; simpl.
  - intros Heq. inversion Heq. reflexivity.
  - destruct (processNotes cl ctx (Notes f) (sl_Notes acc)) as [ns|e|]; try discriminate.
    destruct (processBooks cl ctx (Books f) (sl_Books acc)) as [bs|e|]; try discriminate.
    intros Hrest. apply IH in Hrest. rewrite Hrest. simpl. f_equal.
    destruct (decide (FragMaxUSN f > sl_MaxUSN acc)); lia.
Qed.

Lemma getSyncList_MaxUSN (fuel : nat) (a : Z) (w w' : World Srv) (sl : syncList) :
  getSyncList cl ctx fuel a w = (Ok sl, w') ->
  exists fragments,
    getSyncFragments cl fuel a w = (Ok fragments, w') /\
    sl_MaxUSN sl = max_FragMaxUSN fragments.
Proof.
  unfold getSyncList. intros Hrun.
  apply bind_ok_inv in Hrun as (frags & w1 & Hfr & Hp).
  apply wrapM_ok_inv in Hfr. apply wrapM_ok_inv in Hp.
  inversion Hp as [[Hproc Hw]]. subst w1.
  exists frags. split; [exact Hfr|].
  exact (processFragments_from_MaxUSN frags sl_empty sl Hproc).
Qed.

Lemma saveSyncState_lookup (tx : DB) (t usn : Z) :
  system (saveSyncState tx t usn) !! SystemLastMaxUSN = Some usn.
Proof.
  unfold saveSyncState, updateLastSyncAt, updateLastMaxUSN, UpdateSystem. simpl.
  rewrite lookup_insert_ne by discriminate. apply lookup_insert_eq.
Qed.

Lemma stepSync_saves (fuel : nat) (a : Z) (w w' : World Srv) :
  stepSync cl ctx fuel a w = (Ok tt, w') ->
  exists fragments w1,
    getSyncFragments cl fuel a w = (Ok fragments, w1) /\
    system (w_tx w') !! SystemLastMaxUSN = Some (max_FragMaxUSN fragments).
Proof.
  unfold stepSync. intros Hrun.
  apply bind_ok_inv in Hrun as (sl & w1 & Hlist & Hrun).
  apply wrapM_ok_inv in Hlist.
  apply getSyncList_MaxUSN in Hlist as (frags & Hfr & Hmax).
  apply bind_ok_inv in Hrun as ([] & w2 & _ & Hrun).
  apply bind_ok_inv in Hrun as ([] & w3 & _ & Hrun).
  apply bind_ok_inv in Hrun as ([] & w4 & _ & Hrun).
  apply bind_ok_inv in Hrun as ([] & w5 & _ & Hrun).
  inversion Hrun. simpl. exists frags, w1. split; [exact Hfr|].
  rewrite <- Hmax. apply saveSyncState_lookup.
Qed.

Lemma fullSync_saves (fuel : nat) (w w' : World Srv) :
  fullSync cl ctx fuel w = (Ok tt, w') ->
  exists fragments w1,
    getSyncFragments cl fuel 0 w = (Ok fragments, w1) /\
    system (w_tx w') !! SystemLastMaxUSN = Some (max_FragMaxUSN fragments).
Proof.
  unfold fullSync. intros Hrun.
  apply bind_ok_inv in Hrun as (sl & w1 & Hlist & Hrun).
  apply wrapM_ok_inv in Hlist.
  apply getSyncList_MaxUSN in Hlist as (frags & Hfr & Hmax).
  apply bind_ok_inv in Hrun as ([] & w2 & _ & Hrun).
  apply bind_ok_inv in Hrun as ([] & w3 & _ & Hrun).
  apply bind_ok_inv in Hrun as ([] & w4 & _ & Hrun).
  apply bind_ok_inv in Hrun as ([] & w5 & _ & Hrun).
  apply bind_ok_inv in Hrun as ([] & w6 & _ & Hrun).
  apply bind_ok_inv in Hrun as ([] & w7 & _ & Hrun).
  inversion Hrun. simpl. exists frags, w1. split; [exact Hfr|].
  rewrite <- Hmax. apply saveSyncState_lookup.
Qed.

Lemma acked_usn_ge (v respUSN : Z) :
  - 2 ^ 63 <= v < 2 ^ 63 -> 0 <= respUSN -> v <= acked_usn v respUSN.
Proof.
  intros Hv Hr. unfold acked_usn.
  destruct (decide (respUSN = add64 v 1)) as [Heq|_]; [|lia].
  destruct (decide (v = 2 ^ 63 - 1)) as [Hmax|Hlt].
  - exfalso. subst v. rewrite Heq in Hr. vm_compute in Hr. apply Hr. reflexivity.
  - rewrite add64_succ by lia. lia.
Qed.

End UsnClaims.

(** C9, as stated, fails: the store has committed [last_max_usn = 41]; a
    full sync against a server whose list is empty (one final fragment,
    [FragMaxUSN = 0]) succeeds, and [saveSyncState] commits
    [last_max_usn = 0]. *)
Lemma last_max_usn_decrease_counterexample :
  system ex_tx_synced !! SystemLastMaxUSN = Some 41 /\
  (newRun ex_client ex_ctx true 3 (ex_world ex_script_empty ex_tx_synced)).1 = Ok tt /\
  system (w_db (newRun ex_client ex_ctx true 3 (ex_world ex_script_empty ex_tx_synced)).2)
    !! SystemLastMaxUSN = Some 0.
Proof.
  split; [reflexivity|]. split; vm_compute; reflexivity.
Qed.

Section UsnTheorem.
Context {Srv : Type} (cl : Client Srv) (ctx : DnoteCtx).

(** C9, amended. The two writers of [last_max_usn] store the following.
    The push-phase advancement, on a stored value [v], stores [v + 1] or
    leaves [v]: the stored value does not decrease (for [v] a Go [int] and a
    non-negative response USN).  [saveSyncState] after a successful step or
    full sync stores the [MaxUSN] of the pulled list, which is the largest
    [FragMaxUSN] the server reported in that pull and 0 when none is
    positive, whatever the stored value was; it is at least the stored value
    exactly when the server reported one that large. *)
Theorem last_max_usn_writes :
  (forall (respUSN : Z) (isBehind : bool) (w : World Srv) (v : Z),
     system (w_tx w) !! SystemLastMaxUSN = Some v ->
     exists w',
       ackUSN respUSN isBehind w = (Ok (acked_behind v respUSN isBehind), w') /\
       system (w_tx w') !! SystemLastMaxUSN = Some (acked_usn v respUSN) /\
       (acked_usn v respUSN = v \/ acked_usn v respUSN = add64 v 1) /\
       (- 2 ^ 63 <= v < 2 ^ 63 -> 0 <= respUSN -> v <= acked_usn v respUSN)) /\
  (forall (fuel : nat) (a : Z) (w w' : World Srv),
     stepSync cl ctx fuel a w = (Ok tt, w') ->
     exists fragments w1,
       getSyncFragments cl fuel a w = (Ok fragments, w1) /\
       system (w_tx w') !! SystemLastMaxUSN = Some (max_FragMaxUSN fragments)) /\
  (forall (fuel : nat) (w w' : World Srv),
     fullSync cl ctx fuel w = (Ok tt, w') ->
     exists fragments w1,
       getSyncFragments cl fuel 0 w = (Ok fragments, w1) /\
       system (w_tx w') !! SystemLastMaxUSN = Some (max_FragMaxUSN fragments)) /\
  (forall (fragments : list SyncFragment),
     0 <= max_FragMaxUSN fragments /\
     (forall f, f ∈ fragments -> FragMaxUSN f <= max_FragMaxUSN fragments) /\
     (max_FragMaxUSN fragments = 0 \/
      exists f, f ∈ fragments /\ FragMaxUSN f = max_FragMaxUSN fragments)).
Proof.
  repeat apply conj.
  - intros respUSN isBehind w v Hv.
    destruct (ackUSN_result respUSN isBehind w v Hv) as (w' & Hack & Hsys & _).
    exists w'. split; [exact Hack|]. split; [exact Hsys|]. split.
    + unfold acked_usn. destruct (decide (respUSN = add64 v 1)); auto.
    + apply acked_usn_ge.
  - exact (stepSync_saves cl ctx).
  - exact (fullSync_saves cl ctx).
  - intros fragments. unfold max_FragMaxUSN.
    assert (Hgen : forall (l : list Z) (m : Z),
              m <= foldl Z.max m l /\
              (forall x, x ∈ l -> x <= foldl Z.max m l) /\
              (foldl Z.max m l = m \/ foldl Z.max m l ∈ l)).
    { induction l as [|x l IH]; intros m; simpl.
      - split; [lia|]. split; [intros x Hx; inversion Hx | left; reflexivity].
      - destruct (IH (Z.max m x)) as (Hge & Hall & Hor).
        split; [lia|]. split.
        + intros y Hy. apply elem_of_cons in Hy as [->|Hy]; [lia | exact (Hall y Hy)].
        + destruct Hor as [Heq|Hin].
          * destruct (Z.max_spec m x) as [[_ Hm]|[_ Hm]].
            -- right. rewrite Heq, Hm. left.
            -- left. rewrite Heq, Hm. reflexivity.
          * right. right. exact Hin. }
    destruct (Hgen (FragMaxUSN <$> fragments) 0) as (Hge & Hall & Hor).
    split; [exact Hge|]. split.
    + intros f Hf. apply Hall. apply list_elem_of_fmap. exists f. auto.
    + destruct Hor as [Hz|Hin]; [left; exact Hz|].
      right. apply list_elem_of_fmap in Hin as (f & Hf & Hin). exists f. auto.
Qed.

End UsnTheorem.

Lemma last_max_usn_writes_witness :
  exists w',
    ackUSN 42 false (ex_world (mkScript None [] []) ex_tx_push) = (Ok false, w') /\
    system (w_tx w') !! SystemLastMaxUSN = Some 42.
Proof.
  destruct (last_max_usn_writes ex_client ex_ctx) as (Hack & _).
  destruct (Hack 42 false (ex_world (mkScript None [] []) ex_tx_push) 41 eq_refl)
    as (w' & Hrun & Hsys & _).
  exists w'. split; [exact Hrun | exact Hsys].
Defined.

(** ** Full-sync cleanup *)

Lemma note_unaccounted_iff (sl : syncList) (r : Note) :
  negb (checkNoteInList (n_UUID r) sl)
    && (negb (n_Dirty r) || negb (bool_decide (n_USN r = 0))) = true
  <-> ~ note_accounted sl r.
Proof.
  unfold note_accounted.
  destruct (checkNoteInList (n_UUID r) sl); simpl.
  - split; [discriminate | intros H; exfalso; apply H; left; reflexivity].
  - destruct (n_Dirty r); simpl.
    + destruct (bool_decide_reflect (n_USN r = 0)) as [Hz|Hnz]; simpl.
      * split; [discriminate | intros H; exfalso; apply H; right; auto].
      * split; [|reflexivity]. intros _ [Hc|[_ Hc]]; [discriminate | contradiction].
    + split; [|reflexivity]. intros _ [Hc|[Hc _]]; discriminate.
Qed.

Lemma book_unaccounted_iff (sl : syncList) (r : Book) :
  negb (checkBookInList (b_UUID r) sl)
    && (negb (b_Dirty r) || negb (bool_decide (b_USN r = 0))) = true
  <-> ~ book_accounted sl r.
Proof.
  unfold book_accounted.
  destruct (checkBookInList (b_UUID r) sl); simpl.
  - split; [discriminate | intros H; exfalso; apply H; left; reflexivity].
  - destruct (b_Dirty r); simpl.
    + destruct (bool_decide_reflect (b_USN r = 0)) as [Hz|Hnz]; simpl.
      * split; [discriminate | intros H; exfalso; apply H; right; auto].
      * split; [|reflexivity]. intros _ [Hc|[_ Hc]]; [discriminate | contradiction].
    + split; [|reflexivity]. intros _ [Hc|[Hc _]]; discriminate.
Qed.

Lemma note_accounted_dec (sl : syncList) (r : Note) :
  note_accounted sl r \/ ~ note_accounted sl r.
Proof.
  destruct (negb (checkNoteInList (n_UUID r) sl)
            && (negb (n_Dirty r) || negb (bool_decide (n_USN r = 0)))) eqn:E.
  - right. apply note_unaccounted_iff. exact E.
  - left. destruct (checkNoteInList (n_UUID r) sl) eqn:Hc; [left; exact Hc|].
    simpl in E. apply orb_false_iff in E as [Hd Hu].
    apply negb_false_iff in Hd. apply negb_false_iff in Hu.
    apply bool_decide_eq_true in Hu. right. auto.
Qed.

Lemma book_accounted_dec (sl : syncList) (r : Book) :
  book_accounted sl r \/ ~ book_accounted sl r.
Proof.
  destruct (negb (checkBookInList (b_UUID r) sl)
            && (negb (b_Dirty r) || negb (bool_decide (b_USN r = 0)))) eqn:E.
  - right. apply book_unaccounted_iff. exact E.
  - left. destruct (checkBookInList (b_UUID r) sl) eqn:Hc; [left; exact Hc|].
    simpl in E. apply orb_false_iff in E as [Hd Hu].
    apply negb_false_iff in Hd. apply negb_false_iff in Hu.
    apply bool_decide_eq_true in Hu. right. auto.
Qed.

Lemma cleanLocalNotes_fold (sl : syncList) (rows : list Note) (tx : DB) :
  books (foldl (cleanLocalNotes_body sl) tx rows) = books tx /\
  system (foldl (cleanLocalNotes_body sl) tx rows) = system tx /\
  forall n, n ∈ notes (foldl (cleanLocalNotes_body sl) tx rows) <->
            n ∈ notes tx /\
            forall r, r ∈ rows -> n_UUID r = n_UUID n -> note_accounted sl r.
Proof.
  revert tx. induction rows as [|r rows IH]; intros tx; simpl.
  - split; [reflexivity|]. split; [reflexivity|]. intros n. split.
    + intros Hn. split; [exact Hn|]. intros r Hr. inversion Hr.
    + intros [Hn _]. exact Hn.
  - destruct (IH (cleanLocalNotes_body sl tx r)) as (Hb & Hs & Hn).
    assert (Hstep : books (cleanLocalNotes_body sl tx r) = books tx /\
                    system (cleanLocalNotes_body sl tx r) = system tx /\
                    forall n, n ∈ notes (cleanLocalNotes_body sl tx r) <->
                      n ∈ notes tx /\ (n_UUID r = n_UUID n -> note_accounted sl r)).
    { unfold cleanLocalNotes_body. simpl.
      destruct (negb (checkNoteInList (n_UUID r) sl)
                && (negb (n_Dirty r) || negb (bool_decide (n_USN r = 0)))) eqn:E.
      - split; [reflexivity|]. split; [reflexivity|]. intros n. simpl.
        rewrite (sql_delete_elem (fun x => n_UUID x = n_UUID r)).
        apply note_unaccounted_iff in E. split.
        + intros [Hn' Hne]. split; [exact Hn'|]. intros Heq. exfalso. apply Hne.
          symmetry. exact Heq.
        + intros [Hn' Himp]. split; [exact Hn'|]. intros Heq. apply E, Himp.
          symmetry. exact Heq.
      - split; [reflexivity|]. split; [reflexivity|]. intros n. split.
        + intros Hn'. split; [exact Hn'|]. intros _.
          destruct (note_accounted_dec sl r) as [Ha|Hna]; [exact Ha|].
          apply note_unaccounted_iff in Hna. congruence.
        + intros [Hn' _]. exact Hn'. }
    destruct Hstep as (Hb1 & Hs1 & Hn1).
    split; [congruence|]. split; [congruence|]. intros n.
    rewrite Hn, Hn1. split.
    + intros [[Hin Hr] Hrest]. split; [exact Hin|].
      intros r' Hr' Heq. apply elem_of_cons in Hr' as [->|Hr'].
      * exact (Hr Heq).
      * exact (Hrest r' Hr' Heq).
    + intros [Hin Hall]. split; [split; [exact Hin|]|].
      * intros Heq. apply (Hall r); [left | exact Heq].
      * intros r' Hr' Heq. apply (Hall r'); [right; exact Hr' | exact Heq].
Qed.

Lemma cleanLocalBooks_fold (sl : syncList) (rows : list Book) (tx : DB) :
  notes (foldl (cleanLocalBooks_body sl) tx rows) = notes tx /\
  system (foldl (cleanLocalBooks_body sl) tx rows) = system tx /\
  forall b, b ∈ books (foldl (cleanLocalBooks_body sl) tx rows) <->
            b ∈ books tx /\
            forall r, r ∈ rows -> b_UUID r = b_UUID b -> book_accounted sl r.
Proof.
  revert tx. induction rows as [|r rows IH]; intros tx; simpl.
  - split; [reflexivity|]. split; [reflexivity|]. intros n. split.
    + intros Hn. split; [exact Hn|]. intros r Hr. inversion Hr.
    + intros [Hn _]. exact Hn.
  - destruct (IH (cleanLocalBooks_body sl tx r)) as (Hb & Hs & Hn).
    assert (Hstep : notes (cleanLocalBooks_body sl tx r) = notes tx /\
                    system (cleanLocalBooks_body sl tx r) = system tx /\
                    forall b, b ∈ books (cleanLocalBooks_body sl tx r) <->
                      b ∈ books tx /\ (b_UUID r = b_UUID b -> book_accounted sl r)).
    { unfold cleanLocalBooks_body. simpl.
      destruct (negb (checkBookInList (b_UUID r) sl)
                && (negb (b_Dirty r) || negb (bool_decide (b_USN r = 0)))) eqn:E.
      - split; [reflexivity|]. split; [reflexivity|]. intros n. simpl.
        rewrite (sql_delete_elem (fun x => b_UUID x = b_UUID r)).
        apply book_unaccounted_iff in E. split.
        + intros [Hn' Hne]. split; [exact Hn'|]. intros Heq. exfalso. apply Hne.
          symmetry. exact Heq.
        + intros [Hn' Himp]. split; [exact Hn'|]. intros Heq. apply E, Himp.
          symmetry. exact Heq.
      - split; [reflexivity|]. split; [reflexivity|]. intros n. split.
        + intros Hn'. split; [exact Hn'|]. intros _.
          destruct (book_accounted_dec sl r) as [Ha|Hna]; [exact Ha|].
          apply book_unaccounted_iff in Hna. congruence.
        + intros [Hn' _]. exact Hn'. }
    destruct Hstep as (Hb1 & Hs1 & Hn1).
    split; [congruence|]. split; [congruence|]. intros n.
    rewrite Hn, Hn1. split.
    + intros [[Hin Hr] Hrest]. split; [exact Hin|].
      intros r' Hr' Heq. apply elem_of_cons in Hr' as [->|Hr'].
      * exact (Hr Heq).
      * exact (Hrest r' Hr' Heq).
    + intros [Hin Hall]. split; [split; [exact Hin|]|].
      * intros Heq. apply (Hall r); [left | exact Heq].
      * intros r' Hr' Heq. apply (Hall r'); [right; exact Hr' | exact Heq].
Qed.

Lemma NoDup_fmap_eq {A B} (f : A -> B) (l : list A) (x y : A) :
  NoDup (f <$> l) -> x ∈ l -> y ∈ l -> f x = f y -> x = y.
Proof.
  induction l as [|a l IH]; simpl; intros Hnd Hx Hy Heq.
  - inversion Hx.
  - apply NoDup_cons in Hnd as [Hna Hnd].
    apply elem_of_cons in Hx as [->|Hx]; apply elem_of_cons in Hy as [->|Hy].
    + reflexivity.
    + exfalso. apply Hna. rewrite Heq. apply list_elem_of_fmap. exists y. auto.
    + exfalso. apply Hna. rewrite <- Heq. apply list_elem_of_fmap. exists x. auto.
    + exact (IH Hnd Hx Hy Heq).
Qed.

Lemma clean_all_accounted (sl : syncList) (tx : DB) :
  all_accounted sl (cleanLocalBooks (cleanLocalNotes tx sl) sl).
Proof.
  unfold cleanLocalBooks, cleanLocalNotes.
  destruct (cleanLocalNotes_fold sl (notes tx) tx) as (Hb1 & _ & Hn1).
  set (tx1 := foldl (cleanLocalNotes_body sl) tx (notes tx)) in *.
  destruct (cleanLocalBooks_fold sl (books tx1) tx1) as (Hn2 & _ & Hb2).
  split.
  - intros n Hn. rewrite Hn2 in Hn. apply Hn1 in Hn as [Hin Hall].
    exact (Hall n Hin eq_refl).
  - intros b Hb. apply Hb2 in Hb as [Hin Hall]. exact (Hall b Hin eq_refl).
Qed.

Lemma mergeNote_accounted (sl : syncList) (tx tx' : DB) (s : SyncFragNote) (l : Note) :
  checkNoteInList (fn_UUID s) sl = true ->
  mergeNote tx s l = Ok tx' ->
  all_accounted sl tx -> all_accounted sl tx'.
Proof.
  intros Hin Hm [Hn Hb]. unfold mergeNote in Hm.
  destruct (sql_query_row _ (books tx)) as [book|]; [|discriminate].
  destruct (b_Deleted book); [inversion Hm; subst; split; assumption|].
  destruct (n_Deleted l); inversion Hm; subst; clear Hm; (split; [|exact Hb]);
    simpl; intros n' Hn';
    apply (sql_update_elem (fun r => n_UUID r = fn_UUID s)) in Hn' as (r & Hr & ->);
    (destruct (decide (n_UUID r = fn_UUID s)) as [E|E]; [|exact (Hn r Hr)]);
    left; simpl; rewrite E; exact Hin.
Qed.

Lemma fullSyncNote_accounted (sl : syncList) (tx tx' : DB) (s : SyncFragNote) :
  checkNoteInList (fn_UUID s) sl = true ->
  fullSyncNote tx s = Ok tx' ->
  all_accounted sl tx -> all_accounted sl tx'.
Proof.
  intros Hin Hf Hacc. unfold fullSyncNote in Hf.
  destruct (sql_query_row _ (notes tx)) as [r|].
  - destruct (decide (fn_USN s > n_USN (scan_localNote r))).
    + destruct (mergeNote tx s (scan_localNote r)) as [tx1|e|] eqn:Hm;
        simpl in Hf; inversion Hf; subst.
      exact (mergeNote_accounted sl tx tx' s _ Hin Hm Hacc).
    + inversion Hf; subst. exact Hacc.
  - inversion Hf; subst. destruct Hacc as [Hn Hb]. split; [|exact Hb].
    simpl. intros n Hn'. apply elem_of_app in Hn' as [Hn'|Hn'].
    + exact (Hn n Hn').
    + apply list_elem_of_singleton in Hn'. subst n. left. exact Hin.
Qed.

Lemma mergeBook_accounted (sl : syncList) (tx tx' : DB) (b : SyncFragBook) (mode : Z) :
  checkBookInList (fb_UUID b) sl = true ->
  mergeBook tx b mode = Ok tx' ->
  all_accounted sl tx -> all_accounted sl tx'.
Proof.
  intros Hin Hm [Hn Hb]. unfold mergeBook in Hm.
  assert (Hren : forall newLabel r', 
            r' ∈ sql_update (fun r => b_Label r = fb_Label b)
                   (fun r => mkBook (b_UUID r) newLabel (b_USN r) true (b_Deleted r))
                   (books tx) ->
            book_accounted sl r').
  { intros newLabel r' Hr'.
    apply (sql_update_elem (fun r => b_Label r = fb_Label b)) in Hr' as (r & Hr & ->).
    destruct (decide (b_Label r = fb_Label b)); [|exact (Hb r Hr)].
    destruct (Hb r Hr) as [Hl|[_ Hu]]; [left; exact Hl | right; split; [reflexivity|exact Hu]]. }
  set (renamed := if decide (sql_count (fun r => b_Label r = fb_Label b) (books tx) > 0)
                  then _ else _) in Hm.
  assert (Hacc1 : forall tx1, renamed = Ok tx1 -> all_accounted sl tx1).
  { intros tx1. unfold renamed.
    destruct (decide (_ > 0)).
    - destruct (resolveLabel tx (fb_Label b)) as [newLabel|e|]; try discriminate.
      intros Heq. inversion Heq; subst. split; [exact Hn|]. simpl. apply Hren.
    - intros Heq. inversion Heq; subst. split; assumption. }
  destruct renamed as [tx1|e|]; try discriminate.
  destruct (Hacc1 tx1 eq_refl) as [Hn1 Hb1].
  destruct (decide (mode = modeInsert)).
  - inversion Hm; subst. split; [exact Hn1|]. simpl.
    intros r Hr. apply elem_of_app in Hr as [Hr|Hr]; [exact (Hb1 r Hr)|].
    apply list_elem_of_singleton in Hr. subst r. left. exact Hin.
  - destruct (decide (mode = modeUpdate)).
    + inversion Hm; subst. split; [exact Hn1|]. simpl.
      intros r' Hr'.
      apply (sql_update_elem (fun r => b_UUID r = fb_UUID b)) in Hr' as (r & Hr & ->).
      destruct (decide (b_UUID r = fb_UUID b)); [left; exact Hin | exact (Hb1 r Hr)].
    + inversion Hm; subst. split; assumption.
Qed.

Lemma fullSyncBook_accounted (sl : syncList) (tx tx' : DB) (b : SyncFragBook) :
  checkBookInList (fb_UUID b) sl = true ->
  fullSyncBook tx b = Ok tx' ->
  all_accounted sl tx -> all_accounted sl tx'.
Proof.
  intros Hin Hf Hacc. unfold fullSyncBook in Hf.
  destruct (sql_query_row _ (books tx)) as [r|].
  - destruct (decide (fb_USN b > b_USN r)).
    + destruct (mergeBook tx b modeUpdate) as [tx1|e|] eqn:Hm;
        simpl in Hf; inversion Hf; subst.
      exact (mergeBook_accounted sl tx tx' b _ Hin Hm Hacc).
    + inversion Hf; subst. exact Hacc.
  - destruct (mergeBook tx b modeInsert) as [tx1|e|] eqn:Hm;
      simpl in Hf; inversion Hf; subst.
    exact (mergeBook_accounted sl tx tx' b _ Hin Hm Hacc).
Qed.

Lemma syncDeleteNote_accounted (sl : syncList) (tx : DB) (noteUUID : string) :
  all_accounted sl tx -> all_accounted sl (syncDeleteNote tx noteUUID).
Proof.
  intros [Hn Hb]. unfold syncDeleteNote.
  destruct (sql_query_row _ (notes tx)) as [r|]; [|split; assumption].
  destruct (negb (n_Dirty r)); [|split; assumption].
  split; [|exact Hb]. simpl. intros n Hn'.
  apply (sql_delete_elem (fun r => n_UUID r = noteUUID)) in Hn' as [Hn' _].
  exact (Hn n Hn').
Qed.

Lemma syncDeleteBook_accounted (sl : syncList) (tx : DB) (bookUUID : string) :
  all_accounted sl tx -> all_accounted sl (syncDeleteBook tx bookUUID).
Proof.
  intros [Hn Hb]. unfold syncDeleteBook.
  destruct (sql_query_row _ (books tx)) as [r|]; [|split; assumption].
  destruct (b_Dirty r); [split; assumption|].
  destruct (negb (checkNotesPristine tx bookUUID)).
  - split; [exact Hn|]. simpl. intros b' Hb'.
    apply (sql_update_elem (fun r => b_UUID r = bookUUID)) in Hb' as (b0 & Hb0 & ->).
    destruct (decide (b_UUID b0 = bookUUID)); [|exact (Hb b0 Hb0)].
    destruct (Hb b0 Hb0) as [Hl|[_ Hu]];
      [left; exact Hl | right; split; [reflexivity | exact Hu]].
  - split; simpl.
    + intros n Hn'.
      apply (sql_delete_elem (fun r => n_BookUUID r = bookUUID)) in Hn' as [Hn' _].
      exact (Hn n Hn').
    + intros b' Hb'.
      apply (sql_delete_elem (fun r => b_UUID r = bookUUID)) in Hb' as [Hb' _].
      exact (Hb b' Hb').
Qed.

Section CleanupClaims.
Context {Srv : Type} (cl : Client Srv) (ctx : DnoteCtx).

Lemma processNotes_keyed (ns : list SyncFragNote) (m m' : gmap string SyncFragNote) :
  processNotes cl ctx ns m = Ok m' ->
  (forall k v, m !! k = Some v -> fn_UUID v = k) ->
  forall k v, m' !! k = Some v -> fn_UUID v = k.
Proof.
  revert m. induction ns as [|n ns IH]; intros m; simpl.
  - intros Heq. inversion Heq; subst. auto.
  - destruct (AesGcmDecrypt cl (cipherKey ctx) (fn_Body n)) as [body|]; [|discriminate].
    intros Hrest Hm. apply (IH _ Hrest).
    intros k v. rewrite lookup_insert.
    destruct (decide (fn_UUID n = k)) as [<-|Hne].
    + intros Heq. inversion Heq. reflexivity.
    + apply Hm.
Qed.

Lemma processBooks_keyed (bs : list SyncFragBook) (m m' : gmap string SyncFragBook) :
  processBooks cl ctx bs m = Ok m' ->
  (forall k v, m !! k = Some v -> fb_UUID v = k) ->
  forall k v, m' !! k = Some v -> fb_UUID v = k.
Proof.
  revert m. induction bs as [|b bs IH]; intros m; simpl.
  - intros Heq. inversion Heq; subst. auto.
  - destruct (AesGcmDecrypt cl (cipherKey ctx) (fb_Label b)) as [label|]; [|discriminate].
    intros Hrest Hm. apply (IH _ Hrest).
    intros k v. rewrite lookup_insert.
    destruct (decide (fb_UUID b = k)) as [<-|Hne].
    + intros Heq. inversion Heq. reflexivity.
    + apply Hm.
Qed.

Lemma processFragments_from_keyed (fragments : list SyncFragment) (acc sl : syncList) :
  processFragments_from cl ctx fragments acc = Ok sl -> keyed acc -> keyed sl.
Proof.
  revert acc. induction fragments as [|f rest IH]; intros acc; simpl.
  - intros Heq. inversion Heq; subst. auto.
  - destruct (processNotes cl ctx (Notes f) (sl_Notes acc)) as [ns|e|] eqn:Hns;
      try discriminate.
    destruct (processBooks cl ctx (Books f) (sl_Books acc)) as [bs|e|] eqn:Hbs;
      try discriminate.
    intros Hrest [Hkn Hkb]. apply (IH _ Hrest). split; simpl.
    + exact (processNotes_keyed _ _ _ Hns Hkn).
    + exact (processBooks_keyed _ _ _ Hbs Hkb).
Qed.

Lemma getSyncList_keyed (fuel : nat) (a : Z) (w w' : World Srv) (sl : syncList) :
  getSyncList cl ctx fuel a w = (Ok sl, w') -> keyed sl.
Proof.
  unfold getSyncList. intros Hrun.
  apply bind_ok_inv in Hrun as (frags & w1 & _ & Hp).
  apply wrapM_ok_inv in Hp. inversion Hp as [[Hproc Hw]].
  apply (processFragments_from_keyed _ _ _ Hproc).
  split; intros k v Hl; unfold sl_empty in Hl; simpl in Hl;
    rewrite lookup_empty in Hl; discriminate.
Qed.

Lemma keyed_note_in_list (sl : syncList) (s : SyncFragNote) :
  keyed sl -> s ∈ (map_to_list (sl_Notes sl)).*2 ->
  checkNoteInList (fn_UUID s) sl = true.
Proof.
  intros [Hk _] Hs. apply list_elem_of_fmap in Hs as ([k v] & -> & Hkv).
  apply elem_of_map_to_list in Hkv. simpl.
  rewrite (Hk k v Hkv). unfold checkNoteInList.
  destruct (decide (is_Some (sl_Notes sl !! k))) as [_|Hn]; [reflexivity|].
  exfalso. apply Hn. eauto.
Qed.

Lemma keyed_book_in_list (sl : syncList) (s : SyncFragBook) :
  keyed sl -> s ∈ (map_to_list (sl_Books sl)).*2 ->
  checkBookInList (fb_UUID s) sl = true.
Proof.
  intros [_ Hk] Hs. apply list_elem_of_fmap in Hs as ([k v] & -> & Hkv).
  apply elem_of_map_to_list in Hkv. simpl.
  rewrite (Hk k v Hkv). unfold checkBookInList.
  destruct (decide (is_Some (sl_Books sl !! k))) as [_|Hn]; [reflexivity|].
  exfalso. apply Hn. eauto.
Qed.

Lemma forM_preserves {A} (Q : World Srv -> Prop) (xs : list A) (g : A -> M Srv unit) :
  (forall x, x ∈ xs -> forall w w1, g x w = (Ok tt, w1) -> Q w -> Q w1) ->
  forall w w', forM_ xs g w = (Ok tt, w') -> Q w -> Q w'.
Proof.
  induction xs as [|x xs IH]; intros Hg w w'; simpl.
  - intros Heq. inversion Heq; subst. auto.
  - intros Hrun HQ. apply bind_ok_inv in Hrun as ([] & w1 & Hx & Hrest).
    apply (IH (fun y Hy => Hg y (list_elem_of_further _ _ _ Hy)) w1 w' Hrest).
    exact (Hg x (list_elem_of_here _ _) w w1 Hx HQ).
Qed.

Lemma tx_try_ok_inv (f : DB -> res DB) (c : string) (w w' : World Srv) :
  wrapM (tx_try f) c w = (Ok tt, w') ->
  exists tx', f (w_tx w) = Ok tx' /\ w_tx w' = tx'.
Proof.
  intros Hrun. apply wrapM_ok_inv in Hrun. unfold tx_try in Hrun.
  destruct (f (w_tx w)) as [tx'|e|]; inversion Hrun; subst.
  exists tx'. split; reflexivity.
Qed.

Lemma fullSync_all_accounted (fuel : nat) (w w' : World Srv) :
  fullSync cl ctx fuel w = (Ok tt, w') ->
  exists sl w1,
    getSyncList cl ctx fuel 0 w = (Ok sl, w1) /\
    all_accounted sl (w_tx w').
Proof.
  unfold fullSync. intros Hrun.
  apply bind_ok_inv in Hrun as (sl & w1 & Hlist & Hrun).
  apply wrapM_ok_inv in Hlist.
  pose proof (getSyncList_keyed _ _ _ _ _ Hlist) as Hkeyed.
  exists sl, w1. split; [exact Hlist|].
  apply bind_ok_inv in Hrun as ([] & w2 & Hc1 & Hrun).
  apply bind_ok_inv in Hrun as ([] & w3 & Hc2 & Hrun).
  apply bind_ok_inv in Hrun as ([] & w4 & Hnotes & Hrun).
  apply bind_ok_inv in Hrun as ([] & w5 & Hbooks & Hrun).
  apply bind_ok_inv in Hrun as ([] & w6 & Hxn & Hrun).
  apply bind_ok_inv in Hrun as ([] & w7 & Hxb & Hrun).
  inversion Hc1; subst w2; clear Hc1. inversion Hc2; subst w3; clear Hc2.
  assert (H3 : all_accounted sl (w_tx
            (mkWorld (w_srv w1) (w_calls w1) (w_db w1)
               (cleanLocalBooks (cleanLocalNotes (w_tx w1) sl) sl))))
    by (simpl; apply clean_all_accounted).
  assert (H4 : all_accounted sl (w_tx w4)).
  { revert H3. apply (forM_preserves (fun w => all_accounted sl (w_tx w)) _ _) with (2 := Hnotes).
    intros s Hs wa wb Hstep Hacc.
    apply tx_try_ok_inv in Hstep as (tx' & Hf & ->).
    exact (fullSyncNote_accounted sl _ _ s (keyed_note_in_list sl s Hkeyed Hs) Hf Hacc). }
  assert (H5 : all_accounted sl (w_tx w5)).
  { revert H4. apply (forM_preserves (fun w => all_accounted sl (w_tx w)) _ _) with (2 := Hbooks).
    intros s Hs wa wb Hstep Hacc.
    apply tx_try_ok_inv in Hstep as (tx' & Hf & ->).
    exact (fullSyncBook_accounted sl _ _ s (keyed_book_in_list sl s Hkeyed Hs) Hf Hacc). }
  assert (H6 : all_accounted sl (w_tx w6)).
  { revert H5. apply (forM_preserves (fun w => all_accounted sl (w_tx w)) _ _) with (2 := Hxn).
    intros u Hu wa wb Hstep Hacc. inversion Hstep; subst. simpl.
    apply syncDeleteNote_accounted. exact Hacc. }
  assert (H7 : all_accounted sl (w_tx w7)).
  { revert H6. apply (forM_preserves (fun w => all_accounted sl (w_tx w)) _ _) with (2 := Hxb).
    intros u Hu wa wb Hstep Hacc. inversion Hstep; subst. simpl.
    apply syncDeleteBook_accounted. exact Hacc. }
  inversion Hrun; subst. simpl. destruct H7 as [Hn Hb]. split; assumption.
Qed.

End CleanupClaims.

Section CleanupTheorem.
Context {Srv : Type} (cl : Client Srv) (ctx : DnoteCtx).

(** C7. A uuid is in the sync list when it is a key of the live map or a
    member of the expunged set.  [cleanLocalNotes] touches the note table
    only, and keeps exactly the rows such that every row with the same uuid
    is accounted for, that is, is in the list or is dirty with usn 0; when
    uuids are unique in the table these are exactly the rows in the list and
    the rows that are dirty with usn 0.  [cleanLocalBooks] does the same to
    the book table.  After a successful [fullSync] every note and every book
    of the working copy is in the pulled list or is dirty with usn 0. *)
Theorem full_sync_cleanup :
  (forall (sl : syncList) (u : string),
     (checkNoteInList u sl = true <->
        is_Some (sl_Notes sl !! u) \/ u ∈ sl_ExpungedNotes sl) /\
     (checkBookInList u sl = true <->
        is_Some (sl_Books sl !! u) \/ u ∈ sl_ExpungedBooks sl)) /\
  (forall (tx : DB) (sl : syncList),
     books (cleanLocalNotes tx sl) = books tx /\
     system (cleanLocalNotes tx sl) = system tx /\
     (forall n, n ∈ notes (cleanLocalNotes tx sl) <->
        n ∈ notes tx /\
        forall r, r ∈ notes tx -> n_UUID r = n_UUID n -> note_accounted sl r) /\
     (NoDup (n_UUID <$> notes tx) ->
      forall n, n ∈ notes (cleanLocalNotes tx sl) <->
        n ∈ notes tx /\
        (checkNoteInList (n_UUID n) sl = true \/ (n_Dirty n = true /\ n_USN n = 0)))) /\
  (forall (tx : DB) (sl : syncList),
     notes (cleanLocalBooks tx sl) = notes tx /\
     system (cleanLocalBooks tx sl) = system tx /\
     (forall b, b ∈ books (cleanLocalBooks tx sl) <->
        b ∈ books tx /\
        forall r, r ∈ books tx -> b_UUID r = b_UUID b -> book_accounted sl r) /\
     (NoDup (b_UUID <$> books tx) ->
      forall b, b ∈ books (cleanLocalBooks tx sl) <->
        b ∈ books tx /\
        (checkBookInList (b_UUID b) sl = true \/ (b_Dirty b = true /\ b_USN b = 0)))) /\
  (forall (fuel : nat) (w w' : World Srv),
     fullSync cl ctx fuel w = (Ok tt, w') ->
     exists sl w1,
       getSyncList cl ctx fuel 0 w = (Ok sl, w1) /\
       (forall n, n ∈ notes (w_tx w') ->
          checkNoteInList (n_UUID n) sl = true \/ (n_Dirty n = true /\ n_USN n = 0)) /\
       (forall b, b ∈ books (w_tx w') ->
          checkBookInList (b_UUID b) sl = true \/ (b_Dirty b = true /\ b_USN b = 0))).
Proof.
  split; [|split; [|split]].
  - intros sl u. split.
    + unfold checkNoteInList.
      destruct (decide (is_Some (sl_Notes sl !! u))) as [Hs|Hs];
        [split; auto|].
      destruct (decide (u ∈ sl_ExpungedNotes sl)) as [He|He]; [split; auto|].
      split; [discriminate | intros [H|H]; contradiction].
    + unfold checkBookInList.
      destruct (decide (is_Some (sl_Books sl !! u))) as [Hs|Hs];
        [split; auto|].
      destruct (decide (u ∈ sl_ExpungedBooks sl)) as [He|He]; [split; auto|].
      split; [discriminate | intros [H|H]; contradiction].
  - intros tx sl. unfold cleanLocalNotes.
    destruct (cleanLocalNotes_fold sl (notes tx) tx) as (Hb & Hs & Hn).
    split; [exact Hb|]. split; [exact Hs|]. split; [exact Hn|].
    intros Hnd n. rewrite Hn. split.
    + intros [Hin Hall]. split; [exact Hin|]. exact (Hall n Hin eq_refl).
    + intros [Hin Hacc]. split; [exact Hin|]. intros r Hr Heq.
      rewrite (NoDup_fmap_eq n_UUID (notes tx) r n Hnd Hr Hin Heq). exact Hacc.
  - intros tx sl. unfold cleanLocalBooks.
    destruct (cleanLocalBooks_fold sl (books tx) tx) as (Hb & Hs & Hn).
    split; [exact Hb|]. split; [exact Hs|]. split; [exact Hn|].
    intros Hnd n. rewrite Hn. split.
    + intros [Hin Hall]. split; [exact Hin|]. exact (Hall n Hin eq_refl).
    + intros [Hin Hacc]. split; [exact Hin|]. intros r Hr Heq.
      rewrite (NoDup_fmap_eq b_UUID (books tx) r n Hnd Hr Hin Heq). exact Hacc.
  - intros fuel w w' Hrun.
    destruct (fullSync_all_accounted cl ctx fuel w w' Hrun) as (sl & w1 & Hl & Hn & Hb).
    exists sl, w1. split; [exact Hl|]. split; [exact Hn | exact Hb].
Qed.

End CleanupTheorem.

Lemma full_sync_cleanup_witness :
  mkNote "N3" "B1" "new" 1 0 0 false false true
    ∈ notes (cleanLocalNotes ex_tx_orphans ex_list_n1) /\
  mkNote "N2" "B1" "orphan" 1 0 8 false false false
    ∉ notes (cleanLocalNotes ex_tx_orphans ex_list_n1).
Proof.
  destruct (full_sync_cleanup ex_client ex_ctx) as (_ & Hnotes & _).
  destruct (Hnotes ex_tx_orphans ex_list_n1) as (_ & _ & _ & Hexact).
  assert (Hnd : NoDup (n_UUID <$> notes ex_tx_orphans)).
  { apply (bool_decide_unpack _). vm_compute. exact I. }
  split.
  - apply (Hexact Hnd). split.
    + right. right. left.
    + right. split; reflexivity.
  - intros Hin. apply (Hexact Hnd) in Hin as [_ [Hc|[Hd _]]]; discriminate.
Defined.

(** * Further properties of the engine *)

(** ** Assembling the sync list *)

Section AssemblerExtras.
Context {Srv : Type} (cl : Client Srv) (ctx : DnoteCtx).

Lemma processNotes_ok_iff (ns : list SyncFragNote) (m : gmap string SyncFragNote) :
  (exists m', processNotes cl ctx ns m = Ok m') <->
  forall n, n ∈ ns -> is_Some (AesGcmDecrypt cl (cipherKey ctx) (fn_Body n)).
Proof.
  revert m. induction ns as [|n ns IH]; intros m; simpl.
  - split; [intros _ n Hn; inversion Hn | intros _; eauto].
  - destruct (AesGcmDecrypt cl (cipherKey ctx) (fn_Body n)) as [body|] eqn:Hd.
    + rewrite IH. split.
      * intros Hall x Hx. apply elem_of_cons in Hx as [->|Hx]; [rewrite Hd; eauto|].
        exact (Hall x Hx).
      * intros Hall x Hx. apply Hall. right. exact Hx.
    + split; [intros [m' Hm]; discriminate|].
      intros Hall. destruct (Hall n (list_elem_of_here _ _)) as [x Hx].
      rewrite Hd in Hx. discriminate.
Qed.

Lemma processBooks_ok_iff (bs : list SyncFragBook) (m : gmap string SyncFragBook) :
  (exists m', processBooks cl ctx bs m = Ok m') <->
  forall b, b ∈ bs -> is_Some (AesGcmDecrypt cl (cipherKey ctx) (fb_Label b)).
Proof.
  revert m. induction bs as [|b bs IH]; intros m; simpl.
  - split; [intros _ n Hn; inversion Hn | intros _; eauto].
  - destruct (AesGcmDecrypt cl (cipherKey ctx) (fb_Label b)) as [label|] eqn:Hd.
    + rewrite IH. split.
      * intros Hall x Hx. apply elem_of_cons in Hx as [->|Hx]; [rewrite Hd; eauto|].
        exact (Hall x Hx).
      * intros Hall x Hx. apply Hall. right. exact Hx.
    + split; [intros [m' Hm]; discriminate|].
      intros Hall. destruct (Hall b (list_elem_of_here _ _)) as [x Hx].
      rewrite Hd in Hx. discriminate.
Qed.

Lemma processNotes_not_Fuel (ns : list SyncFragNote) (m : gmap string SyncFragNote) :
  processNotes cl ctx ns m <> Fuel.
Proof.
  revert m. induction ns as [|n ns IH]; intros m; simpl; [discriminate|].
  destruct (AesGcmDecrypt cl (cipherKey ctx) (fn_Body n)); [apply IH | discriminate].
Qed.

Lemma processBooks_not_Fuel (bs : list SyncFragBook) (m : gmap string SyncFragBook) :
  processBooks cl ctx bs m <> Fuel.
Proof.
  revert m. induction bs as [|b bs IH]; intros m; simpl; [discriminate|].
  destruct (AesGcmDecrypt cl (cipherKey ctx) (fb_Label b)); [apply IH | discriminate].
Qed.

Lemma processFragments_from_ok_iff (fragments : list SyncFragment) (acc : syncList) :
  (exists sl, processFragments_from cl ctx fragments acc = Ok sl) <->
  forall f, f ∈ fragments ->
    (forall n, n ∈ Notes f -> is_Some (AesGcmDecrypt cl (cipherKey ctx) (fn_Body n))) /\
    (forall b, b ∈ Books f -> is_Some (AesGcmDecrypt cl (cipherKey ctx) (fb_Label b))).
Proof.
  revert acc. induction fragments as [|f rest IH]; intros acc; simpl.
  - split; [intros _ f Hf; inversion Hf | intros _; eauto].
  - pose proof (processNotes_ok_iff (Notes f) (sl_Notes acc)) as Hn.
    pose proof (processBooks_ok_iff (Books f) (sl_Books acc)) as Hb.
    destruct (processNotes cl ctx (Notes f) (sl_Notes acc)) as [ns|e|] eqn:Ens.
    + destruct (processBooks cl ctx (Books f) (sl_Books acc)) as [bs|e|] eqn:Ebs.
      * rewrite IH. split.
        -- intros Hall x Hx. apply elem_of_cons in Hx as [->|Hx]; [|exact (Hall x Hx)].
           split; [apply Hn; eauto | apply Hb; eauto].
        -- intros Hall x Hx. apply Hall. right. exact Hx.
      * split; [intros [sl Hsl]; discriminate|]. intros Hall.
        destruct (proj2 Hb (proj2 (Hall f (list_elem_of_here _ _)))) as [m' Hm'].
        discriminate.
      * split; [intros [sl Hsl]; discriminate|]. intros Hall.
        destruct (proj2 Hb (proj2 (Hall f (list_elem_of_here _ _)))) as [m' Hm'].
        discriminate.
    + split; [intros [sl Hsl]; discriminate|]. intros Hall.
      destruct (proj2 Hn (proj1 (Hall f (list_elem_of_here _ _)))) as [m' Hm'].
      discriminate.
    + split; [intros [sl Hsl]; discriminate|]. intros Hall.
      destruct (proj2 Hn (proj1 (Hall f (list_elem_of_here _ _)))) as [m' Hm'].
      discriminate.
Qed.

Lemma processFragments_from_not_Fuel (fragments : list SyncFragment) (acc : syncList) :
  processFragments_from cl ctx fragments acc <> Fuel.
Proof.
  revert acc. induction fragments as [|f rest IH]; intros acc; simpl; [discriminate|].
  pose proof (processNotes_not_Fuel (Notes f) (sl_Notes acc)) as Hn.
  pose proof (processBooks_not_Fuel (Books f) (sl_Books acc)) as Hb.
  destruct (processNotes cl ctx (Notes f) (sl_Notes acc)); try discriminate; try contradiction.
  destruct (processBooks cl ctx (Books f) (sl_Books acc)); try discriminate; try contradiction.
  apply IH.
Qed.

(** X1. [processFragments] returns a sync list exactly when every note
    body and every book label of every fragment decrypts; otherwise it
    returns an error: one payload that fails to decrypt, anywhere in the
    fragments, leaves no list at all. *)
Theorem processFragments_all_or_nothing (fragments : list SyncFragment) :
  ((exists sl, processFragments cl ctx fragments = Ok sl) <->
   forall f, f ∈ fragments ->
     (forall n, n ∈ Notes f -> is_Some (AesGcmDecrypt cl (cipherKey ctx) (fn_Body n))) /\
     (forall b, b ∈ Books f -> is_Some (AesGcmDecrypt cl (cipherKey ctx) (fb_Label b)))) /\
  ((forall sl, processFragments cl ctx fragments <> Ok sl) ->
   exists e, processFragments cl ctx fragments = Err e).
Proof.
  split; [apply processFragments_from_ok_iff|].
  intros Hno. pose proof (processFragments_from_not_Fuel fragments sl_empty) as Hf.
  unfold processFragments in *.
  destruct (processFragments_from cl ctx fragments sl_empty) as [sl|e|].
  - exfalso. exact (Hno sl eq_refl).
  - eauto.
  - contradiction.
Qed.

End AssemblerExtras.

Lemma processFragments_all_or_nothing_witness :
  exists e, processFragments ex_client ex_ctx [ex_frag_corrupt] = Err e.
Proof.
  apply (proj2 (processFragments_all_or_nothing ex_client ex_ctx [ex_frag_corrupt])).
  intros sl. vm_compute. discriminate.
Defined.

Section AssemblerContents.
Context {Srv : Type} (cl : Client Srv) (ctx : DnoteCtx).

Lemma last_with_cons {A} (P : A -> Prop) `{Pdec : !forall x, Decision (P x)}
    (x : A) (l : list A) :
  last_with P (x :: l) =
    match last_with P l with
    | Some y => Some y
    | None => if decide (P x) then Some x else None
    end.
Proof.
  unfold last_with. rewrite filter_cons.
  destruct (decide (P x)); [|destruct (last (filter P l)); reflexivity].
  destruct (filter P l) as [|y l'] eqn:E; [reflexivity|].
  change (last (x :: y :: l')) with (last (y :: l')).
  destruct (last (y :: l')) eqn:El; [reflexivity|].
  apply last_None in El. discriminate.
Qed.

Lemma last_with_app {A} (P : A -> Prop) `{Pdec : !forall x, Decision (P x)}
    (l1 l2 : list A) :
  last_with P (l1 ++ l2) =
    match last_with P l2 with
    | Some y => Some y
    | None => last_with P l1
    end.
Proof.
  induction l1 as [|x l1 IH]; simpl.
  - destruct (last_with P l2); reflexivity.
  - rewrite !last_with_cons, IH. destruct (last_with P l2); reflexivity.
Qed.

Lemma processNotes_lookup (ns : list SyncFragNote) (m m' : gmap string SyncFragNote)
    (u : string) :
  processNotes cl ctx ns m = Ok m' ->
  m' !! u =
    match last_with (fun n => fn_UUID n = u) ns with
    | Some n => decrypted_note cl ctx n
    | None => m !! u
    end.
Proof.
  revert m. induction ns as [|n ns IH]; intros m; simpl.
  - intros Heq. inversion Heq; subst. reflexivity.
  - destruct (AesGcmDecrypt cl (cipherKey ctx) (fn_Body n)) as [body|] eqn:Hd;
      [|discriminate].
    intros Hrest. rewrite (IH _ Hrest), last_with_cons.
    destruct (last_with (fun n0 => fn_UUID n0 = u) ns); [reflexivity|].
    rewrite lookup_insert. destruct (decide (fn_UUID n = u)) as [Hu|Hu].
    + unfold decrypted_note. rewrite Hd. reflexivity.
    + reflexivity.
Qed.

Lemma processBooks_lookup (bs : list SyncFragBook) (m m' : gmap string SyncFragBook)
    (u : string) :
  processBooks cl ctx bs m = Ok m' ->
  m' !! u =
    match last_with (fun b => fb_UUID b = u) bs with
    | Some b => decrypted_book cl ctx b
    | None => m !! u
    end.
Proof.
  revert m. induction bs as [|b bs IH]; intros m; simpl.
  - intros Heq. inversion Heq; subst. reflexivity.
  - destruct (AesGcmDecrypt cl (cipherKey ctx) (fb_Label b)) as [label|] eqn:Hd;
      [|discriminate].
    intros Hrest. rewrite (IH _ Hrest), last_with_cons.
    destruct (last_with (fun b0 => fb_UUID b0 = u) bs); [reflexivity|].
    rewrite lookup_insert. destruct (decide (fb_UUID b = u)) as [Hu|Hu].
    + unfold decrypted_book. rewrite Hd. reflexivity.
    + reflexivity.
Qed.

Lemma processExpunged_elem (uuids : list string) (acc : gset string) (u : string) :
  u ∈ processExpunged uuids acc <-> u ∈ uuids \/ u ∈ acc.
Proof.
  unfold processExpunged. revert acc. induction uuids as [|x xs IH]; intros acc; simpl.
  - split; [auto | intros [H|H]; [inversion H | exact H]].
  - rewrite IH, elem_of_union, elem_of_singleton, elem_of_cons. tauto.
Qed.

Lemma processFragments_from_contents (fragments : list SyncFragment) (acc sl : syncList) :
  processFragments_from cl ctx fragments acc = Ok sl ->
  (forall u, sl_Notes sl !! u =
     match last_with (fun n => fn_UUID n = u) (concat (Notes <$> fragments)) with
     | Some n => decrypted_note cl ctx n
     | None => sl_Notes acc !! u
     end) /\
  (forall u, sl_Books sl !! u =
     match last_with (fun b => fb_UUID b = u) (concat (Books <$> fragments)) with
     | Some b => decrypted_book cl ctx b
     | None => sl_Books acc !! u
     end) /\
  (forall u, u ∈ sl_ExpungedNotes sl <->
     (exists f, f ∈ fragments /\ u ∈ ExpungedNotes f) \/ u ∈ sl_ExpungedNotes acc) /\
  (forall u, u ∈ sl_ExpungedBooks sl <->
     (exists f, f ∈ fragments /\ u ∈ ExpungedBooks f) \/ u ∈ sl_ExpungedBooks acc).
Proof.
  revert acc. induction fragments as [|f rest IH]; intros acc Hrun.
  - simpl in Hrun. inversion Hrun; subst. repeat apply conj; try reflexivity.
    + intros u. split; [auto | intros [(f & Hf & _)|H]; [inversion Hf | exact H]].
    + intros u. split; [auto | intros [(f & Hf & _)|H]; [inversion Hf | exact H]].
  - rewrite !fmap_cons, !concat_cons. simpl in Hrun.
    destruct (processNotes cl ctx (Notes f) (sl_Notes acc)) as [ns|e|] eqn:Ens;
      try discriminate.
    destruct (processBooks cl ctx (Books f) (sl_Books acc)) as [bs|e|] eqn:Ebs;
      try discriminate.
    destruct (IH _ Hrun) as (Hn & Hb & Hxn & Hxb).
    cbn [sl_Notes sl_Books sl_ExpungedNotes sl_ExpungedBooks] in Hn, Hb, Hxn, Hxb.
    repeat apply conj.
    + intros u. rewrite Hn, last_with_app.
      destruct (last_with (fun n => fn_UUID n = u) (concat (Notes <$> rest)));
        [reflexivity|].
      apply (processNotes_lookup _ _ _ u Ens).
    + intros u. rewrite Hb, last_with_app.
      destruct (last_with (fun b => fb_UUID b = u) (concat (Books <$> rest)));
        [reflexivity|].
      apply (processBooks_lookup _ _ _ u Ebs).
    + intros u. rewrite Hxn, processExpunged_elem. split.
      * intros [(g & Hg & Hu)|[Hu|Hu]].
        -- left. exists g. split; [right; exact Hg | exact Hu].
        -- left. exists f. split; [left | exact Hu].
        -- right. exact Hu.
      * intros [(g & Hg & Hu)|Hu]; [|right; right; exact Hu].
        apply elem_of_cons in Hg as [->|Hg]; [right; left; exact Hu|].
        left. exists g. auto.
    + intros u. rewrite Hxb, processExpunged_elem. split.
      * intros [(g & Hg & Hu)|[Hu|Hu]].
        -- left. exists g. split; [right; exact Hg | exact Hu].
        -- left. exists f. split; [left | exact Hu].
        -- right. exact Hu.
      * intros [(g & Hg & Hu)|Hu]; [|right; right; exact Hu].
        apply elem_of_cons in Hg as [->|Hg]; [right; left; exact Hu|].
        left. exists g. auto.
Qed.

(** X2. In the list [processFragments] returns, a uuid maps to the last
    note (book) with that uuid in the fragments, in the order received, with
    its body (label) decrypted; a uuid no fragment mentions is not a key. *)
Theorem processFragments_last_wins (fragments : list SyncFragment) (sl : syncList) :
  processFragments cl ctx fragments = Ok sl ->
  (forall u, sl_Notes sl !! u =
     last_with (fun n => fn_UUID n = u) (concat (Notes <$> fragments))
       ≫= decrypted_note cl ctx) /\
  (forall u, sl_Books sl !! u =
     last_with (fun b => fb_UUID b = u) (concat (Books <$> fragments))
       ≫= decrypted_book cl ctx).
Proof.
  intros Hp. destruct (processFragments_from_contents _ _ _ Hp) as (Hn & Hb & _).
  split; intros u.
  - rewrite Hn. destruct (last_with _ _); reflexivity.
  - rewrite Hb. destruct (last_with _ _); reflexivity.
Qed.

(** X3. In the list [processFragments] returns, the expunged notes
    (books) are exactly the uuids listed as expunged by some fragment. *)
Theorem processFragments_expunged_union (fragments : list SyncFragment) (sl : syncList) :
  processFragments cl ctx fragments = Ok sl ->
  (forall u, u ∈ sl_ExpungedNotes sl <->
     exists f, f ∈ fragments /\ u ∈ ExpungedNotes f) /\
  (forall u, u ∈ sl_ExpungedBooks sl <->
     exists f, f ∈ fragments /\ u ∈ ExpungedBooks f).
Proof.
  intros Hp. destruct (processFragments_from_contents _ _ _ Hp) as (_ & _ & Hxn & Hxb).
  split; intros u.
  - rewrite Hxn. split; [intros [H|H]; [exact H | inversion H] | auto].
  - rewrite Hxb. split; [intros [H|H]; [exact H | inversion H] | auto].
Qed.

End AssemblerContents.

(** ** Pull: failures and merges *)

Section PullExtras.
Context {Srv : Type} (cl : Client Srv) (ctx : DnoteCtx).

Lemma getSyncFragments_loop_keeps_tx (fuel : nat) :
  forall buf a w r w',
    getSyncFragments_loop cl fuel buf a w = (r, w') -> w_tx w' = w_tx w.
Proof.
  induction fuel as [|fuel IH]; intros buf a w r w' Hrun.
  - simpl in Hrun. inversion Hrun. reflexivity.
  - rewrite getSyncFragments_loop_S in Hrun.
    destruct (GetSyncFragment cl a (w_srv w)) as [[frag|] s'].
    + destruct (decide (FragMaxUSN frag = 0)).
      * inversion Hrun. reflexivity.
      * apply IH in Hrun. exact Hrun.
    + inversion Hrun. reflexivity.
Qed.

Lemma getSyncList_keeps_tx (fuel : nat) (a : Z) (w w' : World Srv) (r : res syncList) :
  getSyncList cl ctx fuel a w = (r, w') -> w_tx w' = w_tx w.
Proof.
  unfold getSyncList, getSyncFragments, mbind, M_bind, wrapM.
  destruct (getSyncFragments_loop cl fuel [] a w) as [[frags|e|] w1] eqn:Hl;
    apply getSyncFragments_loop_keeps_tx in Hl.
  - destruct (processFragments cl ctx frags); intros Heq; inversion Heq; subst; exact Hl.
  - intros Heq; inversion Heq; subst; exact Hl.
  - intros Heq; inversion Heq; subst; exact Hl.
Qed.

(** X4. When the sync list cannot be assembled, because a fragment
    request fails or a payload does not decrypt, [stepSync] and [fullSync]
    return that error, wrapped, and the transaction's working copy is as it
    was: nothing is merged from a partial list. *)
Theorem pull_fails_before_merging (fuel : nat) (a : Z) (w w1 : World Srv) (e : error) :
  getSyncList cl ctx fuel a w = (Err e, w1) ->
  stepSync cl ctx fuel a w = (Err (Wrap e "getting sync list"), w1) /\
  (a = 0 -> fullSync cl ctx fuel w = (Err (Wrap e "getting sync list"), w1)) /\
  w_tx w1 = w_tx w /\ w_db w1 = w_db w.
Proof.
  intros Hl. split; [|split; [|split]].
  - unfold stepSync, mbind, M_bind, wrapM. rewrite Hl. reflexivity.
  - intros ->. unfold fullSync, mbind, M_bind, wrapM. rewrite Hl. reflexivity.
  - exact (getSyncList_keeps_tx _ _ _ _ _ Hl).
  - exact (proj1 (tx_only_getSyncList cl ctx fuel a _ _ _ Hl)).
Qed.

End PullExtras.

Lemma pull_fails_before_merging_witness :
  exists w1 e,
    stepSync ex_client ex_ctx 3 41 (ex_world ex_script_s5 ex_tx_push) = (Err e, w1) /\
    w_tx w1 = ex_tx_push.
Proof.
  destruct (pull_fails_before_merging ex_client ex_ctx 3 41
              (ex_world ex_script_s5 ex_tx_push)
              (getSyncList ex_client ex_ctx 3 41 (ex_world ex_script_s5 ex_tx_push)).2
              (Wrap (Wrap ErrDecrypt "decrypting body for note N7") "making sync list"))
    as (Hstep & _ & Htx & _); [vm_compute; reflexivity|].
  eexists. eexists. split; [exact Hstep | exact Htx].
Defined.

(** ** Merging notes *)

Lemma mergeNote_err_iff (tx : DB) (s : SyncFragNote) (l : Note) :
  (exists e, mergeNote tx s l = Err e) <->
  forall b, b ∈ books tx -> b_UUID b <> n_BookUUID l.
Proof.
  unfold mergeNote.
  pose proof (sql_query_row_None (fun r => b_UUID r = n_BookUUID l) (books tx)) as Hnone.
  destruct (sql_query_row (fun r => b_UUID r = n_BookUUID l) (books tx)) as [book|] eqn:Hq.
  - split.
    + intros [e He]. destruct (b_Deleted book); [discriminate|].
      destruct (n_Deleted l); discriminate.
    + intros Hall. apply sql_query_row_Some in Hq as [Hin Hu].
      exfalso. exact (Hall book Hin Hu).
  - split; [intros _; apply Hnone; reflexivity | eauto].
Qed.

Lemma mergeNote_not_Fuel (tx : DB) (s : SyncFragNote) (l : Note) : mergeNote tx s l <> Fuel.
Proof.
  unfold mergeNote. destruct (sql_query_row _ _) as [book|]; [|discriminate].
  destruct (b_Deleted book); [discriminate|]. destruct (n_Deleted l); discriminate.
Qed.

(** X5. [stepSyncNote] fails exactly when a local row carries the server
    note's uuid and no book row carries the book uuid of the first such row;
    [fullSyncNote] fails exactly when, in addition, the server's usn is
    above that row's.  In every other case both return a store. *)
Theorem syncNote_fails_iff (tx : DB) (n : SyncFragNote) :
  ((exists e, stepSyncNote tx n = Err e) <->
   exists r, sql_query_row (fun r => n_UUID r = fn_UUID n) (notes tx) = Some r /\
             forall b, b ∈ books tx -> b_UUID b <> n_BookUUID r) /\
  ((exists e, fullSyncNote tx n = Err e) <->
   exists r, sql_query_row (fun r => n_UUID r = fn_UUID n) (notes tx) = Some r /\
             fn_USN n > n_USN r /\
             forall b, b ∈ books tx -> b_UUID b <> n_BookUUID r) /\
  ((forall e, stepSyncNote tx n <> Err e) -> exists tx', stepSyncNote tx n = Ok tx') /\
  ((forall e, fullSyncNote tx n <> Err e) -> exists tx', fullSyncNote tx n = Ok tx').
Proof.
  unfold stepSyncNote, fullSyncNote.
  destruct (sql_query_row (fun r => n_UUID r = fn_UUID n) (notes tx)) as [r|].
  - pose proof (mergeNote_err_iff tx n (scan_localNote r)) as Hm.
    pose proof (mergeNote_not_Fuel tx n (scan_localNote r)) as Hf.
    simpl in Hm. split; [|split; [|split]].
    + split.
      * intros [e He]. exists r. split; [reflexivity|]. apply Hm.
        destruct (mergeNote tx n (scan_localNote r)) as [t|e'|]; try discriminate. eauto.
      * intros (r' & Hr' & Hall). inversion Hr'; subst r'.
        destruct (proj2 Hm Hall) as [e He]. rewrite He. simpl. eauto.
    + simpl. split.
      * intros [e He]. exists r.
        destruct (decide (fn_USN n > n_USN r)) as [Hgt|Hle]; [|discriminate].
        split; [reflexivity|]. split; [exact Hgt|]. apply Hm.
        destruct (mergeNote tx n (scan_localNote r)) as [t|e'|]; try discriminate. eauto.
      * intros (r' & Hr' & Hgt & Hall). inversion Hr'; subst r'.
        destruct (decide (fn_USN n > n_USN r)); [|contradiction].
        destruct (proj2 Hm Hall) as [e He]. rewrite He. simpl. eauto.
    + intros Hno. destruct (mergeNote tx n (scan_localNote r)) as [t|e'|]; simpl in *.
      * eauto.
      * exfalso. exact (Hno _ eq_refl).
      * contradiction.
    + intros Hno. simpl in *. destruct (decide (fn_USN n > n_USN r)); [|eauto].
      destruct (mergeNote tx n (scan_localNote r)) as [t|e'|]; simpl in *.
      * eauto.
      * exfalso. exact (Hno _ eq_refl).
      * contradiction.
  - split; [|split; [|split]].
    + split; [intros [e He]; discriminate | intros (r & Hr & _); discriminate].
    + split; [intros [e He]; discriminate | intros (r & Hr & _); discriminate].
    + eauto.
    + eauto.
Qed.

Lemma syncNote_fails_iff_witness :
  exists tx', stepSyncNote ex_tx_merge ex_note_server = Ok tx'.
Proof.
  destruct (syncNote_fails_iff ex_tx_merge ex_note_server) as (_ & _ & Hok & _).
  apply Hok. intros e. vm_compute. discriminate.
Defined.

Lemma sql_query_row_app_absent {A} (P : A -> Prop) `{Pdec : !forall x, Decision (P x)}
    (t : list A) (x : A) :
  (forall r, r ∈ t -> ~ P r) -> P x -> sql_query_row P (t ++ [x]) = Some x.
Proof.
  intros Habs Hx. unfold sql_query_row. rewrite filter_app.
  assert (Hnil : filter P t = []).
  { destruct (filter P t) as [|y l] eqn:E; [reflexivity|]. exfalso.
    assert (Hy : y ∈ filter P t) by (rewrite E; left).
    apply list_elem_of_filter in Hy as [HP Hy]. exact (Habs y Hy HP). }
  rewrite Hnil. simpl. rewrite filter_cons. destruct (decide (P x)); [reflexivity|].
  contradiction.
Qed.

(** X6. A server note whose uuid no local row carries is inserted, by the
    step and by the full merge alike: the existing rows keep their places,
    one row is added, and reading the note back by uuid gives every field of
    the server note, clean.  Neither the existence of its book nor its
    deleted flag is looked at. *)
Theorem syncNote_inserts_absent (tx : DB) (n : SyncFragNote) :
  (forall r, r ∈ notes tx -> n_UUID r <> fn_UUID n) ->
  exists tx',
    stepSyncNote tx n = Ok tx' /\ fullSyncNote tx n = Ok tx' /\
    books tx' = books tx /\ system tx' = system tx /\
    length (notes tx') = S (length (notes tx)) /\
    (forall (i : nat) (r : Note), notes tx !! i = Some r -> notes tx' !! i = Some r) /\
    sql_query_row (fun r => n_UUID r = fn_UUID n) (notes tx') =
      Some (mkNote (fn_UUID n) (fn_BookUUID n) (fn_Body n) (fn_AddedOn n)
                   (fn_EditedOn n) (fn_USN n) (fn_Public n) (fn_Deleted n) false).
Proof.
  intros Habs.
  assert (Hq : sql_query_row (fun r => n_UUID r = fn_UUID n) (notes tx) = None)
    by (apply sql_query_row_None; exact Habs).
  unfold stepSyncNote, fullSyncNote. rewrite Hq.
  eexists. split; [reflexivity|]. split; [reflexivity|]. simpl.
  split; [reflexivity|]. split; [reflexivity|]. split.
  - rewrite length_app. simpl. lia.
  - split.
    + intros i r Hi. apply lookup_app_l_Some. exact Hi.
    + apply (sql_query_row_app_absent (fun r => n_UUID r = fn_UUID n)); [exact Habs|].
      reflexivity.
Qed.

Lemma syncNote_inserts_absent_witness :
  exists tx',
    stepSyncNote ex_tx_push ex_note_server = Ok tx' /\
    length (notes tx') = 1%nat.
Proof.
  destruct (syncNote_inserts_absent ex_tx_push ex_note_server)
    as (tx' & Hs & _ & _ & _ & Hlen & _).
  { intros r Hr. inversion Hr. }
  exists tx'. split; [exact Hs | exact Hlen].
Defined.

(** X7. Under unique note uuids a full-sync merge of a note never lowers
    the usn of a local row: every row stays in place with a usn at least as
    large as before. *)
Theorem fullSyncNote_usn_monotone (tx tx' : DB) (n : SyncFragNote) :
  NoDup (n_UUID <$> notes tx) ->
  fullSyncNote tx n = Ok tx' ->
  forall (i : nat) (r : Note), notes tx !! i = Some r ->
    exists r', notes tx' !! i = Some r' /\ n_UUID r' = n_UUID r /\ n_USN r <= n_USN r'.
Proof.
  intros Hnd Hf i r Hi. unfold fullSyncNote in Hf.
  destruct (sql_query_row (fun r => n_UUID r = fn_UUID n) (notes tx)) as [r0|] eqn:Hq.
  - simpl in Hf. destruct (decide (fn_USN n > n_USN r0)) as [Hgt|Hle].
    + destruct (mergeNote tx n (scan_localNote r0)) as [t|e|] eqn:Hm;
        simpl in Hf; inversion Hf; subst t; clear Hf.
      unfold mergeNote in Hm.
      destruct (sql_query_row _ (books tx)) as [book|]; [|discriminate].
      assert (Hsame : n_UUID r = fn_UUID n -> r = r0).
      { intros Hu. apply sql_query_row_Some in Hq as [Hin0 Hu0].
        apply (NoDup_fmap_eq n_UUID (notes tx)); [exact Hnd | | exact Hin0 | congruence].
        apply list_elem_of_lookup. eauto. }
      destruct (b_Deleted book).
      * inversion Hm; subst. exists r. split; [exact Hi|]. split; [reflexivity | lia].
      * destruct (n_Deleted (scan_localNote r0)); inversion Hm; subst; simpl;
          rewrite sql_update_lookup, Hi; simpl;
          (destruct (decide (n_UUID r = fn_UUID n)) as [Hu|Hu];
            [eexists; split; [reflexivity|]; simpl; split; [reflexivity|];
             rewrite (Hsame Hu); lia
            |exists r; split; [reflexivity|]; split; [reflexivity | lia]]).
    + inversion Hf; subst. exists r. split; [exact Hi|]. split; [reflexivity | lia].
  - inversion Hf; subst. exists r. simpl. split; [|split; [reflexivity | lia]].
    apply lookup_app_l_Some. exact Hi.
Qed.

Lemma fullSyncNote_usn_monotone_witness :
  exists r', notes (mkDB [ex_book_js]
                         [mkNote "N1" "B1" "server body" 3 6 9 true false true] ∅)
               !! 0%nat = Some r' /\
             n_UUID r' = "N1" /\ 7 <= n_USN r'.
Proof.
  apply (fullSyncNote_usn_monotone ex_tx_merge _ ex_note_server) with (r := ex_note_local).
  - apply (bool_decide_unpack _). vm_compute. exact I.
  - reflexivity.
  - reflexivity.
Defined.

(** ** Merging books *)

Lemma string_app_nil_r (s : string) : s +:+ "" = s.
Proof.
  induction s as [|a s IH]; [reflexivity|].
  change (String a (s +:+ "") = String a s). rewrite IH. reflexivity.
Qed.

Lemma Sprintf_label_neq (label : string) (k : nat) : Sprintf_label label k <> label.
Proof.
  unfold Sprintf_label. intros Heq.
  rewrite <- (string_app_nil_r label) in Heq at 2.
  apply (inj (String.app label)) in Heq. discriminate.
Qed.

(** The first statement of [mergeBook]'s rename, on the book table. *)
Lemma relabel_uuids (P : Book -> Prop) `{Pdec : !forall x, Decision (P x)}
    (newLabel : string) (t : list Book) :
  b_UUID <$> sql_update P
    (fun r => mkBook (b_UUID r) newLabel (b_USN r) true (b_Deleted r)) t
  = b_UUID <$> t.
Proof.
  unfold sql_update. rewrite <- list_fmap_compose. apply list_fmap_ext.
  intros i x _. simpl. destruct (decide (P x)); reflexivity.
Qed.

Lemma relabel_labels_NoDup (L newLabel : string) (t : list Book) :
  newLabel ∉ (b_Label <$> t) ->
  NoDup (b_Label <$> t) ->
  NoDup (b_Label <$> sql_update (fun r => b_Label r = L)
           (fun r => mkBook (b_UUID r) newLabel (b_USN r) true (b_Deleted r)) t).
Proof.
  intros Hfresh Hnd.
  assert (Heq : b_Label <$> sql_update (fun r => b_Label r = L)
             (fun r => mkBook (b_UUID r) newLabel (b_USN r) true (b_Deleted r)) t
           = (fun l => if decide (l = L) then newLabel else l) <$> (b_Label <$> t)).
  { unfold sql_update. rewrite <- !list_fmap_compose. apply list_fmap_ext.
    intros i x _. simpl. destruct (decide (b_Label x = L)); reflexivity. }
  rewrite Heq. apply NoDup_fmap_2_strong; [|exact Hnd].
  intros x y Hx Hy. destruct (decide (x = L)) as [->|Hxl];
    destruct (decide (y = L)) as [->|Hyl]; intros E.
  - reflexivity.
  - exfalso. apply Hfresh. rewrite E. exact Hy.
  - exfalso. apply Hfresh. rewrite <- E. exact Hx.
  - exact E.
Qed.

Lemma relabel_label_gone (L newLabel : string) (t : list Book) :
  newLabel <> L ->
  L ∉ (b_Label <$> sql_update (fun r => b_Label r = L)
         (fun r => mkBook (b_UUID r) newLabel (b_USN r) true (b_Deleted r)) t).
Proof.
  intros Hne Hin. apply list_elem_of_fmap in Hin as (r' & Hl & Hr').
  apply (sql_update_elem (fun r => b_Label r = L)) in Hr' as (r & Hr & ->).
  destruct (decide (b_Label r = L)); simpl in Hl; congruence.
Qed.

Lemma overwrite_by_uuid_uuids (b : SyncFragBook) (t : list Book) :
  b_UUID <$> sql_update (fun r => b_UUID r = fb_UUID b)
    (fun r => mkBook (fb_UUID b) (fb_Label b) (fb_USN b) (b_Dirty r) (fb_Deleted b)) t
  = b_UUID <$> t.
Proof.
  unfold sql_update. rewrite <- list_fmap_compose. apply list_fmap_ext.
  intros i x _. simpl. destruct (decide (b_UUID x = fb_UUID b)) as [E|E]; simpl; congruence.
Qed.

Lemma overwrite_by_uuid_labels_NoDup (b : SyncFragBook) (t : list Book) :
  NoDup (b_UUID <$> t) ->
  NoDup (b_Label <$> t) ->
  fb_Label b ∉ (b_Label <$> t) ->
  NoDup (b_Label <$> sql_update (fun r => b_UUID r = fb_UUID b)
           (fun r => mkBook (fb_UUID b) (fb_Label b) (fb_USN b) (b_Dirty r) (fb_Deleted b)) t).
Proof.
  intros Hu Hl Hfresh. unfold sql_update. rewrite <- list_fmap_compose.
  apply NoDup_fmap_2_strong; [|exact (NoDup_fmap_1 _ _ Hu)].
  intros x y Hx Hy. simpl.
  destruct (decide (b_UUID x = fb_UUID b)) as [Ex|Ex];
    destruct (decide (b_UUID y = fb_UUID b)) as [Ey|Ey]; simpl; intros E.
  - apply (NoDup_fmap_eq b_UUID t); [exact Hu | exact Hx | exact Hy | congruence].
  - exfalso. apply Hfresh. rewrite E. apply list_elem_of_fmap. exists y. auto.
  - exfalso. apply Hfresh. rewrite <- E. apply list_elem_of_fmap. exists x. auto.
  - apply (NoDup_fmap_eq b_Label t); [exact Hl | exact Hx | exact Hy | exact E].
Qed.

Lemma count_zero_not_label (L : string) (t : list Book) :
  sql_count (fun r => b_Label r = L) t = 0 <-> L ∉ (b_Label <$> t).
Proof.
  rewrite sql_count_zero. split.
  - intros Hall Hin. apply list_elem_of_fmap in Hin as (r & Hl & Hr).
    exact (Hall r Hr (eq_sym Hl)).
  - intros Hn r Hr Hl. apply Hn. apply list_elem_of_fmap. exists r. auto.
Qed.

Lemma mergeBook_unique (tx : DB) (b : SyncFragBook) (mode : Z) :
  exists tx',
    mergeBook tx b mode = Ok tx' /\
    notes tx' = notes tx /\ system tx' = system tx /\
    (books_unique tx ->
     (mode = modeInsert -> fb_UUID b ∉ (b_UUID <$> books tx)) ->
     books_unique tx').
Proof.
  unfold mergeBook.
  destruct (resolveLabel_total tx (fb_Label b)) as (k & Hres & _ & Hfree & _).
  rewrite Hres.
  set (L := fb_Label b). set (newLabel := Sprintf_label L k).
  assert (Hfresh : newLabel ∉ (b_Label <$> books tx)).
  { intros Hin. apply list_elem_of_fmap in Hin as (r & Hl & Hr).
    apply Hfree. exists r. split; [exact Hr | symmetry; exact Hl]. }
  set (t1 := if decide (sql_count (fun r => b_Label r = L) (books tx) > 0)
             then sql_update (fun r => b_Label r = L)
                    (fun r => mkBook (b_UUID r) newLabel (b_USN r) true (b_Deleted r))
                    (books tx)
             else books tx).
  assert (Hu1 : b_UUID <$> t1 = b_UUID <$> books tx).
  { unfold t1. destruct (decide (_ > 0)); [apply relabel_uuids | reflexivity]. }
  assert (Hl1 : NoDup (b_Label <$> books tx) -> NoDup (b_Label <$> t1)).
  { unfold t1. destruct (decide (_ > 0)); [apply relabel_labels_NoDup; exact Hfresh | auto]. }
  assert (Hg1 : L ∉ (b_Label <$> t1)).
  { unfold t1. destruct (decide (_ > 0)) as [Hpos|Hnpos].
    - apply relabel_label_gone. apply Sprintf_label_neq.
    - apply count_zero_not_label.
      pose proof (sql_count_nonneg (fun r => b_Label r = L) (books tx)). lia. }
  assert (Hren : (if decide (sql_count (fun r => b_Label r = L) (books tx) > 0)
                  then Ok (set_books (sql_update (fun r => b_Label r = L)
                         (fun r => mkBook (b_UUID r) newLabel (b_USN r) true (b_Deleted r))) tx)
                  else Ok tx) = Ok (mkDB t1 (notes tx) (system tx))).
  { unfold t1. destruct (decide (_ > 0)); [reflexivity|]. destruct tx; reflexivity. }
  rewrite Hren. clear Hren.
  destruct (decide (mode = modeInsert)) as [Hm|Hm].
  - eexists. split; [reflexivity|]. simpl. split; [reflexivity|]. split; [reflexivity|].
    intros [Hu Hl] Habs. unfold books_unique, Book_Insert, set_books. simpl.
    split; rewrite fmap_app; simpl.
    + apply NoDup_app. rewrite Hu1. split; [exact Hu|]. split.
      * intros x Hx Hin. apply list_elem_of_singleton in Hin. subst x.
        exact (Habs Hm Hx).
      * apply NoDup_singleton.
    + apply NoDup_app. split; [exact (Hl1 Hl)|]. split.
      * intros x Hx Hin. apply list_elem_of_singleton in Hin. subst x.
        exact (Hg1 Hx).
      * apply NoDup_singleton.
  - destruct (decide (mode = modeUpdate)) as [Hup|Hup].
    + eexists. split; [reflexivity|]. simpl. split; [reflexivity|]. split; [reflexivity|].
      intros [Hu Hl] _. unfold books_unique, set_books. simpl. split.
      * rewrite overwrite_by_uuid_uuids, Hu1. exact Hu.
      * apply overwrite_by_uuid_labels_NoDup; [rewrite Hu1; exact Hu | exact (Hl1 Hl) | exact Hg1].
    + eexists. split; [reflexivity|]. simpl. split; [reflexivity|]. split; [reflexivity|].
      intros [Hu Hl] _. unfold books_unique. simpl.
      split; [rewrite Hu1; exact Hu | exact (Hl1 Hl)].
Qed.

(** X8. The step and the full merge of a server book never fail and touch
    the book table only; on a store where every book uuid and every book
    label is held by one row, the merged store is again such a store: the
    rename on collision and the insert or overwrite that follows never
    produce a second row with the same uuid or label. *)
Theorem syncBook_keeps_unique (tx : DB) (b : SyncFragBook) :
  (exists tx', stepSyncBook tx b = Ok tx' /\
     notes tx' = notes tx /\ system tx' = system tx /\
     (books_unique tx -> books_unique tx')) /\
  (exists tx', fullSyncBook tx b = Ok tx' /\
     notes tx' = notes tx /\ system tx' = system tx /\
     (books_unique tx -> books_unique tx')).
Proof.
  assert (Habs : sql_query_row (fun r => b_UUID r = fb_UUID b) (books tx) = None ->
                 fb_UUID b ∉ (b_UUID <$> books tx)).
  { intros Hq Hin. apply list_elem_of_fmap in Hin as (r & Hu & Hr).
    exact (proj1 (sql_query_row_None _ _) Hq r Hr (eq_sym Hu)). }
  unfold stepSyncBook, fullSyncBook.
  destruct (sql_query_row (fun r => b_UUID r = fb_UUID b) (books tx)) as [r|] eqn:Hq.
  - destruct (mergeBook_unique tx b modeUpdate) as (tx' & Hm & Hn & Hs & Huniq).
    rewrite Hm. simpl.
    assert (Hkeep : books_unique tx -> books_unique tx').
    { intros Hu. apply Huniq; [exact Hu | discriminate]. }
    split.
    + exists tx'. split; [reflexivity|]. split; [exact Hn|]. split; [exact Hs | exact Hkeep].
    + destruct (decide (fb_USN b > b_USN r)).
      * exists tx'. split; [reflexivity|]. split; [exact Hn|].
        split; [exact Hs | exact Hkeep].
      * exists tx. split; [reflexivity|]. split; [reflexivity|].
        split; [reflexivity | auto].
  - destruct (mergeBook_unique tx b modeInsert) as (tx' & Hm & Hn & Hs & Huniq).
    rewrite Hm. simpl.
    assert (Hkeep : books_unique tx -> books_unique tx').
    { intros Hu. apply Huniq; [exact Hu|]. intros _. apply Habs. reflexivity. }
    split; exists tx'; (split; [reflexivity|]); (split; [exact Hn|]);
      (split; [exact Hs | exact Hkeep]).
Qed.

Lemma syncBook_keeps_unique_witness :
  exists tx',
    stepSyncBook ex_tx_labels (mkFragBook "S9" 7 "X" false) = Ok tx' /\
    books_unique tx'.
Proof.
  destruct (syncBook_keeps_unique ex_tx_labels (mkFragBook "S9" 7 "X" false))
    as ((tx' & Hs & _ & _ & Hu) & _).
  exists tx'. split; [exact Hs|]. apply Hu.
  split; apply (bool_decide_unpack _); vm_compute; exact I.
Defined.

Lemma sql_query_row_fmap {A} (P : A -> Prop) `{Pdec : !forall x, Decision (P x)}
    (g : A -> A) (t : list A) :
  (forall r, P (g r) <-> P r) ->
  sql_query_row P (g <$> t) = g <$> sql_query_row P t.
Proof.
  intros Hg. unfold sql_query_row. induction t as [|x t IH]; [reflexivity|].
  rewrite fmap_cons, !filter_cons.
  destruct (decide (P (g x))) as [H1|H1]; destruct (decide (P x)) as [H2|H2].
  - reflexivity.
  - exfalso. apply H2, Hg, H1.
  - exfalso. apply H1, Hg, H2.
  - exact IH.
Qed.

(** X9. After the step merge of a server book, reading the book back by
    uuid gives the server's uuid, label and usn.  When the uuid was not held
    locally the row is new, clean and not deleted, whatever the server's
    deleted flag; when it was held, the row takes the server's deleted flag,
    keeps its dirty flag, and is marked dirty if it already held the
    server's label, since the rename on collision applies to the book
    itself. *)
Theorem stepSyncBook_reads_back (tx : DB) (b : SyncFragBook) :
  exists tx' r,
    stepSyncBook tx b = Ok tx' /\
    sql_query_row (fun x => b_UUID x = fb_UUID b) (books tx') = Some r /\
    b_UUID r = fb_UUID b /\ b_Label r = fb_Label b /\ b_USN r = fb_USN b /\
    match sql_query_row (fun x => b_UUID x = fb_UUID b) (books tx) with
    | None => b_Deleted r = false /\ b_Dirty r = false
    | Some r0 =>
        b_Deleted r = fb_Deleted b /\
        b_Dirty r = (if decide (b_Label r0 = fb_Label b) then true else b_Dirty r0)
    end.
Proof.
  unfold stepSyncBook, mergeBook.
  destruct (resolveLabel_total tx (fb_Label b)) as (k & Hres & _).
  rewrite Hres.
  destruct (sql_query_row (fun x => b_UUID x = fb_UUID b) (books tx)) as [r0|] eqn:Hq.
  - destruct (decide (modeUpdate = modeInsert)) as [Hm|_]; [discriminate|].
    destruct (decide (modeUpdate = modeUpdate)) as [_|Hm]; [|contradiction].
    destruct (decide (sql_count (fun r => b_Label r = fb_Label b) (books tx) > 0))
      as [Hpos|Hnpos]; simpl.
    + pose proof (sql_query_row_Some _ _ _ Hq) as [_ Hu0].
      destruct (decide (b_Label r0 = fb_Label b)) as [El|El];
        eexists; eexists; (split; [reflexivity|]); simpl; unfold sql_update at 1;
        (rewrite (sql_query_row_fmap (fun x => b_UUID x = fb_UUID b));
          [|intros r; destruct (decide (b_UUID r = fb_UUID b)) as [E|E]; simpl; tauto]);
        unfold sql_update;
        (rewrite (sql_query_row_fmap (fun x => b_UUID x = fb_UUID b));
          [|intros r; destruct (decide (b_Label r = fb_Label b)); simpl; tauto]);
        rewrite Hq; simpl;
        (destruct (decide (b_Label r0 = fb_Label b)); [|try contradiction]);
        try contradiction; simpl;
        (destruct (decide (b_UUID r0 = fb_UUID b)); [|contradiction]);
        repeat split; reflexivity.
    + eexists. eexists. split; [reflexivity|]. simpl. unfold sql_update.
      rewrite (sql_query_row_fmap (fun x => b_UUID x = fb_UUID b)).
      2:{ intros r. destruct (decide (b_UUID r = fb_UUID b)) as [E|E]; simpl; tauto. }
      rewrite Hq. simpl. apply sql_query_row_Some in Hq as [Hin0 Hu0].
      destruct (decide (b_UUID r0 = fb_UUID b)); [|contradiction].
      destruct (decide (b_Label r0 = fb_Label b)) as [El|El].
      * exfalso. pose proof (sql_count_pos (fun r => b_Label r = fb_Label b) _ r0 Hin0 El).
        contradiction.
      * repeat split; reflexivity.
  - destruct (decide (modeInsert = modeInsert)) as [_|Hm]; [|contradiction].
    pose proof (proj1 (sql_query_row_None _ _) Hq) as Habs.
    destruct (decide (sql_count (fun r => b_Label r = fb_Label b) (books tx) > 0));
      simpl; eexists; eexists; (split; [reflexivity|]); simpl;
      (split;
        [apply (sql_query_row_app_absent (fun x => b_UUID x = fb_UUID b)); [|reflexivity]
        |repeat split; reflexivity]).
    + intros r Hr.
      apply (sql_update_elem (fun x => b_Label x = fb_Label b)) in Hr as (r1 & Hr1 & ->).
      destruct (decide (b_Label r1 = fb_Label b)); simpl; exact (Habs r1 Hr1).
    + exact Habs.
Qed.

(** ** Server deletions *)

(** X10. Applying a server-side note deletion touches the note table
    only.  With no local row of that uuid, or when the first such row is
    dirty, the store is unchanged; when it is clean, exactly the rows with
    that uuid are removed. *)
Theorem syncDeleteNote_cases (tx : DB) (noteUUID : string) :
  books (syncDeleteNote tx noteUUID) = books tx /\
  system (syncDeleteNote tx noteUUID) = system tx /\
  ((forall n, n ∈ notes tx -> n_UUID n <> noteUUID) -> syncDeleteNote tx noteUUID = tx) /\
  (forall r, sql_query_row (fun n => n_UUID n = noteUUID) (notes tx) = Some r ->
     (n_Dirty r = true -> syncDeleteNote tx noteUUID = tx) /\
     (n_Dirty r = false ->
        forall n, n ∈ notes (syncDeleteNote tx noteUUID) <->
                  n ∈ notes tx /\ n_UUID n <> noteUUID)).
Proof.
  unfold syncDeleteNote. split; [|split; [|split]].
  - destruct (sql_query_row _ _) as [r|]; [|reflexivity].
    destruct (negb (n_Dirty r)); reflexivity.
  - destruct (sql_query_row _ _) as [r|]; [|reflexivity].
    destruct (negb (n_Dirty r)); reflexivity.
  - intros Habs.
    rewrite (proj2 (sql_query_row_None (fun n => n_UUID n = noteUUID) (notes tx)) Habs).
    reflexivity.
  - intros r Hq. rewrite Hq. split; intros Hd; rewrite Hd; simpl; [reflexivity|].
    intros n. apply (sql_delete_elem (fun n => n_UUID n = noteUUID)).
Qed.

Lemma syncDeleteNote_cases_witness :
  syncDeleteNote ex_tx_s3 "N1" = ex_tx_s3.
Proof.
  destruct (syncDeleteNote_cases ex_tx_s3 "N1") as (_ & _ & _ & H).
  destruct (H (mkNote "N1" "B1" "draft" 1 0 0 false false true) eq_refl) as (Hd & _).
  exact (Hd eq_refl).
Defined.

Lemma sql_query_row_delete {A} (P : A -> Prop) `{Pdec : !forall x, Decision (P x)}
    (t : list A) :
  sql_query_row P (sql_delete P t) = None.
Proof.
  apply sql_query_row_None. intros r Hr. apply sql_delete_elem in Hr as [_ Hn]. exact Hn.
Qed.

(** X11. Server deletions are idempotent: applying the deletion of a note,
    or of a book, a second time changes nothing more. *)
Theorem syncDelete_idempotent (tx : DB) (u : string) :
  syncDeleteNote (syncDeleteNote tx u) u = syncDeleteNote tx u /\
  syncDeleteBook (syncDeleteBook tx u) u = syncDeleteBook tx u.
Proof.
  split.
  - unfold syncDeleteNote at 2 3.
    destruct (sql_query_row (fun r => n_UUID r = u) (notes tx)) as [r|] eqn:Hq.
    + destruct (n_Dirty r) eqn:Hd; simpl.
      * unfold syncDeleteNote. rewrite Hq, Hd. reflexivity.
      * unfold syncDeleteNote. simpl.
        rewrite (sql_query_row_delete (fun r => n_UUID r = u)). reflexivity.
    + unfold syncDeleteNote. rewrite Hq. reflexivity.
  - unfold syncDeleteBook at 2 3.
    destruct (sql_query_row (fun r => b_UUID r = u) (books tx)) as [r|] eqn:Hq.
    + destruct (b_Dirty r) eqn:Hd.
      * unfold syncDeleteBook. rewrite Hq, Hd. reflexivity.
      * destruct (checkNotesPristine tx u) eqn:Hp; simpl.
        -- unfold syncDeleteBook. simpl.
           rewrite (sql_query_row_delete (fun r => b_UUID r = u)). reflexivity.
        -- unfold syncDeleteBook. simpl. unfold sql_update at 1.
           rewrite (sql_query_row_fmap (fun r => b_UUID r = u)).
           2:{ intros x. destruct (decide (b_UUID x = u)); simpl; tauto. }
           rewrite Hq. simpl. apply sql_query_row_Some in Hq as [_ Hu].
           destruct (decide (b_UUID r = u)); [reflexivity | contradiction].
    + unfold syncDeleteBook. rewrite Hq. reflexivity.
Qed.

(** ** Push *)


Lemma expunge_books_fold (rows : list Book) (tx : DB) :
  notes (foldl (fun t r => Book_Expunge (scan_sendBook r) t) tx rows) = notes tx /\
  system (foldl (fun t r => Book_Expunge (scan_sendBook r) t) tx rows) = system tx /\
  forall b, b ∈ books (foldl (fun t r => Book_Expunge (scan_sendBook r) t) tx rows) <->
            b ∈ books tx /\ forall r, r ∈ rows -> b_UUID r <> b_UUID b.
Proof.
  revert tx. induction rows as [|r rows IH]; intros tx; simpl.
  - split; [reflexivity|]. split; [reflexivity|]. intros b. split.
    + intros Hb. split; [exact Hb|]. intros r Hr. inversion Hr.
    + intros [Hb _]. exact Hb.
  - destruct (IH (Book_Expunge (scan_sendBook r) tx)) as (Hn & Hs & Hb).
    split; [rewrite Hn; reflexivity|]. split; [rewrite Hs; reflexivity|].
    intros b. rewrite Hb. simpl.
    rewrite (sql_delete_elem (fun x => b_UUID x = b_UUID r)). split.
    + intros [[Hin Hne] Hrest]. split; [exact Hin|]. intros r' Hr'.
      apply elem_of_cons in Hr' as [->|Hr']; [congruence | exact (Hrest r' Hr')].
    + intros [Hin Hall]. split; [split; [exact Hin|]|].
      * intros Heq. apply (Hall r); [left | congruence].
      * intros r' Hr'. apply Hall. right. exact Hr'.
Qed.

Lemma expunge_notes_fold (rows : list Note) (tx : DB) :
  books (foldl (fun t r => Note_Expunge (scan_sendNote r) t) tx rows) = books tx /\
  system (foldl (fun t r => Note_Expunge (scan_sendNote r) t) tx rows) = system tx /\
  forall n, n ∈ notes (foldl (fun t r => Note_Expunge (scan_sendNote r) t) tx rows) <->
            n ∈ notes tx /\ forall r, r ∈ rows -> n_UUID r <> n_UUID n.
Proof.
  revert tx. induction rows as [|r rows IH]; intros tx; simpl.
  - split; [reflexivity|]. split; [reflexivity|]. intros b. split.
    + intros Hb. split; [exact Hb|]. intros r Hr. inversion Hr.
    + intros [Hb _]. exact Hb.
  - destruct (IH (Note_Expunge (scan_sendNote r) tx)) as (Hn & Hs & Hb).
    split; [rewrite Hn; reflexivity|]. split; [rewrite Hs; reflexivity|].
    intros b. rewrite Hb. simpl.
    rewrite (sql_delete_elem (fun x => n_UUID x = n_UUID r)). split.
    + intros [[Hin Hne] Hrest]. split; [exact Hin|]. intros r' Hr'.
      apply elem_of_cons in Hr' as [->|Hr']; [congruence | exact (Hrest r' Hr')].
    + intros [Hin Hall]. split; [split; [exact Hin|]|].
      * intros Heq. apply (Hall r); [left | congruence].
      * intros r' Hr'. apply Hall. right. exact Hr'.
Qed.

Section PushExtras.
Context {Srv : Type} (cl : Client Srv) (ctx : DnoteCtx).

Lemma foldM_expunge_books (rows : list Book) (acc : bool) (w : World Srv) :
  (forall r, r ∈ rows -> b_USN r = 0 /\ b_Deleted r = true) ->
  foldM (sendBooks_body cl) acc rows w =
    (Ok acc, mkWorld (w_srv w) (w_calls w) (w_db w)
               (foldl (fun t r => Book_Expunge (scan_sendBook r) t) (w_tx w) rows)).
Proof.
  revert w. induction rows as [|r rows IH]; intros w Hall; simpl.
  - destruct w; reflexivity.
  - destruct (Hall r (list_elem_of_here _ _)) as [Hu Hd].
    unfold mbind, M_bind. unfold sendBooks_body at 1. simpl. rewrite Hd.
    destruct (decide (b_USN r = 0)); [|contradiction].
    unfold mbind, M_bind, tx_exec. simpl.
    rewrite IH; [reflexivity|]. intros r' Hr'. apply Hall. right. exact Hr'.
Qed.

Lemma foldM_expunge_notes (rows : list Note) (acc : bool) (w : World Srv) :
  (forall r, r ∈ rows -> n_USN r = 0 /\ n_Deleted r = true) ->
  foldM (sendNotes_body cl) acc rows w =
    (Ok acc, mkWorld (w_srv w) (w_calls w) (w_db w)
               (foldl (fun t r => Note_Expunge (scan_sendNote r) t) (w_tx w) rows)).
Proof.
  revert w. induction rows as [|r rows IH]; intros w Hall; simpl.
  - destruct w; reflexivity.
  - destruct (Hall r (list_elem_of_here _ _)) as [Hu Hd].
    unfold mbind, M_bind. unfold sendNotes_body at 1. simpl. rewrite Hd.
    destruct (decide (n_USN r = 0)); [|contradiction].
    unfold mbind, M_bind, tx_exec. simpl.
    rewrite IH; [reflexivity|]. intros r' Hr'. apply Hall. right. exact Hr'.
Qed.

(** X12. When every dirty book and every dirty note is new and already
    deleted locally (usn 0, deleted), the push sends no request to the
    server: [sendChanges] succeeds without being behind, the system table
    and the committed store are untouched, and what is removed from each
    table is exactly the rows that share a uuid with one of its dirty rows.
    In particular a push with nothing dirty changes no row. *)
Theorem sendChanges_drops_unsent_deleted (w : World Srv) :
  (forall b, b ∈ books (w_tx w) -> b_Dirty b = true -> b_USN b = 0 /\ b_Deleted b = true) ->
  (forall n, n ∈ notes (w_tx w) -> n_Dirty n = true -> n_USN n = 0 /\ n_Deleted n = true) ->
  exists w',
    sendChanges cl w = (Ok false, w') /\
    w_srv w' = w_srv w /\ w_calls w' = w_calls w /\ w_db w' = w_db w /\
    system (w_tx w') = system (w_tx w) /\
    (forall b, b ∈ books (w_tx w') <->
       b ∈ books (w_tx w) /\
       forall r, r ∈ books (w_tx w) -> b_Dirty r = true -> b_UUID r <> b_UUID b) /\
    (forall n, n ∈ notes (w_tx w') <->
       n ∈ notes (w_tx w) /\
       forall r, r ∈ notes (w_tx w) -> n_Dirty r = true -> n_UUID r <> n_UUID n).
Proof.
  intros Hb Hn.
  set (brows := filter (fun r => b_Dirty r = true) (books (w_tx w))).
  set (nrows := filter (fun r => n_Dirty r = true) (notes (w_tx w))).
  destruct (expunge_books_fold brows (w_tx w)) as (Hbn & Hbs & Hbb).
  set (tx1 := foldl (fun t r => Book_Expunge (scan_sendBook r) t) (w_tx w) brows) in *.
  destruct (expunge_notes_fold nrows tx1) as (Hnb & Hns & Hnn).
  set (tx2 := foldl (fun t r => Note_Expunge (scan_sendNote r) t) tx1 nrows) in *.
  exists (mkWorld (w_srv w) (w_calls w) (w_db w) tx2).
  split.
  - rewrite sendChanges_count.
    unfold sendBooks, sendNotes, mbind, M_bind, wrapM, tx_get.
    fold brows. rewrite foldM_expunge_books.
    2:{ intros r Hr. apply list_elem_of_filter in Hr as [Hd Hr]. exact (Hb r Hr Hd). }
    fold tx1. simpl. rewrite Hbn. fold nrows. rewrite foldM_expunge_notes.
    2:{ intros r Hr. apply list_elem_of_filter in Hr as [Hd Hr]. exact (Hn r Hr Hd). }
    simpl. fold tx2. reflexivity.
  - simpl. split; [reflexivity|]. split; [reflexivity|]. split; [reflexivity|].
    split; [rewrite Hns, Hbs; reflexivity|]. split.
    + intros b. rewrite Hnb, Hbb. split; intros [Hin Hall]; (split; [exact Hin|]).
      * intros r Hr Hd. apply Hall. apply list_elem_of_filter. auto.
      * intros r Hr. apply list_elem_of_filter in Hr as [Hd Hr]. exact (Hall r Hr Hd).
    + intros n. rewrite Hnn, Hbn. split; intros [Hin Hall]; (split; [exact Hin|]).
      * intros r Hr Hd. apply Hall. apply list_elem_of_filter. auto.
      * intros r Hr. apply list_elem_of_filter in Hr as [Hd Hr]. exact (Hall r Hr Hd).
Qed.

End PushExtras.

Lemma sendChanges_drops_unsent_deleted_witness :
  exists w',
    sendChanges ex_client (ex_world (mkScript None [] []) ex_tx_unsent) = (Ok false, w') /\
    w_calls w' = [].
Proof.
  destruct (sendChanges_drops_unsent_deleted ex_client
              (ex_world (mkScript None [] []) ex_tx_unsent))
    as (w' & Hrun & _ & Hcalls & _).
  - intros b Hb Hd. simpl in Hb.
    apply elem_of_cons in Hb as [->|Hb]; [split; reflexivity|].
    apply list_elem_of_singleton in Hb. subst b. discriminate.
  - intros n Hn Hd. simpl in Hn.
    apply list_elem_of_singleton in Hn. subst n. split; reflexivity.
  - exists w'. split; [exact Hrun | exact Hcalls].
Defined.

Section PushCreate.
Context {Srv : Type} (cl : Client Srv) (ctx : DnoteCtx).

(** X13. Uploading a new local book sends one [CreateBook] request with
    its label and then moves the book's notes to the uuid the server
    returned: a note that referenced the local uuid references the server's,
    every other note is untouched, and unless the server returned the local
    uuid itself no note references it any more. *)
Theorem sendBooks_create_moves_notes (isBehind : bool) (r : Book) (w : World Srv)
    (v : Z) (resp : string * Z) (s' : Srv) :
  system (w_tx w) !! SystemLastMaxUSN = Some v ->
  b_USN r = 0 -> b_Deleted r = false ->
  CreateBook cl (b_Label r) (w_srv w) = (Some resp, s') ->
  exists behind w',
    sendBooks_body cl isBehind r w = (Ok behind, w') /\
    w_srv w' = s' /\
    w_calls w' = w_calls w ++ [ReqCreateBook (b_Label r)] /\
    (forall (i : nat) (n : Note), notes (w_tx w) !! i = Some n ->
       notes (w_tx w') !! i =
         Some (if decide (n_BookUUID n = b_UUID r)
               then mkNote (n_UUID n) resp.1 (n_Body n) (n_AddedOn n) (n_EditedOn n)
                      (n_USN n) (n_Public n) (n_Deleted n) (n_Dirty n)
               else n)) /\
    (resp.1 <> b_UUID r ->
     forall n, n ∈ notes (w_tx w') -> n_BookUUID n <> b_UUID r).
Proof.
  intros Hv Husn Hdel Hresp.
  unfold sendBooks_body. simpl. rewrite Hdel.
  destruct (decide (b_USN r = 0)) as [_|Hn]; [|contradiction].
  unfold mbind at 1, M_bind at 1, wrapM at 1, call. rewrite Hresp.
  unfold mbind, M_bind, tx_exec. simpl.
  match goal with |- context [ackUSN _ _ ?w0] =>
    rewrite (ackUSN_spec resp.2 isBehind w0 v Hv)
  end.
  assert (Hrows : forall n',
    n' ∈ sql_update (fun n => n_BookUUID n = b_UUID r)
           (fun n => mkNote (n_UUID n) resp.1 (n_Body n) (n_AddedOn n) (n_EditedOn n)
                       (n_USN n) (n_Public n) (n_Deleted n) (n_Dirty n))
           (notes (w_tx w)) ->
    resp.1 <> b_UUID r -> n_BookUUID n' <> b_UUID r).
  { intros n' Hn' Hne.
    apply (sql_update_elem (fun n => n_BookUUID n = b_UUID r)) in Hn' as (n & _ & ->).
    destruct (decide (n_BookUUID n = b_UUID r)); simpl; assumption. }
  destruct (decide (resp.2 = add64 v 1)) as [Eack|Eack]; eexists; eexists;
    (split; [reflexivity|]); simpl; (split; [reflexivity|]); (split; [reflexivity|]);
    (split; [intros i n Hi; rewrite sql_update_lookup, Hi; reflexivity|]);
    intros Hne n' Hn'; exact (Hrows n' Hn' Hne).
Qed.



End PushCreate.

Lemma sendBooks_create_moves_notes_witness :
  exists behind w',
    sendBooks_body ex_client false (mkBook "L1" "js" 0 true false)
      (ex_world (mkScript None [] [42]) ex_tx_newbook) = (Ok behind, w') /\
    forall n, n ∈ notes (w_tx w') -> n_BookUUID n <> "L1".
Proof.
  destruct (sendBooks_create_moves_notes ex_client false (mkBook "L1" "js" 0 true false)
              (ex_world (mkScript None [] [42]) ex_tx_newbook) 41 ("S-js", 42)
              (mkScript None [] []) eq_refl eq_refl eq_refl eq_refl)
    as (behind & w' & Hrun & _ & _ & _ & Hgone).
  exists behind, w'. split; [exact Hrun|]. apply Hgone. discriminate.
Defined.


Lemma processFragments_last_wins_witness :
  exists sl,
    processFragments ex_client ex_ctx [ex_frag_first; ex_frag_second] = Ok sl /\
    sl_Notes sl !! "N1" = Some ex_note_server.
Proof.
  assert (Hp : exists sl,
             processFragments ex_client ex_ctx [ex_frag_first; ex_frag_second] = Ok sl)
    by (eexists; vm_compute; reflexivity).
  destruct Hp as [sl Hp]. exists sl. split; [exact Hp|].
  rewrite (proj1 (processFragments_last_wins ex_client ex_ctx _ sl Hp) "N1").
  vm_compute. reflexivity.
Defined.

Lemma processFragments_expunged_union_witness :
  exists sl,
    processFragments ex_client ex_ctx [ex_frag_first; ex_frag_second] = Ok sl /\
    "N9" ∈ sl_ExpungedNotes sl.
Proof.
  assert (Hp : exists sl,
             processFragments ex_client ex_ctx [ex_frag_first; ex_frag_second] = Ok sl)
    by (eexists; vm_compute; reflexivity).
  destruct Hp as [sl Hp]. exists sl. split; [exact Hp|].
  apply (proj1 (processFragments_expunged_union ex_client ex_ctx _ sl Hp) "N9").
  exists ex_frag_first. split; [left | left].
Defined.

(** ** Migration lm7: reserved book names *)

Lemma migrateBook_loop_resolve (n : nat) (tx : DB) (name uuid : string) (i : nat) :
  migrateBook_loop n tx name uuid i =
    match resolveLabel_loop n tx name i with
    | Ok candidate =>
        Ok (set_books (sql_update (fun r => b_UUID r = uuid)
              (fun r => mkBook (b_UUID r) candidate (b_USN r) true (b_Deleted r))) tx)
    | Err e => Err e
    | Fuel => Fuel
    end.
Proof.
  revert i. induction n as [|n IH]; intros i; simpl; [reflexivity|].
  destruct (decide (sql_count _ _ = 0)); [reflexivity | apply IH].
Qed.

Lemma set_label_by_uuid_NoDup (U newLabel : string) (f : Book -> Book) (t : list Book) :
  (forall r, b_Label (f r) = newLabel) ->
  NoDup (b_UUID <$> t) ->
  NoDup (b_Label <$> t) ->
  newLabel ∉ (b_Label <$> t) ->
  NoDup (b_Label <$> sql_update (fun r => b_UUID r = U) f t).
Proof.
  intros Hf Hu Hl Hfresh. unfold sql_update. rewrite <- list_fmap_compose.
  apply NoDup_fmap_2_strong; [|exact (NoDup_fmap_1 _ _ Hu)].
  intros x y Hx Hy. simpl.
  destruct (decide (b_UUID x = U)) as [Ex|Ex];
    destruct (decide (b_UUID y = U)) as [Ey|Ey]; rewrite ?Hf; intros E.
  - apply (NoDup_fmap_eq b_UUID t); [exact Hu | exact Hx | exact Hy | congruence].
  - exfalso. apply Hfresh. rewrite E. apply list_elem_of_fmap. exists y. auto.
  - exfalso. apply Hfresh. rewrite <- E. apply list_elem_of_fmap. exists x. auto.
  - apply (NoDup_fmap_eq b_Label t); [exact Hl | exact Hx | exact Hy | exact E].
Qed.

Lemma migrateBook_unique (tx : DB) (name : string) :
  exists tx',
    migrateBook tx name = Ok tx' /\
    notes tx' = notes tx /\ system tx' = system tx /\
    b_UUID <$> books tx' = b_UUID <$> books tx /\
    (books_unique tx ->
     books_unique tx' /\
     (forall b, b ∈ books tx' -> b_Label b <> name) /\
     (forall (i : nat) (r : Book), books tx !! i = Some r ->
        exists r', books tx' !! i = Some r' /\
          ((b_Label r <> name /\ r' = r) \/
           (b_Label r = name /\
            exists k, (2 <= k)%nat /\
              r' = mkBook (b_UUID r) (Sprintf_label name k) (b_USN r) true (b_Deleted r))))).
Proof.
  unfold migrateBook.
  destruct (sql_query_row (fun b => b_Label b = name) (books tx)) as [r0|] eqn:Hq.
  - rewrite migrateBook_loop_resolve.
    destruct (resolveLabel_total tx name) as (k & Hres & Hk & Hfree & _).
    unfold resolveLabel in Hres. rewrite Hres.
    eexists. split; [reflexivity|]. simpl. split; [reflexivity|]. split; [reflexivity|].
    split; [exact (relabel_uuids (fun r => b_UUID r = b_UUID r0)
                     (Sprintf_label name k) (books tx))|].
    intros [Hu Hl].
    apply sql_query_row_Some in Hq as [Hin0 Hl0].
    assert (Hfresh : Sprintf_label name k ∉ (b_Label <$> books tx)).
    { intros Hin. apply list_elem_of_fmap in Hin as (r & Hlr & Hr).
      apply Hfree. exists r. split; [exact Hr | symmetry; exact Hlr]. }
    assert (Hrow : forall r, r ∈ books tx ->
              (b_UUID r = b_UUID r0 <-> b_Label r = name)).
    { intros r Hr. split; intros E.
      - rewrite (NoDup_fmap_eq b_UUID (books tx) r r0 Hu Hr Hin0 E). exact Hl0.
      - f_equal. apply (NoDup_fmap_eq b_Label (books tx)); [exact Hl | exact Hr | exact Hin0|].
        congruence. }
    split; [split|split].
    + simpl. rewrite (relabel_uuids (fun r => b_UUID r = b_UUID r0)
                       (Sprintf_label name k) (books tx)). exact Hu.
    + simpl. apply (set_label_by_uuid_NoDup (b_UUID r0) (Sprintf_label name k));
        [intros r; reflexivity | exact Hu | exact Hl | exact Hfresh].
    + intros b Hb.
      apply (sql_update_elem (fun r => b_UUID r = b_UUID r0)) in Hb as (r & Hr & ->).
      destruct (decide (b_UUID r = b_UUID r0)) as [E|E]; simpl.
      * apply Sprintf_label_neq.
      * intros Hn. apply E. apply (Hrow r Hr). exact Hn.
    + intros i r Hi. rewrite sql_update_lookup, Hi. simpl.
      assert (Hr : r ∈ books tx) by (apply list_elem_of_lookup; eauto).
      destruct (decide (b_UUID r = b_UUID r0)) as [E|E]; eexists; (split; [reflexivity|]).
      * right. split; [apply (Hrow r Hr); exact E|]. exists k. split; [lia | reflexivity].
      * left. split; [|reflexivity]. intros Hn. apply E. apply (Hrow r Hr). exact Hn.
  - exists tx. split; [reflexivity|]. split; [reflexivity|]. split; [reflexivity|].
    split; [reflexivity|]. intros Huniq. split; [exact Huniq|].
    pose proof (proj1 (sql_query_row_None _ _) Hq) as Habs. split.
    + intros b Hb. exact (Habs b Hb).
    + intros i r Hi. exists r. split; [exact Hi|]. left. split; [|reflexivity].
      apply (Habs r). apply list_elem_of_lookup. eauto.
Qed.

(** X15. Migration lm7 never fails and changes only labels and dirty
    flags of books.  On a store where every book uuid and every book label
    is held by one row only, afterwards no book is labelled "trash" or
    "conflicts", uuids and labels are still unique, a book that held a
    reserved label holds that label followed by " (k)" for some k from 2
    and is dirty, and every other book is unchanged. *)
Theorem lm7_frees_reserved_labels (tx : DB) :
  exists tx',
    lm7_run tx = Ok tx' /\
    notes tx' = notes tx /\ system tx' = system tx /\
    b_UUID <$> books tx' = b_UUID <$> books tx /\
    (books_unique tx ->
     books_unique tx' /\
     (forall b, b ∈ books tx' -> b_Label b <> "trash" /\ b_Label b <> "conflicts") /\
     (forall (i : nat) (r : Book), books tx !! i = Some r ->
        exists r', books tx' !! i = Some r' /\
          ((b_Label r <> "trash" /\ b_Label r <> "conflicts" /\ r' = r) \/
           ((b_Label r = "trash" \/ b_Label r = "conflicts") /\
            exists k, (2 <= k)%nat /\
              r' = mkBook (b_UUID r) (Sprintf_label (b_Label r) k) (b_USN r) true
                     (b_Deleted r))))).
Proof.
  unfold lm7_run.
  destruct (migrateBook_unique tx "trash") as (tx1 & Hm1 & Hn1 & Hs1 & Hu1 & H1).
  rewrite Hm1.
  destruct (migrateBook_unique tx1 "conflicts") as (tx2 & Hm2 & Hn2 & Hs2 & Hu2 & H2).
  rewrite Hm2. simpl.
  exists tx2. split; [reflexivity|]. split; [congruence|]. split; [congruence|].
  split; [congruence|]. intros Huniq.
  destruct (H1 Huniq) as (Huniq1 & Hgone1 & Hrows1).
  destruct (H2 Huniq1) as (Huniq2 & Hgone2 & Hrows2).
  assert (Hrows : forall (i : nat) (r : Book), books tx !! i = Some r ->
            exists r', books tx2 !! i = Some r' /\
              ((b_Label r <> "trash" /\ b_Label r <> "conflicts" /\ r' = r) \/
               ((b_Label r = "trash" \/ b_Label r = "conflicts") /\
                exists k, (2 <= k)%nat /\
                  r' = mkBook (b_UUID r) (Sprintf_label (b_Label r) k) (b_USN r) true
                         (b_Deleted r)))).
  { intros i r Hi.
    destruct (Hrows1 i r Hi) as (r1 & Hi1 & [[Hne1 ->]|[He1 (k1 & Hk1 & ->)]]).
    - destruct (Hrows2 i r Hi1) as (r2 & Hi2 & [[Hne2 ->]|[He2 (k2 & Hk2 & ->)]]).
      + exists r. split; [exact Hi2|]. left. auto.
      + eexists. split; [exact Hi2|]. right. split; [right; exact He2|].
        exists k2. rewrite He2. split; [exact Hk2 | reflexivity].
    - destruct (Hrows2 i _ Hi1) as (r2 & Hi2 & [[Hne2 ->]|[He2 _]]).
      + eexists. split; [exact Hi2|]. right. split; [left; exact He1|].
        exists k1. rewrite He1. split; [exact Hk1 | reflexivity].
      + exfalso. simpl in He2. unfold Sprintf_label in He2. discriminate. }
  split; [exact Huniq2|]. split; [|exact Hrows].
  intros b Hb. split; [|exact (Hgone2 b Hb)].
  apply list_elem_of_lookup in Hb as [i Hi].
  assert (Hlen : (i < length (books tx))%nat).
  { apply lookup_lt_Some in Hi.
    rewrite <- (length_fmap b_UUID (books tx)), <- Hu1, <- Hu2, length_fmap. exact Hi. }
  destruct (lookup_lt_is_Some_2 _ _ Hlen) as [r Hr].
  destruct (Hrows i r Hr) as (r' & Hi' & Hcase).
  rewrite Hi in Hi'. inversion Hi'; subst r'.
  destruct Hcase as [(Hne & _ & ->)|[[He|He] (k & _ & ->)]]; simpl.
  - exact Hne.
  - rewrite He. apply Sprintf_label_neq.
  - rewrite He. unfold Sprintf_label. discriminate.
Qed.

Lemma lm7_frees_reserved_labels_witness :
  exists tx',
    lm7_run ex_tx_reserved = Ok tx' /\
    forall b, b ∈ books tx' -> b_Label b <> "trash" /\ b_Label b <> "conflicts".
Proof.
  destruct (lm7_frees_reserved_labels ex_tx_reserved) as (tx' & Hrun & _ & _ & _ & H).
  exists tx'. split; [exact Hrun|].
  destruct H as (_ & Hgone & _); [|exact Hgone].
  split; apply (bool_decide_unpack _); vm_compute; exact I.
Defined.

(** ** Migration rm1: book uuids from the server *)

Lemma rm1_body_books (tx : DB) (book : GetBooksRespItem) :
  exists tx',
    rm1_body tx book = Ok tx' /\
    system tx' = system tx /\
    books tx' =
      (fun r => if decide (b_Label r = gb_Label book)
                then mkBook (gb_UUID book) (b_Label r) (b_USN r) (b_Dirty r) (b_Deleted r)
                else r) <$> books tx.
Proof.
  unfold rm1_body.
  destruct (decide (sql_count (fun b => b_Label b = gb_Label book) (books tx) = 0))
    as [Hz|Hnz].
  - exists tx. split; [reflexivity|]. split; [reflexivity|].
    rewrite <- (list_fmap_id (books tx)) at 1. apply list_fmap_ext.
    intros i r Hi. simpl.
    destruct (decide (b_Label r = gb_Label book)) as [E|E]; [|reflexivity].
    exfalso. apply (proj1 (sql_count_zero _ _) Hz r); [|exact E].
    apply list_elem_of_lookup. eauto.
  - destruct (sql_query_row (fun b => b_Label b = gb_Label book) (books tx))
      as [r0|] eqn:Hq.
    + eexists. split; [reflexivity|]. split; reflexivity.
    + exfalso. apply Hnz. apply sql_count_zero.
      exact (proj1 (sql_query_row_None _ _) Hq).
Qed.

Lemma rm1_book_cons (book : GetBooksRespItem) (rest : list GetBooksRespItem) (r : Book) :
  rm1_book (book :: rest) r =
    rm1_book rest
      (if decide (b_Label r = gb_Label book)
       then mkBook (gb_UUID book) (b_Label r) (b_USN r) (b_Dirty r) (b_Deleted r)
       else r).
Proof.
  unfold rm1_book. rewrite last_with_cons.
  destruct (decide (b_Label r = gb_Label book)) as [E|E]; simpl.
  - destruct (last_with (fun sb => gb_Label sb = b_Label r) rest); [reflexivity|].
    destruct (decide (gb_Label book = b_Label r)); [reflexivity | congruence].
  - destruct (last_with (fun sb => gb_Label sb = b_Label r) rest); [reflexivity|].
    destruct (decide (gb_Label book = b_Label r)); [congruence | reflexivity].
Qed.

Lemma rm1_loop_books (resp : list GetBooksRespItem) (tx : DB) :
  exists tx',
    rm1_loop tx resp = Ok tx' /\
    system tx' = system tx /\
    books tx' = rm1_book resp <$> books tx.
Proof.
  revert tx. induction resp as [|book rest IH]; intros tx; simpl.
  - exists tx. split; [reflexivity|]. split; [reflexivity|].
    rewrite <- (list_fmap_id (books tx)) at 1. apply list_fmap_ext. reflexivity.
  - destruct (rm1_body_books tx book) as (tx1 & Hb & Hs1 & Hb1). rewrite Hb.
    destruct (IH tx1) as (tx' & Hl & Hs & Hbs).
    exists tx'. split; [exact Hl|]. split; [congruence|].
    rewrite Hbs, Hb1, <- list_fmap_compose. apply list_fmap_ext.
    intros i r _. simpl. symmetry. apply rm1_book_cons.
Qed.

(** X16. With a session key and an answer from the server, migration rm1
    never fails; it leaves the system table alone and changes nothing of a
    book but its uuid: every book row ends with the uuid of the last server
    book that has its label, and keeps its own uuid when the server has no
    book of that label.  Without a session key, or when the server call
    fails, it returns an error. *)
Theorem rm1_adopts_server_uuids (ctx : DnoteCtx)
    (getBooks : string -> option (list GetBooksRespItem)) (tx : DB) :
  (SessionKey ctx <> "" ->
   forall resp, getBooks (SessionKey ctx) = Some resp ->
     exists tx',
       rm1_run ctx getBooks tx = Ok tx' /\
       system tx' = system tx /\
       books tx' = rm1_book resp <$> books tx /\
       (forall (i : nat) (r : Book), books tx !! i = Some r ->
          exists r', books tx' !! i = Some r' /\
            b_Label r' = b_Label r /\ b_USN r' = b_USN r /\
            b_Dirty r' = b_Dirty r /\ b_Deleted r' = b_Deleted r /\
            b_UUID r' =
              match last_with (fun sb => gb_Label sb = b_Label r) resp with
              | Some sb => gb_UUID sb
              | None => b_UUID r
              end)) /\
  (SessionKey ctx = "" \/ getBooks (SessionKey ctx) = None ->
   exists e, rm1_run ctx getBooks tx = Err e).
Proof.
  unfold rm1_run. split.
  - intros Hkey resp Hresp.
    destruct (decide (SessionKey ctx = "")); [contradiction|]. rewrite Hresp.
    destruct (rm1_loop_books resp tx) as (tx' & Hl & Hs & Hb).
    exists tx'. split; [exact Hl|]. split; [exact Hs|]. split; [exact Hb|].
    intros i r Hi. rewrite Hb, list_lookup_fmap, Hi. simpl.
    eexists. split; [reflexivity|]. unfold rm1_book.
    destruct (last_with (fun sb => gb_Label sb = b_Label r) resp); repeat split; reflexivity.
  - intros [Hkey|Hfail].
    + destruct (decide (SessionKey ctx = "")); [eauto | contradiction].
    + destruct (decide (SessionKey ctx = "")); [eauto|]. rewrite Hfail. eauto.
Qed.

Lemma rm1_adopts_server_uuids_witness :
  exists tx',
    rm1_run ex_ctx (fun _ => Some [mkBookResp "srv-js" "js"]) ex_tx_rm1 = Ok tx' /\
    books tx' = [mkBook "srv-js" "js" 0 false false; mkBook "old-go" "go" 0 false false].
Proof.
  destruct (rm1_adopts_server_uuids ex_ctx (fun _ => Some [mkBookResp "srv-js" "js"])
              ex_tx_rm1) as (Hok & _).
  destruct (Hok ltac:(discriminate) [mkBookResp "srv-js" "js"] eq_refl)
    as (tx' & Hrun & _ & Hb & _).
  exists tx'. split; [exact Hrun|]. rewrite Hb. reflexivity.
Defined.

Lemma rm1_body_owned (tx tx' : DB) (book : GetBooksRespItem) :
  rm1_body tx book = Ok tx' ->
  (b_Label <$> books tx' = b_Label <$> books tx) /\
  (forall (i : nat) (n : Note), notes tx !! i = Some n ->
     exists u, notes tx' !! i =
       Some (mkNote (n_UUID n) u (n_Body n) (n_AddedOn n) (n_EditedOn n) (n_USN n)
               (n_Public n) (n_Deleted n) (n_Dirty n))) /\
  (NoDup (b_Label <$> books tx) -> notes_owned tx -> notes_owned tx').
Proof.
  unfold rm1_body.
  destruct (decide (sql_count (fun b => b_Label b = gb_Label book) (books tx) = 0))
    as [Hz|Hnz].
  - intros Heq. inversion Heq; subst. split; [reflexivity|]. split; [|auto].
    intros i n Hi. exists (n_BookUUID n). rewrite Hi. destruct n; reflexivity.
  - destruct (sql_query_row (fun b => b_Label b = gb_Label book) (books tx))
      as [r0|] eqn:Hq; [|discriminate].
    intros Heq. inversion Heq; subst; clear Heq. simpl.
    apply sql_query_row_Some in Hq as [Hin0 Hl0].
    split; [|split].
    + unfold sql_update. rewrite <- list_fmap_compose. apply list_fmap_ext.
      intros i r _. simpl. destruct (decide (b_Label r = gb_Label book)); reflexivity.
    + intros i n Hi. rewrite sql_update_lookup, Hi. simpl.
      destruct (decide (n_BookUUID n = b_UUID r0)).
      * exists (gb_UUID book). reflexivity.
      * exists (n_BookUUID n). destruct n; reflexivity.
    + intros Hnd Hown n' Hn'. simpl in Hn'.
      apply (sql_update_elem (fun n => n_BookUUID n = b_UUID r0)) in Hn' as (n & Hn & ->).
      destruct (decide (n_BookUUID n = b_UUID r0)) as [E|E]; simpl.
      * exists (mkBook (gb_UUID book) (b_Label r0) (b_USN r0) (b_Dirty r0) (b_Deleted r0)).
        split; [|reflexivity].
        apply (sql_update_elem (fun b => b_Label b = gb_Label book)).
        exists r0. split; [exact Hin0|].
        destruct (decide (b_Label r0 = gb_Label book)); [reflexivity | contradiction].
      * destruct (Hown n Hn) as (b & Hb & Hu). exists b. split; [|exact Hu].
        apply (sql_update_elem (fun b => b_Label b = gb_Label book)).
        exists b. split; [exact Hb|].
        destruct (decide (b_Label b = gb_Label book)) as [El|El]; [|reflexivity].
        exfalso. apply E. rewrite <- Hu. f_equal.
        apply (NoDup_fmap_eq b_Label (books tx)); [exact Hnd | exact Hb | exact Hin0|].
        congruence.
Qed.

Lemma rm1_loop_owned (resp : list GetBooksRespItem) (tx tx' : DB) :
  rm1_loop tx resp = Ok tx' ->
  (b_Label <$> books tx' = b_Label <$> books tx) /\
  (forall (i : nat) (n : Note), notes tx !! i = Some n ->
     exists u, notes tx' !! i =
       Some (mkNote (n_UUID n) u (n_Body n) (n_AddedOn n) (n_EditedOn n) (n_USN n)
               (n_Public n) (n_Deleted n) (n_Dirty n))) /\
  (NoDup (b_Label <$> books tx) -> notes_owned tx -> notes_owned tx').
Proof.
  revert tx. induction resp as [|book rest IH]; intros tx; simpl.
  - intros Heq. inversion Heq; subst. split; [reflexivity|]. split; [|auto].
    intros i n Hi. exists (n_BookUUID n). rewrite Hi. destruct n; reflexivity.
  - destruct (rm1_body tx book) as [tx1|e|] eqn:Hb; try discriminate.
    intros Hl. destruct (rm1_body_owned _ _ _ Hb) as (Hl1 & Hn1 & Ho1).
    destruct (IH _ Hl) as (Hl2 & Hn2 & Ho2).
    split; [congruence|]. split.
    + intros i n Hi. destruct (Hn1 i n Hi) as (u1 & Hi1).
      destruct (Hn2 i _ Hi1) as (u2 & Hi2). exists u2. exact Hi2.
    + intros Hnd Hown. apply Ho2; [rewrite Hl1; exact Hnd | exact (Ho1 Hnd Hown)].
Qed.

(** X17. A successful run of migration rm1 changes nothing of a note but
    its book uuid and leaves every book label as it was; on a store where
    no two books share a label, if every note belonged to a book of the
    store before the run, every note does so after it. *)
Theorem rm1_keeps_notes_owned (ctx : DnoteCtx)
    (getBooks : string -> option (list GetBooksRespItem)) (tx tx' : DB) :
  rm1_run ctx getBooks tx = Ok tx' ->
  (b_Label <$> books tx' = b_Label <$> books tx) /\
  (forall (i : nat) (n : Note), notes tx !! i = Some n ->
     exists u, notes tx' !! i =
       Some (mkNote (n_UUID n) u (n_Body n) (n_AddedOn n) (n_EditedOn n) (n_USN n)
               (n_Public n) (n_Deleted n) (n_Dirty n))) /\
  (NoDup (b_Label <$> books tx) -> notes_owned tx -> notes_owned tx').
Proof.
  unfold rm1_run. destruct (decide (SessionKey ctx = "")); [discriminate|].
  destruct (getBooks (SessionKey ctx)) as [resp|]; [|discriminate].
  apply rm1_loop_owned.
Qed.

Lemma rm1_keeps_notes_owned_witness :
  notes_owned (mkDB [mkBook "srv-js" "js" 0 false false; mkBook "old-go" "go" 0 false false]
                 [mkNote "N1" "srv-js" "hello" 1 0 0 false false false] ∅).
Proof.
  destruct (rm1_keeps_notes_owned ex_ctx (fun _ => Some [mkBookResp "srv-js" "js"])
              ex_tx_rm1 _ eq_refl) as (_ & _ & Hown).
  apply Hown.
  - apply (bool_decide_unpack _). vm_compute. exact I.
  - intros n Hn. simpl in Hn. apply list_elem_of_singleton in Hn. subst n.
    exists (mkBook "old-js" "js" 0 false false). split; [left | reflexivity].
Defined.

(** ** What a pull records and what a book merge leaves alone *)

Section PullRecords.
Context {Srv : Type} (cl : Client Srv) (ctx : DnoteCtx).

Lemma processFragments_from_MaxCurrentTime (fragments : list SyncFragment)
    (acc sl : syncList) :
  processFragments_from cl ctx fragments acc = Ok sl ->
  sl_MaxCurrentTime sl = foldl Z.max (sl_MaxCurrentTime acc) (CurrentTime <$> fragments).
Proof.
  revert acc. induction fragments as [|f rest IH]; intros acc; simpl.
  - intros Heq. inversion Heq. reflexivity.
  - destruct (processNotes cl ctx (Notes f) (sl_Notes acc)) as [ns|e|]; try discriminate.
    destruct (processBooks cl ctx (Books f) (sl_Books acc)) as [bs|e|]; try discriminate.
    intros Hrest. apply IH in Hrest. rewrite Hrest. simpl. f_equal.
    destruct (decide (CurrentTime f > sl_MaxCurrentTime acc)); lia.
Qed.

Lemma getSyncList_MaxCurrentTime (fuel : nat) (a : Z) (w w' : World Srv) (sl : syncList) :
  getSyncList cl ctx fuel a w = (Ok sl, w') ->
  exists fragments,
    getSyncFragments cl fuel a w = (Ok fragments, w') /\
    sl_MaxCurrentTime sl = max_CurrentTime fragments.
Proof.
  unfold getSyncList. intros Hrun.
  apply bind_ok_inv in Hrun as (frags & w1 & Hfr & Hp).
  apply wrapM_ok_inv in Hfr. apply wrapM_ok_inv in Hp.
  inversion Hp as [[Hproc Hw]]. subst w1.
  exists frags. split; [exact Hfr|].
  exact (processFragments_from_MaxCurrentTime frags sl_empty sl Hproc).
Qed.

(** X18. After a successful step or full sync the stored [last_sync_at]
    is the largest [CurrentTime] the server reported in the fragments of
    that pull, and 0 when none is positive. *)
Theorem pull_records_server_time (fuel : nat) (a : Z) (w w' : World Srv) :
  (stepSync cl ctx fuel a w = (Ok tt, w') ->
   exists fragments w1,
     getSyncFragments cl fuel a w = (Ok fragments, w1) /\
     system (w_tx w') !! SystemLastSyncAt = Some (max_CurrentTime fragments)) /\
  (fullSync cl ctx fuel w = (Ok tt, w') ->
   exists fragments w1,
     getSyncFragments cl fuel 0 w = (Ok fragments, w1) /\
     system (w_tx w') !! SystemLastSyncAt = Some (max_CurrentTime fragments)).
Proof.
  assert (Hsave : forall tx t usn,
            system (saveSyncState tx t usn) !! SystemLastSyncAt = Some t).
  { intros tx t usn. unfold saveSyncState, updateLastSyncAt, UpdateSystem. simpl.
    apply lookup_insert_eq. }
  split.
  - unfold stepSync. intros Hrun.
    apply bind_ok_inv in Hrun as (sl & w1 & Hlist & Hrun).
    apply wrapM_ok_inv in Hlist.
    apply getSyncList_MaxCurrentTime in Hlist as (frags & Hfr & Hmax).
    apply bind_ok_inv in Hrun as ([] & w2 & _ & Hrun).
    apply bind_ok_inv in Hrun as ([] & w3 & _ & Hrun).
    apply bind_ok_inv in Hrun as ([] & w4 & _ & Hrun).
    apply bind_ok_inv in Hrun as ([] & w5 & _ & Hrun).
    inversion Hrun. simpl. exists frags, w1. split; [exact Hfr|].
    rewrite <- Hmax. apply Hsave.
  - unfold fullSync. intros Hrun.
    apply bind_ok_inv in Hrun as (sl & w1 & Hlist & Hrun).
    apply wrapM_ok_inv in Hlist.
    apply getSyncList_MaxCurrentTime in Hlist as (frags & Hfr & Hmax).
    apply bind_ok_inv in Hrun as ([] & w2 & _ & Hrun).
    apply bind_ok_inv in Hrun as ([] & w3 & _ & Hrun).
    apply bind_ok_inv in Hrun as ([] & w4 & _ & Hrun).
    apply bind_ok_inv in Hrun as ([] & w5 & _ & Hrun).
    apply bind_ok_inv in Hrun as ([] & w6 & _ & Hrun).
    apply bind_ok_inv in Hrun as ([] & w7 & _ & Hrun).
    inversion Hrun. simpl. exists frags, w1. split; [exact Hfr|].
    rewrite <- Hmax. apply Hsave.
Qed.

End PullRecords.

Lemma pull_records_server_time_witness :
  exists fragments w1,
    getSyncFragments ex_client 3 0 (ex_world ex_script_empty ex_tx_synced)
      = (Ok fragments, w1) /\
    system (w_tx (fullSync ex_client ex_ctx 3 (ex_world ex_script_empty ex_tx_synced)).2)
      !! SystemLastSyncAt = Some (max_CurrentTime fragments).
Proof.
  destruct (pull_records_server_time ex_client ex_ctx 3 0
              (ex_world ex_script_empty ex_tx_synced)
              (fullSync ex_client ex_ctx 3 (ex_world ex_script_empty ex_tx_synced)).2)
    as (_ & Hfull).
  apply Hfull. vm_compute. reflexivity.
Defined.

(** X19. The step merge of a server book leaves every other book alone
    unless it holds the server book's label: a row whose uuid and label both
    differ from the server book's stays in place, unchanged. *)
Theorem stepSyncBook_frame (tx tx' : DB) (b : SyncFragBook) (i : nat) (r : Book) :
  stepSyncBook tx b = Ok tx' ->
  books tx !! i = Some r ->
  b_UUID r <> fb_UUID b ->
  b_Label r <> fb_Label b ->
  books tx' !! i = Some r.
Proof.
  intros Hs Hi Hu Hl. unfold stepSyncBook, mergeBook in Hs.
  destruct (resolveLabel_total tx (fb_Label b)) as (k & Hres & _).
  rewrite Hres in Hs.
  assert (Hren : forall newLabel,
            sql_update (fun x => b_Label x = fb_Label b)
              (fun x => mkBook (b_UUID x) newLabel (b_USN x) true (b_Deleted x))
              (books tx) !! i = Some r).
  { intros newLabel. rewrite sql_update_lookup, Hi. simpl.
    destruct (decide (b_Label r = fb_Label b)); [contradiction | reflexivity]. }
  destruct (sql_query_row (fun x => b_UUID x = fb_UUID b) (books tx)) as [r0|].
  - destruct (decide (modeUpdate = modeInsert)) as [Hm|_]; [discriminate|].
    destruct (decide (modeUpdate = modeUpdate)) as [_|Hm]; [|contradiction].
    destruct (decide (sql_count _ _ > 0)); simpl in Hs; inversion Hs; subst; simpl;
      rewrite sql_update_lookup, ?Hren, ?Hi; simpl;
      (destruct (decide (b_UUID r = fb_UUID b)); [contradiction | reflexivity]).
  - destruct (decide (modeInsert = modeInsert)) as [_|Hm]; [|contradiction].
    destruct (decide (sql_count _ _ > 0)); simpl in Hs; inversion Hs; subst; simpl.
    + rewrite lookup_app_l; [apply Hren|].
      rewrite sql_update_length. apply lookup_lt_Some in Hi. exact Hi.
    + apply lookup_app_l_Some. exact Hi.
Qed.

Lemma stepSyncBook_frame_witness :
  books (mkDB [mkBook "L1" "X (4)" 0 true false; mkBook "L2" "X (2)" 3 false false;
               mkBook "L3" "X (3)" 4 false false; mkBook "S9" "X" 7 false false] [] ∅)
    !! 1%nat = Some (mkBook "L2" "X (2)" 3 false false).
Proof.
  apply (stepSyncBook_frame ex_tx_labels _ (mkFragBook "S9" 7 "X" false)).
  - reflexivity.
  - reflexivity.
  - discriminate.
  - discriminate.
Defined.
